(** * Orchestration middleware (Roo-Code hooks): a shallow embedding

    The development follows the TypeScript sources module by module:
    - [JS]                 the fragment of the JavaScript runtime the hooks use
                           (strings of UTF-16 code units, arrays, values);
    - [Sha256]             the digest behind [crypto.createHash("sha256")];
    - [Hashing]            src/hooks/utils/hashing.ts;
    - [MutationClassifier] src/hooks/utils/mutationClassifier.ts;
    - later modules        the file system, the snapshot tracker, the trace
                           model and storage, the hooks and the lesson tool.

    Strings are lists of UTF-16 code units (numbers below 65536), which is what
    [length], [split], [===] and the regular expressions of the sources see. *)

From Stdlib Require Import List NArith ZArith QArith Lia Bool String Ascii.
From Stdlib Require DecimalN DecimalFacts.
From stdpp Require Import gmap.
Import ListNotations.

Set Warnings "-register-all".

Local Close Scope Q_scope.
Local Open Scope N_scope.

(* ===================================================================== *)
(** ** The JavaScript runtime fragment *)
(* ===================================================================== *)

Module JS.

(** A JavaScript string: the list of its UTF-16 code units. *)
Abbreviation jsstring := (list N).

(** A literal whose characters are all ASCII. *)
Definition lit (s : string) : jsstring :=
  map N_of_ascii (list_ascii_of_string s).

Definition LF : N := 10.
Definition CR : N := 13.

(** [s === t] on strings. *)
Definition str_eqb (s t : jsstring) : bool := bool_decide (s = t).

(** [s.startsWith(p)]. *)
Fixpoint startsWith (p s : jsstring) : bool :=
  match p, s with
  | [], _ => true
  | a :: p', b :: s' => N.eqb a b && startsWith p' s'
  | _ :: _, [] => false
  end.

(** [s.includes(sub)]: [sub] occurs at some position of [s]. *)
Fixpoint includes (s sub : jsstring) : bool :=
  startsWith sub s ||
  match s with
  | [] => false
  | _ :: s' => includes s' sub
  end.

(** [s.split(sep)] for a string separator.  The scan goes left to right; at an
    occurrence of [sep] the current piece is closed and the next
    [length sep - 1] characters (the rest of the occurrence) are skipped. *)
Fixpoint split_go (sep : jsstring) (skip : nat) (cur s : jsstring)
  : list jsstring :=
  match s with
  | [] => [rev cur]
  | c :: s' =>
      match skip with
      | S k => split_go sep k cur s'
      | O =>
          if startsWith sep s
          then rev cur :: split_go sep (length sep - 1) [] s'
          else split_go sep O (c :: cur) s'
      end
  end.

Definition split (sep s : jsstring) : list jsstring :=
  match sep with
  | [] => map (fun c => [c]) s
  | _ => split_go sep O [] s
  end.

(** [xs.join(sep)]. *)
Fixpoint join (sep : jsstring) (xs : list jsstring) : jsstring :=
  match xs with
  | [] => []
  | [x] => x
  | x :: rest => x ++ sep ++ join sep rest
  end.

(** [s.replace(/pat/g, rep)] for a pattern that is a literal string. *)
Fixpoint replaceAll_go (pat rep : jsstring) (skip : nat) (s : jsstring)
  : jsstring :=
  match s with
  | [] => []
  | c :: s' =>
      match skip with
      | S k => replaceAll_go pat rep k s'
      | O =>
          if startsWith pat s
          then rep ++ replaceAll_go pat rep (length pat - 1) s'
          else c :: replaceAll_go pat rep O s'
      end
  end.

Definition replaceAll (pat rep s : jsstring) : jsstring :=
  replaceAll_go pat rep O s.

(** Line terminators of ECMAScript: LF, CR, LS, PS. *)
Definition isLineTerminator (c : N) : bool :=
  (c =? 10) || (c =? 13) || (c =? 0x2028) || (c =? 0x2029).

(** White space in the sense of [String.prototype.trim] and of the regular
    expression class [\s]: WhiteSpace together with LineTerminator. *)
Definition isSpace (c : N) : bool :=
  (c =? 9) || (c =? 10) || (c =? 11) || (c =? 12) || (c =? 13) || (c =? 32)
  || (c =? 0xA0) || (c =? 0x1680) || ((0x2000 <=? c) && (c <=? 0x200A))
  || (c =? 0x2028) || (c =? 0x2029) || (c =? 0x202F) || (c =? 0x205F)
  || (c =? 0x3000) || (c =? 0xFEFF).

Fixpoint dropWhile {A} (p : A -> bool) (l : list A) : list A :=
  match l with
  | [] => []
  | x :: l' => if p x then dropWhile p l' else l
  end.

Definition trimStart (s : jsstring) : jsstring := dropWhile isSpace s.
Definition trimEnd (s : jsstring) : jsstring := rev (dropWhile isSpace (rev s)).
Definition trim (s : jsstring) : jsstring := trimEnd (trimStart s).

(** [xs.slice(start, end)] with JavaScript's treatment of negative and
    out-of-range indices. *)
Definition relIndex (len i : Z) : Z :=
  if (i <? 0)%Z then Z.max (len + i) 0 else Z.min i len.

Definition slice {A} (start stop : Z) (xs : list A) : list A :=
  let len := Z.of_nat (length xs) in
  let k := relIndex len start in
  let e := relIndex len stop in
  firstn (Z.to_nat (e - k)) (skipn (Z.to_nat k) xs).

(** [xs.slice(start)]. *)
Definition sliceFrom {A} (start : Z) (xs : list A) : list A :=
  skipn (Z.to_nat (relIndex (Z.of_nat (length xs)) start)) xs.

(** [xs.includes(x)] on an array of strings. *)
Definition arr_includes (xs : list jsstring) (x : jsstring) : bool :=
  existsb (str_eqb x) xs.

End JS.

Import JS.

(* ===================================================================== *)
(** ** SHA-256 (FIPS 180-4) and the UTF-8 encoding of a string *)
(* ===================================================================== *)

Module Sha256.

Definition mask32 : N := 0xFFFFFFFF.
Definition add32 (a b : N) : N := N.land (a + b) mask32.
Definition rotr (n x : N) : N :=
  N.lor (N.shiftr x n) (N.land (N.shiftl x (32 - n)) mask32).
Definition not32 (x : N) : N := N.lxor x mask32.

Definition Ch (x y z : N) : N := N.lxor (N.land x y) (N.land (not32 x) z).
Definition Maj (x y z : N) : N :=
  N.lxor (N.land x y) (N.lxor (N.land x z) (N.land y z)).
Definition bsig0 (x : N) : N := N.lxor (rotr 2 x) (N.lxor (rotr 13 x) (rotr 22 x)).
Definition bsig1 (x : N) : N := N.lxor (rotr 6 x) (N.lxor (rotr 11 x) (rotr 25 x)).
Definition ssig0 (x : N) : N := N.lxor (rotr 7 x) (N.lxor (rotr 18 x) (N.shiftr x 3)).
Definition ssig1 (x : N) : N := N.lxor (rotr 17 x) (N.lxor (rotr 19 x) (N.shiftr x 10)).

(** The round constants: the first 32 bits of the fractional parts of the
    cube roots of the first 64 primes. *)
Definition K : list N :=
  [ 1116352408; 1899447441; 3049323471; 3921009573;  961987163;
    1508970993; 2453635748; 2870763221; 3624381080;  310598401;
     607225278; 1426881987; 1925078388; 2162078206; 2614888103;
    3248222580; 3835390401; 4022224774;  264347078;  604807628;
     770255983; 1249150122; 1555081692; 1996064986; 2554220882;
    2821834349; 2952996808; 3210313671; 3336571891; 3584528711;
     113926993;  338241895;  666307205;  773529912; 1294757372;
    1396182291; 1695183700; 1986661051; 2177026350; 2456956037;
    2730485921; 2820302411; 3259730800; 3345764771; 3516065817;
    3600352804; 4094571909;  275423344;  430227734;  506948616;
     659060556;  883997877;  958139571; 1322822218; 1537002063;
    1747873779; 1955562222; 2024104815; 2227730452; 2361852424;
    2428436474; 2756734187; 3204031479; 3329325298 ].

(** The initial hash value: the first 32 bits of the fractional parts of the
    square roots of the first 8 primes. *)
Definition H0 : list N :=
  [ 1779033703; 3144134277; 1013904242; 2773480762;
    1359893119; 2600822924;  528734635; 1541459225 ].

(** Big-endian bytes of a number, [n] of them. *)
Fixpoint be_bytes (n : nat) (x : N) : list N :=
  match n with
  | O => []
  | S k => N.land (N.shiftr x (8 * N.of_nat k)) 0xFF :: be_bytes k x
  end.

(** The padded message: a [1] bit, zeros up to 56 modulo 64, the bit length. *)
Definition pad (msg : list N) : list N :=
  let len := N.of_nat (length msg) in
  let zeros := N.to_nat ((119 - len mod 64) mod 64) in
  msg ++ [0x80] ++ repeat 0 zeros ++ be_bytes 8 (8 * len).

Definition word_of (b3 b2 b1 b0 : N) : N :=
  N.lor (N.shiftl b3 24) (N.lor (N.shiftl b2 16) (N.lor (N.shiftl b1 8) b0)).

Fixpoint words_of (bytes : list N) : list N :=
  match bytes with
  | b3 :: b2 :: b1 :: b0 :: rest => word_of b3 b2 b1 b0 :: words_of rest
  | _ => []
  end.

(** The message schedule, newest word first: [w] holds W[t-1], W[t-2], ... *)
Fixpoint schedule (n : nat) (w : list N) : list N :=
  match n with
  | O => w
  | S k =>
      let wt :=
        add32 (add32 (ssig1 (nth 1 w 0)) (nth 6 w 0))
              (add32 (ssig0 (nth 14 w 0)) (nth 15 w 0)) in
      schedule k (wt :: w)
  end.

Record regs := Regs { ra : N; rb : N; rc : N; rd : N;
                      re : N; rf : N; rg : N; rh : N }.

Definition round (s : regs) (kw : N * N) : regs :=
  let t1 := add32 (add32 (add32 (rh s) (bsig1 (re s)))
                         (add32 (Ch (re s) (rf s) (rg s)) (fst kw))) (snd kw) in
  let t2 := add32 (bsig0 (ra s)) (Maj (ra s) (rb s) (rc s)) in
  Regs (add32 t1 t2) (ra s) (rb s) (rc s) (add32 (rd s) t1) (re s) (rf s) (rg s).

Definition regs_of (h : list N) : regs :=
  Regs (nth 0 h 0) (nth 1 h 0) (nth 2 h 0) (nth 3 h 0)
       (nth 4 h 0) (nth 5 h 0) (nth 6 h 0) (nth 7 h 0).

Definition compress (h : list N) (block : list N) : list N :=
  let w := rev (schedule 48 (rev (words_of block))) in
  let s0 := regs_of h in
  let s := fold_left round (combine K w) s0 in
  [ add32 (ra s0) (ra s); add32 (rb s0) (rb s); add32 (rc s0) (rc s);
    add32 (rd s0) (rd s); add32 (re s0) (re s); add32 (rf s0) (rf s);
    add32 (rg s0) (rg s); add32 (rh s0) (rh s) ].

Fixpoint blocks (n : nat) (h : list N) (bytes : list N) : list N :=
  match n with
  | O => h
  | S k => blocks k (compress h (firstn 64 bytes)) (skipn 64 bytes)
  end.

Definition digest_words (msg : list N) : list N :=
  let p := pad msg in
  blocks (Nat.div (length p) 64) H0 p.

Definition hex_digit (d : N) : N := if d <? 10 then 48 + d else 87 + d.

Fixpoint hex_of (n : nat) (x : N) : jsstring :=
  match n with
  | O => []
  | S k => hex_digit (N.land (N.shiftr x (4 * N.of_nat k)) 0xF) :: hex_of k x
  end.

(** [digest("hex")]: 64 lowercase hexadecimal digits. *)
Definition hex_digest (msg : list N) : jsstring :=
  flat_map (hex_of 8) (digest_words msg).

Definition isHighSurrogate (c : N) : bool := (0xD800 <=? c) && (c <=? 0xDBFF).
Definition isLowSurrogate (c : N) : bool := (0xDC00 <=? c) && (c <=? 0xDFFF).

Definition utf8_3 (c : N) : list N :=
  [ N.lor 0xE0 (N.shiftr c 12);
    N.lor 0x80 (N.land (N.shiftr c 6) 0x3F);
    N.lor 0x80 (N.land c 0x3F) ].

Definition utf8_4 (cp : N) : list N :=
  [ N.lor 0xF0 (N.shiftr cp 18);
    N.lor 0x80 (N.land (N.shiftr cp 12) 0x3F);
    N.lor 0x80 (N.land (N.shiftr cp 6) 0x3F);
    N.lor 0x80 (N.land cp 0x3F) ].

(** The bytes [update(s, "utf8")] feeds to the hash: surrogate pairs become one
    four-byte sequence, a lone surrogate becomes U+FFFD. *)
Fixpoint utf8 (s : jsstring) : list N :=
  match s with
  | [] => []
  | c :: s' =>
      if c <? 0x80 then c :: utf8 s'
      else if c <? 0x800 then
        N.lor 0xC0 (N.shiftr c 6) :: N.lor 0x80 (N.land c 0x3F) :: utf8 s'
      else if isHighSurrogate c then
        match s' with
        | d :: s'' =>
            if isLowSurrogate d
            then utf8_4 (0x10000 + (c - 0xD800) * 0x400 + (d - 0xDC00)) ++ utf8 s''
            else utf8_3 0xFFFD ++ utf8 s'
        | [] => utf8_3 0xFFFD
        end
      else if isLowSurrogate c then utf8_3 0xFFFD ++ utf8 s'
      else utf8_3 c ++ utf8 s'
  end.

End Sha256.

(* ===================================================================== *)
(** ** src/hooks/utils/hashing.ts *)
(* ===================================================================== *)

Module Hashing.

(** [content.replace(/\r\n/g, "\n").replace(/\r/g, "\n")]. *)
Definition normalizeLineEndings (content : jsstring) : jsstring :=
  replaceAll [CR] [LF] (replaceAll [CR; LF] [LF] content).

(** [createHash("sha256").update(normalized, "utf8").digest("hex")]. *)
Definition sha256 (content : jsstring) : jsstring :=
  let normalized := normalizeLineEndings content in
  Sha256.hex_digest (Sha256.utf8 normalized).

(** [computeContentHash(content, startLine?, endLine?)]; an omitted argument
    is [None]. *)
Definition computeContentHash (content : jsstring) (startLine endLine : option Z)
  : jsstring :=
  match startLine, endLine with
  | Some startLine, Some endLine =>
      let lines := split [LF] (normalizeLineEndings content) in
      let start := Z.max 0 (startLine - 1) in
      let stop := Z.min (Z.of_nat (length lines)) endLine in
      if (start >=? stop)%Z then sha256 []
      else
        let block := join [LF] (slice start stop lines) in
        sha256 block
  | _, _ => sha256 content
  end.

(** The number of lines of [x] as the hasher sees them. *)
Definition line_count (x : jsstring) : Z :=
  Z.of_nat (length (split [LF] (normalizeLineEndings x))).

End Hashing.

(* ===================================================================== *)
(** ** Regular expressions of the classifier *)
(* ===================================================================== *)

Module Regex.

(** The fragment the bug-fix patterns are written in: literals, character
    classes, concatenation, alternation and [?].  The patterns carry the [i]
    flag and are ASCII, so a pattern letter matches itself in either case. *)
Inductive re :=
| Nul
| Eps
| Chr (c : N)
| Cls (cs : list N)
| Cat (a b : re)
| Alt (a b : re)
| Opt (a : re).

Definition isUpper (c : N) : bool := (65 <=? c) && (c <=? 90).
Definition toLower (c : N) : N := if isUpper c then c + 32 else c.

(** Equality of two characters under the [i] flag, one of them ASCII. *)
Definition eq_ci (a b : N) : bool := toLower a =? toLower b.

Fixpoint nullable (r : re) : bool :=
  match r with
  | Nul => false
  | Eps => true
  | Chr _ => false
  | Cls _ => false
  | Cat a b => nullable a && nullable b
  | Alt a b => nullable a || nullable b
  | Opt _ => true
  end.

(** The derivative of [r] by the character [c]. *)
Fixpoint deriv (c : N) (r : re) : re :=
  match r with
  | Nul => Nul
  | Eps => Nul
  | Chr d => if eq_ci c d then Eps else Nul
  | Cls cs => if existsb (eq_ci c) cs then Eps else Nul
  | Cat a b =>
      if nullable a then Alt (Cat (deriv c a) b) (deriv c b)
      else Cat (deriv c a) b
  | Alt a b => Alt (deriv c a) (deriv c b)
  | Opt a => deriv c a
  end.

(** [r] matches some prefix of [s]. *)
Fixpoint matchesPrefix (r : re) (s : jsstring) : bool :=
  nullable r ||
  match s with
  | [] => false
  | c :: s' => matchesPrefix (deriv c r) s'
  end.

(** [r.test(s)]: [r] matches somewhere in [s]. *)
Fixpoint test (r : re) (s : jsstring) : bool :=
  matchesPrefix r s ||
  match s with
  | [] => false
  | _ :: s' => test r s'
  end.

(** A literal word. *)
Definition word (s : string) : re :=
  fold_right (fun c r => Cat (Chr c) r) Eps (lit s).

Definition alts (rs : list re) : re := fold_right Alt Nul rs.

(** [s.replace(/r/g, "")] for a pattern given by its matcher: [m prev s] is
    the length of the match of the pattern at the start of [s], where [prev]
    is the character before that position ([None] at the start of the
    subject).  Matches are found left to right and do not overlap. *)
Fixpoint removeAll_go (m : option N -> jsstring -> option nat)
  (skip : nat) (prev : option N) (s : jsstring) : jsstring :=
  match s with
  | [] => []
  | c :: s' =>
      match skip with
      | S k => removeAll_go m k (Some c) s'
      | O =>
          match m prev s with
          | Some (S n) => removeAll_go m n (Some c) s'
          | _ => c :: removeAll_go m O (Some c) s'
          end
      end
  end.

Definition removeAll (m : option N -> jsstring -> option nat) (s : jsstring)
  : jsstring :=
  removeAll_go m O None s.

(** The position of the first occurrence of [sub] in [s]. *)
Fixpoint indexOf (sub s : jsstring) : option nat :=
  if startsWith sub s then Some O
  else match s with
       | [] => None
       | _ :: s' => option_map S (indexOf sub s')
       end.

Fixpoint takeWhile {A} (p : A -> bool) (l : list A) : list A :=
  match l with
  | [] => []
  | x :: l' => if p x then x :: takeWhile p l' else []
  end.

(** The length of the longest run [.*] can take: up to the next line
    terminator. *)
Definition dotStar (s : jsstring) : nat :=
  length (takeWhile (fun c => negb (isLineTerminator c)) s).

(** [^] under the [m] flag. *)
Definition atLineStart (prev : option N) : bool :=
  match prev with
  | None => true
  | Some c => isLineTerminator c
  end.

End Regex.

(* ===================================================================== *)
(** ** src/hooks/utils/mutationClassifier.ts *)
(* ===================================================================== *)

Module MutationClassifier.

Import Regex.

Inductive MutationClass :=
| AST_REFACTOR
| INTENT_EVOLUTION
| BUG_FIX
| DOCUMENTATION.

(** The enum's string values. *)
Definition className (c : MutationClass) : jsstring :=
  match c with
  | AST_REFACTOR => lit "AST_REFACTOR"
  | INTENT_EVOLUTION => lit "INTENT_EVOLUTION"
  | BUG_FIX => lit "BUG_FIX"
  | DOCUMENTATION => lit "DOCUMENTATION"
  end.

Definition allClasses : list MutationClass :=
  [AST_REFACTOR; INTENT_EVOLUTION; BUG_FIX; DOCUMENTATION].

(** [/fix(e[ds])?|bug|issue|repair|patch/i],
    [/undefined|null|error|exception|crash/i],
    [/should|expected|actual|assert/i]. *)
Definition BUG_FIX_PATTERNS : list re :=
  [ alts [ Cat (word "fix") (Opt (Cat (Chr 101) (Cls [100; 115])));
           word "bug"; word "issue"; word "repair"; word "patch" ];
    alts [ word "undefined"; word "null"; word "error"; word "exception";
           word "crash" ];
    alts [ word "should"; word "expected"; word "actual"; word "assert" ] ].

(** [/\/\*[\s\S]*?\*\//g]: from a slash-star to the nearest star-slash. *)
Definition blockComment (prev : option N) (s : jsstring) : option nat :=
  if startsWith [47; 42] s
  then option_map (fun i => (2 + i + 2)%nat) (indexOf [42; 47] (skipn 2 s))
  else None.

(** [/\/\/.*$/gm]: from two slashes to the end of the line. *)
Definition lineComment (prev : option N) (s : jsstring) : option nat :=
  if startsWith [47; 47] s
  then Some (2 + dotStar (skipn 2 s))%nat
  else None.

(** [/^\s*\*.*$/gm]: at the start of a line, white space (line breaks
    included), a star, and the rest of that line. *)
Definition docAsterisk (prev : option N) (s : jsstring) : option nat :=
  if atLineStart prev then
    let ws := length (takeWhile isSpace s) in
    match skipn ws s with
    | 42 :: rest => Some (ws + 1 + dotStar rest)%nat
    | _ => None
    end
  else None.

(** Strips comment lines and block comments from code for comparison. *)
Definition removeComments (code : jsstring) : jsstring :=
  trim (removeAll docAsterisk (removeAll lineComment (removeAll blockComment code))).

Definition isDocumentationChange (oldContent newContent : jsstring) : bool :=
  let oldCode := removeComments oldContent in
  let newCode := removeComments newContent in
  str_eqb oldCode newCode && negb (str_eqb oldContent newContent).

Definition isBugFix (diff : jsstring) : bool :=
  existsb (fun pattern => test pattern diff) BUG_FIX_PATTERNS.

(** The text the bug-fix patterns are tried on. *)
Definition diffText (oldContent newContent : jsstring) : jsstring :=
  let lines := split [LF] newContent in
  let oldLines := split [LF] oldContent in
  let added := join [LF] (List.filter (fun l => negb (arr_includes oldLines l)) lines) in
  let removed := join [LF] (List.filter (fun l => negb (arr_includes lines l)) oldLines) in
  lit "+" ++ added ++ [LF] ++ lit "-" ++ removed.

Definition len (s : jsstring) : Z := Z.of_nat (length s).

(** [Math.abs(newContent.length - oldContent.length) / oldLen], as an exact
    quotient.  Lengths are integers below 2^53, for which the double
    division and the comparison with the double [0.2] decide exactly as the
    exact quotient and [1/5] do: a quotient above [1/5] exceeds it by at least
    [1/(5 * oldLen)], far more than the rounding of either side. *)
Definition sizeChange (oldContent newContent : jsstring) : Q :=
  let oldLen := if (len oldContent =? 0)%Z then 1%Z else len oldContent in
  Z.abs (len newContent - len oldContent) # Z.to_pos oldLen.

Definition classifyMutation (oldContent newContent : jsstring) : MutationClass :=
  if str_eqb oldContent newContent then DOCUMENTATION
  else if isDocumentationChange oldContent newContent then DOCUMENTATION
  else
    let diff := diffText oldContent newContent in
    if isBugFix diff then BUG_FIX
    else if negb (Qle_bool (sizeChange oldContent newContent) (2 # 10))
         then INTENT_EVOLUTION
         else AST_REFACTOR.

(** [Object.values(MutationClass).includes(explicitClass)], with the class it
    names. *)
Definition parseClass (s : jsstring) : option MutationClass :=
  List.find (fun c => str_eqb s (className c)) allClasses.

Definition getMutationClass (explicitClass : option jsstring)
  (oldContent newContent : jsstring) : MutationClass :=
  match explicitClass with
  | Some e =>
      match e, parseClass e with
      | _ :: _, Some c => c
      | _, _ => classifyMutation oldContent newContent
      end
  | None => classifyMutation oldContent newContent
  end.

End MutationClassifier.

(* ===================================================================== *)
(** ** Effects: exceptions and state *)
(* ===================================================================== *)

Module Eff.

(** The [code] of a [NodeJS.ErrnoException]. *)
Inductive ErrCode := ENOENT | EACCES | EISDIR | ENOTDIR | EEXIST | EIO.

(** What a JavaScript computation can throw. *)
Inductive Exn :=
| ErrnoException (code : ErrCode)
| Error (message : jsstring)
| TypeError (message : jsstring).

Inductive Outcome (A : Type) :=
| Returns (a : A)
| Throws (e : Exn).
Arguments Returns {A} a.
Arguments Throws {A} e.

(** A computation over the state [W] that returns or throws; the state
    reached so far survives a throw, as it does in the sources. *)
Definition M (W A : Type) : Type := W -> Outcome A * W.

Definition ret {W A} (a : A) : M W A := fun w => (Returns a, w).
Definition throw {W A} (e : Exn) : M W A := fun w => (Throws e, w).
Definition bind {W A B} (m : M W A) (k : A -> M W B) : M W B :=
  fun w =>
    match m w with
    | (Returns a, w') => k a w'
    | (Throws e, w') => (Throws e, w')
    end.

(** [try { m } catch (error) { handler error }]. *)
Definition tryCatch {W A} (m : M W A) (handler : Exn -> M W A) : M W A :=
  fun w =>
    match m w with
    | (Returns a, w') => (Returns a, w')
    | (Throws e, w') => handler e w'
    end.

Definition get {W} : M W W := fun w => (Returns w, w).
Definition modify {W} (f : W -> W) : M W unit := fun w => (Returns tt, f w).

(** Lifts a result computed from the state without changing it. *)
Definition lift {W A} (f : W -> Outcome A) : M W A := fun w => (f w, w).

Declare Scope eff_scope.
Delimit Scope eff_scope with eff.
Notation "'let!' x ':=' m 'in' k" := (bind m (fun x => k))
  (at level 10, x name, m at level 100, k at level 200) : eff_scope.
Notation "'do!' m 'in' k" := (bind m (fun _ => k))
  (at level 10, m at level 100, k at level 200) : eff_scope.

End Eff.

Import Eff.
Local Open Scope eff_scope.

(* ===================================================================== *)
(** ** The file system ([fs.promises]) *)
(* ===================================================================== *)

Module Fs.

(** A path is kept as [path.join] builds it: the string it starts from and
    the segments joined onto it.  [(p, [])] is the path [p] itself. *)
Abbreviation Path := (list N * list (list N))%type.

Definition pathOf (p : jsstring) : Path := (p, []).
Definition pathJoin (p : Path) (seg : jsstring) : Path := (fst p, snd p ++ [seg]).

(** The directory a joined path lies in. *)
Definition parent (p : Path) : option Path :=
  match snd p with
  | [] => None
  | _ :: _ => Some (fst p, removelast (snd p))
  end.

(** What is found at a path: a regular file, a directory, or something every
    operation on which fails with the given code (no permission, a broken
    device). *)
Inductive Node :=
| File (content : jsstring)
| Dir
| Faulty (code : ErrCode).

Abbreviation FS := (gmap Path Node).

(** [fs.readFile(p, "utf8")]. *)
Definition readFile (fs : FS) (p : Path) : Outcome jsstring :=
  match fs !! p with
  | Some (File c) => Returns c
  | Some Dir => Throws (ErrnoException EISDIR)
  | Some (Faulty e) => Throws (ErrnoException e)
  | None => Throws (ErrnoException ENOENT)
  end.

(** Creating a file needs its directory. *)
Definition create (fs : FS) (p : Path) (data : jsstring) : Outcome FS :=
  match parent p with
  | None => Returns (<[p := File data]> fs)
  | Some d =>
      match fs !! d with
      | Some Dir => Returns (<[p := File data]> fs)
      | Some (File _) => Throws (ErrnoException ENOTDIR)
      | Some (Faulty e) => Throws (ErrnoException e)
      | None => Throws (ErrnoException ENOENT)
      end
  end.

(** [fs.appendFile(p, data, "utf8")]. *)
Definition appendFile (fs : FS) (p : Path) (data : jsstring) : Outcome FS :=
  match fs !! p with
  | Some (File c) => Returns (<[p := File (c ++ data)]> fs)
  | Some Dir => Throws (ErrnoException EISDIR)
  | Some (Faulty e) => Throws (ErrnoException e)
  | None => create fs p data
  end.

(** [fs.writeFile(p, data, "utf8")]. *)
Definition writeFile (fs : FS) (p : Path) (data : jsstring) : Outcome FS :=
  match fs !! p with
  | Some (File _) => Returns (<[p := File data]> fs)
  | Some Dir => Throws (ErrnoException EISDIR)
  | Some (Faulty e) => Throws (ErrnoException e)
  | None => create fs p data
  end.

(** [fs.access(p)]. *)
Definition access (fs : FS) (p : Path) : Outcome unit :=
  match fs !! p with
  | Some (Faulty e) => Throws (ErrnoException e)
  | Some _ => Returns tt
  | None => Throws (ErrnoException ENOENT)
  end.

(** [fs.mkdir(p, { recursive: true })]. *)
Definition mkdir (fs : FS) (p : Path) : Outcome FS :=
  match fs !! p with
  | Some Dir => Returns fs
  | Some (File _) => Throws (ErrnoException EEXIST)
  | Some (Faulty e) => Throws (ErrnoException e)
  | None => Returns (<[p := Dir]> fs)
  end.


End Fs.

(* ===================================================================== *)
(** ** Node's [path] module, POSIX flavour *)
(* ===================================================================== *)

Module NodePath.

Definition slash : N := 47.
Definition dotdot : jsstring := [46; 46].

(** [process.cwd()]; it is consulted only when the workspace root is itself
    relative. *)
Definition cwd : jsstring := [slash].

Definition isAbsolute (p : jsstring) : bool := startsWith [slash] p.

(** The segments of a path, with empty and [.] segments dropped. *)
Definition segments (p : jsstring) : list jsstring :=
  List.filter (fun s => negb (str_eqb s [] || str_eqb s [46])) (split [slash] p).

(** Resolves [..] segments; [acc] holds the segments kept so far, last
    first.  Above the root of an absolute path [..] is dropped, in a relative
    path it is kept. *)
Fixpoint normSegs (absolute : bool) (acc segs : list jsstring) : list jsstring :=
  match segs with
  | [] => rev acc
  | s :: rest =>
      if str_eqb s dotdot then
        match acc with
        | [] => normSegs absolute (if absolute then [] else [dotdot]) rest
        | a :: acc' =>
            if str_eqb a dotdot then normSegs absolute (s :: acc) rest
            else normSegs absolute acc' rest
        end
      else normSegs absolute (s :: acc) rest
  end.

(** [path.resolve(from, p)]: an absolute path without a trailing slash. *)
Definition resolve (from p : jsstring) : jsstring :=
  let full :=
    if isAbsolute p then p
    else if isAbsolute from then from ++ [slash] ++ p
    else cwd ++ [slash] ++ from ++ [slash] ++ p in
  slash :: join [slash] (normSegs true [] (segments full)).

(** [path.normalize(p)]. *)
Definition normalize (p : jsstring) : jsstring :=
  let absolute := isAbsolute p in
  let body := join [slash] (normSegs absolute [] (segments p)) in
  let trailing :=
    match rev p with
    | c :: _ => c =? slash
    | [] => false
    end in
  match body with
  | [] => if absolute then [slash] else if trailing then [46; slash] else [46]
  | _ => (if absolute then [slash] else []) ++ body ++ (if trailing then [slash] else [])
  end.

Fixpoint dropCommon (a b : list jsstring) : list jsstring * list jsstring :=
  match a, b with
  | x :: a', y :: b' => if str_eqb x y then dropCommon a' b' else (a, b)
  | _, _ => (a, b)
  end.

(** [path.relative(from, to)]. *)
Definition relative (from to : jsstring) : jsstring :=
  let f := segments (resolve cwd from) in
  let t := segments (resolve cwd to) in
  let '(f', t') := dropCommon f t in
  join [slash] (map (fun _ => dotdot) f' ++ t').

End NodePath.

(* ===================================================================== *)
(** ** The process state the hooks run against *)
(* ===================================================================== *)

Module State.

Import Fs.

(** [FileSnapshot] of src/hooks/utils/fileState.ts. *)
Record FileSnapshot := {
  hash : jsstring;
  agentId : jsstring;
  timestamp : Z;
  filePath : jsstring
}.

(** [CacheEntry] of src/hooks/utils/git.ts. *)
Record CacheEntry := {
  revision : jsstring;
  cachedAt : Z
}.

(** The disk, the clock, the singletons of the modules, and what the
    environment answers: the identifiers [uuidv4()] will return next and what
    [git rev-parse HEAD] prints in a directory (no entry: the command
    fails). *)
Record World := {
  w_fs : FS;
  w_now : Z;
  w_nowISO : jsstring;
  w_uuids : list jsstring;
  w_snapshots : gmap jsstring FileSnapshot;
  w_gitHead : gmap jsstring jsstring;
  w_gitCache : gmap jsstring CacheEntry
}.

Definition set_fs (f : FS) (w : World) : World :=
  {| w_fs := f; w_now := w_now w; w_nowISO := w_nowISO w; w_uuids := w_uuids w;
     w_snapshots := w_snapshots w; w_gitHead := w_gitHead w;
     w_gitCache := w_gitCache w |}.

Definition set_snapshots (s : gmap jsstring FileSnapshot) (w : World) : World :=
  {| w_fs := w_fs w; w_now := w_now w; w_nowISO := w_nowISO w; w_uuids := w_uuids w;
     w_snapshots := s; w_gitHead := w_gitHead w; w_gitCache := w_gitCache w |}.

Definition set_gitCache (c : gmap jsstring CacheEntry) (w : World) : World :=
  {| w_fs := w_fs w; w_now := w_now w; w_nowISO := w_nowISO w; w_uuids := w_uuids w;
     w_snapshots := w_snapshots w; w_gitHead := w_gitHead w; w_gitCache := c |}.

Definition set_uuids (u : list jsstring) (w : World) : World :=
  {| w_fs := w_fs w; w_now := w_now w; w_nowISO := w_nowISO w; w_uuids := u;
     w_snapshots := w_snapshots w; w_gitHead := w_gitHead w;
     w_gitCache := w_gitCache w |}.

(** [Date.now()]. *)
Definition dateNow : M World Z := fun w => (Returns (w_now w), w).

(** [new Date().toISOString()]. *)
Definition dateISO : M World jsstring := fun w => (Returns (w_nowISO w), w).

(** [uuidv4()]. *)
Definition uuidv4 : M World jsstring :=
  fun w =>
    match w_uuids w with
    | u :: rest => (Returns u, set_uuids rest w)
    | [] => (Returns (lit "00000000-0000-4000-8000-000000000000"), w)
    end.

(** File operations on the disk of the world. *)
Definition fsRead (p : Path) : M World jsstring :=
  fun w => (readFile (w_fs w) p, w).

Definition fsUpdate (op : FS -> Outcome FS) : M World unit :=
  fun w =>
    match op (w_fs w) with
    | Returns f => (Returns tt, set_fs f w)
    | Throws e => (Throws e, w)
    end.

Definition fsAccess (p : Path) : M World unit :=
  fun w => (access (w_fs w) p, w).

End State.

(* ===================================================================== *)
(** ** src/hooks/utils/fileState.ts *)
(* ===================================================================== *)

Module FileState.

Import Fs State.

(** [path.isAbsolute(filePath) ? filePath : path.resolve(workspaceRoot, filePath)]. *)
Definition absolutePath (filePath workspaceRoot : jsstring) : jsstring :=
  if NodePath.isAbsolute filePath then filePath
  else NodePath.resolve workspaceRoot filePath.

(** The private [normalizePath]; [path.sep] is the slash, so the final
    [split(path.sep).join("/")] rebuilds the same string. *)
Definition normalizePath (filePath workspaceRoot : jsstring) : jsstring :=
  let absolute := absolutePath filePath workspaceRoot in
  let normalized := NodePath.normalize absolute in
  let relative := NodePath.relative workspaceRoot normalized in
  join [NodePath.slash] (split [NodePath.slash] relative).

Definition takeSnapshot (filePath content agentId workspaceRoot : jsstring)
  : M World jsstring :=
  let normalizedPath := normalizePath filePath workspaceRoot in
  let hash := Hashing.sha256 content in
  let! now := dateNow in
  do! modify (fun w =>
        set_snapshots
          (<[normalizedPath :=
               {| hash := hash; agentId := agentId; timestamp := now;
                  filePath := normalizedPath |}]> (w_snapshots w)) w) in
  ret hash.

Definition takeSnapshotFromDisk (filePath agentId workspaceRoot : jsstring)
  : M World jsstring :=
  tryCatch
    (let absolutePath := absolutePath filePath workspaceRoot in
     let! content := fsRead (pathOf absolutePath) in
     takeSnapshot filePath content agentId workspaceRoot)
    (fun error => throw error).

Definition verifySnapshot (filePath agentId workspaceRoot : jsstring)
  : M World bool :=
  let normalizedPath := normalizePath filePath workspaceRoot in
  let! w := get in
  match w_snapshots w !! normalizedPath with
  | None => ret true
  | Some snapshot =>
      tryCatch
        (let absolutePath := absolutePath filePath workspaceRoot in
         let! currentContent := fsRead (pathOf absolutePath) in
         let currentHash := Hashing.sha256 currentContent in
         let isValid := str_eqb currentHash (hash snapshot) in
         ret isValid)
        (fun error => ret false)
  end.

Definition releaseSnapshot (filePath agentId' workspaceRoot : jsstring)
  : M World unit :=
  let normalizedPath := normalizePath filePath workspaceRoot in
  let! w := get in
  match w_snapshots w !! normalizedPath with
  | Some snapshot =>
      if str_eqb (agentId snapshot) agentId'
      then modify (fun w => set_snapshots (delete normalizedPath (w_snapshots w)) w)
      else ret tt
  | None => ret tt
  end.

Definition releaseAllForAgent (agentId' : jsstring) : M World unit :=
  modify (fun w =>
    set_snapshots
      (filter (fun kv => agentId (snd kv) <> agentId') (w_snapshots w)) w).

Definition getStaleError (filePath agentId : jsstring) : jsstring :=
  lit "Stale File: " ++ filePath ++
  lit " has been modified by another agent. Please re-read the file and merge changes before writing.".

Definition DEFAULT_MAX_AGE : Z := 5 * 60 * 1000.

Definition cleanupStaleSnapshots (maxAgeMs : Z) : M World unit :=
  let! now := dateNow in
  modify (fun w =>
    set_snapshots
      (filter (fun kv => ~ (now - timestamp (snd kv) > maxAgeMs)%Z) (w_snapshots w)) w).

Definition getSnapshot (filePath workspaceRoot : jsstring)
  : M World (option FileSnapshot) :=
  let normalizedPath := normalizePath filePath workspaceRoot in
  let! w := get in
  ret (w_snapshots w !! normalizedPath).

Definition clear : M World unit :=
  modify (set_snapshots ∅).

End FileState.

(* ===================================================================== *)
(** ** src/hooks/utils/git.ts *)
(* ===================================================================== *)

Module Git.

Import State.

Definition CACHE_TTL_MS : Z := 5000.

(** [getCurrentRevision]: the cached revision while it is fresh, else what
    [git rev-parse HEAD] prints, trimmed, or ["unknown"] when it fails. *)
Definition getCurrentRevision (workspaceRoot : jsstring) : M World jsstring :=
  let! now := dateNow in
  let! w := get in
  let fresh :=
    match w_gitCache w !! workspaceRoot with
    | Some cached =>
        if (now - cachedAt cached <? CACHE_TTL_MS)%Z
        then Some (revision cached) else None
    | None => None
    end in
  match fresh with
  | Some r => ret r
  | None =>
      let revision :=
        match w_gitHead w !! workspaceRoot with
        | Some stdout => trim stdout
        | None => lit "unknown"
        end in
      do! modify (fun w =>
            set_gitCache
              (<[workspaceRoot := {| revision := revision; cachedAt := now |}]>
                 (w_gitCache w)) w) in
      ret revision
  end.

Definition clearGitCache : M World unit := modify (set_gitCache ∅).

End Git.

(* ===================================================================== *)
(** ** JavaScript values *)
(* ===================================================================== *)

Module Value.

(** Numbers.  A finite number is kept by its exact decimal value: an integer,
    or [m * 10^e] with [e < 0] and [m] no multiple of ten.  (A double would
    round the latter and tell [-0] from [0]; the hooks only ever build and
    compare integers.) *)
Inductive Num :=
| Int (z : Z)
| Dec (m e : Z)
| NaN
| Inf (negative : bool).

(** Values; an object is the list of its own properties in property order. *)
Inductive Value :=
| VUndefined
| VNull
| VBool (b : bool)
| VNumber (n : Num)
| VString (s : jsstring)
| VArray (items : list Value)
| VObject (props : list (jsstring * Value)).

Inductive JSType := TUndefined | TObject | TBoolean | TNumber | TString.

(** [typeof v]. *)
Definition typeof (v : Value) : JSType :=
  match v with
  | VUndefined => TUndefined
  | VNull => TObject
  | VBool _ => TBoolean
  | VNumber _ => TNumber
  | VString _ => TString
  | VArray _ => TObject
  | VObject _ => TObject
  end.

Definition isType (t : JSType) (v : Value) : bool :=
  match t, typeof v with
  | TUndefined, TUndefined | TObject, TObject | TBoolean, TBoolean
  | TNumber, TNumber | TString, TString => true
  | _, _ => false
  end.

(** Truthiness: what [!v] negates. *)
Definition truthy (v : Value) : bool :=
  match v with
  | VUndefined => false
  | VNull => false
  | VBool b => b
  | VNumber (Int z) => negb (z =? 0)%Z
  | VNumber NaN => false
  | VNumber _ => true
  | VString s => negb (str_eqb s [])
  | VArray _ => true
  | VObject _ => true
  end.

Fixpoint lookup (k : jsstring) (props : list (jsstring * Value)) : option Value :=
  match props with
  | [] => None
  | (k', v) :: rest => if str_eqb k k' then Some v else lookup k rest
  end.

(** [v.k] for a property name that is neither an index nor [length]; on a
    value without that property the read gives [undefined]. *)
Definition getProp (v : Value) (k : string) : Value :=
  match v with
  | VObject props =>
      match lookup (lit k) props with
      | Some x => x
      | None => VUndefined
      end
  | _ => VUndefined
  end.

(** [Array.isArray(v)] with the elements. *)
Definition asArray (v : Value) : option (list Value) :=
  match v with
  | VArray items => Some items
  | _ => None
  end.

(** [v === null]. *)
Definition isNull (v : Value) : bool :=
  match v with
  | VNull => true
  | _ => false
  end.

(** [v === s] for a string [s]. *)
Definition isString (v : Value) (s : string) : bool :=
  match v with
  | VString t => str_eqb t (lit s)
  | _ => false
  end.

End Value.

Import Value.

(* ===================================================================== *)
(** ** src/hooks/models/trace.ts *)
(* ===================================================================== *)

Module Trace.

Import MutationClassifier.

Definition MUTATION_CLASSES : list jsstring :=
  [ lit "AST_REFACTOR"; lit "INTENT_EVOLUTION"; lit "BUG_FIX"; lit "DOCUMENTATION" ].

Record TraceRange := {
  start_line : Z;
  end_line : Z;
  content_hash : jsstring
}.

Inductive EntityType := AI | HUMAN.

Record TraceContributor := {
  entity_type : EntityType;
  model_identifier : option jsstring
}.

Inductive RelatedType := specification | requirement | issue | task.

Record TraceRelated := {
  rel_type : RelatedType;
  rel_value : jsstring
}.

Record TraceConversation := {
  url : jsstring;
  contributor : TraceContributor;
  ranges : list TraceRange;
  related : list TraceRelated
}.

Record TraceFile := {
  relative_path : jsstring;
  conversations : list TraceConversation
}.

Record TraceEntry := {
  id : jsstring;
  timestamp : jsstring;
  vcs_revision_id : jsstring;
  files : list TraceFile;
  mutation_class : option MutationClass
}.

(** The object a typed value is at run time, properties in the order the
    interfaces list them (the order the post-hook's literals use); an omitted
    optional property is absent. *)
Definition optProp (k : string) (v : option Value) : list (jsstring * Value) :=
  match v with
  | Some x => [(lit k, x)]
  | None => []
  end.

Definition rangeToJS (r : TraceRange) : Value :=
  VObject [ (lit "start_line", VNumber (Int (start_line r)));
            (lit "end_line", VNumber (Int (end_line r)));
            (lit "content_hash", VString (content_hash r)) ].

Definition entityTypeName (t : EntityType) : jsstring :=
  match t with AI => lit "AI" | HUMAN => lit "HUMAN" end.

Definition contributorToJS (c : TraceContributor) : Value :=
  VObject ((lit "entity_type", VString (entityTypeName (entity_type c)))
           :: optProp "model_identifier" (option_map VString (model_identifier c))).

Definition relatedTypeName (t : RelatedType) : jsstring :=
  match t with
  | specification => lit "specification"
  | requirement => lit "requirement"
  | issue => lit "issue"
  | task => lit "task"
  end.

Definition relatedToJS (r : TraceRelated) : Value :=
  VObject [ (lit "type", VString (relatedTypeName (rel_type r)));
            (lit "value", VString (rel_value r)) ].

Definition conversationToJS (c : TraceConversation) : Value :=
  VObject [ (lit "url", VString (url c));
            (lit "contributor", contributorToJS (contributor c));
            (lit "ranges", VArray (map rangeToJS (ranges c)));
            (lit "related", VArray (map relatedToJS (related c))) ].

Definition fileToJS (f : TraceFile) : Value :=
  VObject [ (lit "relative_path", VString (relative_path f));
            (lit "conversations", VArray (map conversationToJS (conversations f))) ].

Definition toJS (e : TraceEntry) : Value :=
  VObject ([ (lit "id", VString (id e));
             (lit "timestamp", VString (timestamp e));
             (lit "vcs", VObject [ (lit "revision_id", VString (vcs_revision_id e)) ]);
             (lit "files", VArray (map fileToJS (files e))) ]
           ++ optProp "mutation_class"
                (option_map (fun c => VString (className c)) (mutation_class e))).

(** [!r || typeof r !== "object"]. *)
Definition notObject (v : Value) : bool :=
  negb (truthy v) || negb (isType TObject v).

Definition isValidTraceRange (r : Value) : bool :=
  if notObject r then false
  else
    isType TNumber (getProp r "start_line")
    && isType TNumber (getProp r "end_line")
    && isType TString (getProp r "content_hash").

Definition isValidTraceContributor (c : Value) : bool :=
  if notObject c then false
  else
    (isString (getProp c "entity_type") "AI"
     || isString (getProp c "entity_type") "HUMAN")
    && (isType TUndefined (getProp c "model_identifier")
        || isType TString (getProp c "model_identifier")).

Definition isValidTraceRelated (r : Value) : bool :=
  if notObject r then false
  else
    isType TString (getProp r "type")
    && isType TString (getProp r "value")
    && existsb (isString (getProp r "type"))
         ["specification"; "requirement"; "issue"; "task"]%string.

Definition isValidTraceConversation (c : Value) : bool :=
  if notObject c then false
  else
    match isType TString (getProp c "url"),
          asArray (getProp c "ranges"), asArray (getProp c "related") with
    | true, Some ranges, Some related =>
        if negb (isValidTraceContributor (getProp c "contributor")) then false
        else if negb (forallb isValidTraceRange ranges) then false
        else if negb (forallb isValidTraceRelated related) then false
        else true
    | _, _, _ => false
    end.

Definition isValidTraceFile (f : Value) : bool :=
  if notObject f then false
  else
    isType TString (getProp f "relative_path")
    && match asArray (getProp f "conversations") with
       | Some conversations => forallb isValidTraceConversation conversations
       | None => false
       end.

(** [MUTATION_CLASSES.includes(v)]. *)
Definition isMutationClass (v : Value) : bool :=
  match v with
  | VString s => arr_includes MUTATION_CLASSES s
  | _ => false
  end.

Definition isValidTraceEntry (entry : Value) : bool :=
  if notObject entry then false
  else if negb (isType TString (getProp entry "id"))
          || negb (isType TString (getProp entry "timestamp")) then false
  else if negb (truthy (getProp entry "vcs"))
          || negb (isType TString (getProp (getProp entry "vcs") "revision_id"))
       then false
  else
    match asArray (getProp entry "files") with
    | None => false
    | Some files =>
        if negb (forallb isValidTraceFile files) then false
        else if negb (isType TUndefined (getProp entry "mutation_class"))
                && negb (isMutationClass (getProp entry "mutation_class"))
             then false
        else true
    end.

End Trace.

(* ===================================================================== *)
(** ** [JSON.stringify] and [JSON.parse] *)
(* ===================================================================== *)

Module Json.

Import Sha256.

(** *** Decimal digits *)

Fixpoint digitsOfUint (u : Decimal.uint) : jsstring :=
  match u with
  | Decimal.Nil => []
  | Decimal.D0 u => 48 :: digitsOfUint u
  | Decimal.D1 u => 49 :: digitsOfUint u
  | Decimal.D2 u => 50 :: digitsOfUint u
  | Decimal.D3 u => 51 :: digitsOfUint u
  | Decimal.D4 u => 52 :: digitsOfUint u
  | Decimal.D5 u => 53 :: digitsOfUint u
  | Decimal.D6 u => 54 :: digitsOfUint u
  | Decimal.D7 u => 55 :: digitsOfUint u
  | Decimal.D8 u => 56 :: digitsOfUint u
  | Decimal.D9 u => 57 :: digitsOfUint u
  end.

Definition isDigit (c : N) : bool := (48 <=? c) && (c <=? 57).

(** The digits of a run of digit characters. *)
Fixpoint uintOfDigits (s : jsstring) : Decimal.uint :=
  match s with
  | [] => Decimal.Nil
  | c :: s' =>
      let u := uintOfDigits s' in
      match c with
      | 48 => Decimal.D0 u | 49 => Decimal.D1 u | 50 => Decimal.D2 u
      | 51 => Decimal.D3 u | 52 => Decimal.D4 u | 53 => Decimal.D5 u
      | 54 => Decimal.D6 u | 55 => Decimal.D7 u | 56 => Decimal.D8 u
      | _ => Decimal.D9 u
      end
  end.

Definition digitsOfN (n : N) : jsstring := digitsOfUint (N.to_uint n).
Definition nOfDigits (s : jsstring) : N := N.of_uint (uintOfDigits s).

Definition digitsOfZ (z : Z) : jsstring :=
  (if (z <? 0)%Z then [45] else []) ++ digitsOfN (Z.abs_N z).

(** *** Printing *)

(** A finite number prints as its digits; a value that is no integer is
    printed in exponent form (an engine would choose the shortest decimal of
    the double); [NaN] and the infinities print as [null]. *)
Definition serNum (n : Num) : jsstring :=
  match n with
  | Int z => digitsOfZ z
  | Dec m e => digitsOfZ m ++ [101] ++ digitsOfZ e
  | NaN => lit "null"
  | Inf _ => lit "null"
  end.

Definition unicodeEscape (c : N) : jsstring := [92; 117] ++ hex_of 4 c.

(** The characters of [QuoteJSONString]: the short escapes, [\uXXXX] for the
    other control characters and for a surrogate that is not part of a pair,
    every other character as it is. *)
Fixpoint quoteChars (s : jsstring) : jsstring :=
  match s with
  | [] => []
  | c :: s' =>
      if c =? 8 then [92; 98] ++ quoteChars s'
      else if c =? 9 then [92; 116] ++ quoteChars s'
      else if c =? 10 then [92; 110] ++ quoteChars s'
      else if c =? 12 then [92; 102] ++ quoteChars s'
      else if c =? 13 then [92; 114] ++ quoteChars s'
      else if c =? 34 then [92; 34] ++ quoteChars s'
      else if c =? 92 then [92; 92] ++ quoteChars s'
      else if c <? 32 then unicodeEscape c ++ quoteChars s'
      else if isHighSurrogate c then
        match s' with
        | d :: s'' =>
            if isLowSurrogate d then c :: d :: quoteChars s''
            else unicodeEscape c ++ quoteChars s'
        | [] => unicodeEscape c
        end
      else if isLowSurrogate c then unicodeEscape c ++ quoteChars s'
      else c :: quoteChars s'
  end.

Definition quote (s : jsstring) : jsstring := [34] ++ quoteChars s ++ [34].

(** [SerializeJSONProperty]: [None] is [undefined]. *)
Fixpoint ser (v : Value) : option jsstring :=
  match v with
  | VUndefined => None
  | VNull => Some (lit "null")
  | VBool true => Some (lit "true")
  | VBool false => Some (lit "false")
  | VNumber n => Some (serNum n)
  | VString s => Some (quote s)
  | VArray items =>
      Some ([91] ++
            join [44] (map (fun x => match ser x with
                                     | Some t => t
                                     | None => lit "null"
                                     end) items)
            ++ [93])
  | VObject props =>
      Some ([123] ++
            join [44] (flat_map (fun kv => match ser (snd kv) with
                                           | Some t => [quote (fst kv) ++ [58] ++ t]
                                           | None => []
                                           end) props)
            ++ [125])
  end.

(** [JSON.stringify(v)] where a string is expected: [undefined] concatenates
    as the text "undefined". *)
Definition stringify (v : Value) : jsstring :=
  match ser v with
  | Some t => t
  | None => lit "undefined"
  end.

(** *** Parsing *)

Definition isWs (c : N) : bool := (c =? 32) || (c =? 9) || (c =? 10) || (c =? 13).

Definition skipWs (s : jsstring) : jsstring := dropWhile isWs s.

Definition hexVal (c : N) : option N :=
  if isDigit c then Some (c - 48)
  else if (97 <=? c) && (c <=? 102) then Some (c - 87)
  else if (65 <=? c) && (c <=? 70) then Some (c - 55)
  else None.

Definition hex4 (a b c d : N) : option N :=
  match hexVal a, hexVal b, hexVal c, hexVal d with
  | Some x, Some y, Some z, Some w => Some (((x * 16 + y) * 16 + z) * 16 + w)
  | _, _, _, _ => None
  end.

(** The character a one-letter escape stands for. *)
Definition simpleEscape (c : N) : option N :=
  if c =? 34 then Some 34
  else if c =? 92 then Some 92
  else if c =? 47 then Some 47
  else if c =? 98 then Some 8
  else if c =? 102 then Some 12
  else if c =? 110 then Some 10
  else if c =? 114 then Some 13
  else if c =? 116 then Some 9
  else None.

(** The characters of a string literal after its opening quote, up to the
    closing one; [acc] holds the characters read so far, last first. *)
Fixpoint parseChars (acc s : jsstring) : option (jsstring * jsstring) :=
  match s with
  | [] => None
  | c :: rest =>
      if c =? 34 then Some (rev acc, rest)
      else if c =? 92 then
        match rest with
        | [] => None
        | e :: r =>
            if e =? 117 then
              match r with
              | h1 :: h2 :: h3 :: h4 :: r' =>
                  match hex4 h1 h2 h3 h4 with
                  | Some u => parseChars (u :: acc) r'
                  | None => None
                  end
              | _ => None
              end
            else
              match simpleEscape e with
              | Some u => parseChars (u :: acc) r
              | None => None
              end
        end
      else if c <? 32 then None
      else parseChars (c :: acc) rest
  end.

(** Strips the trailing zeros of a mantissa with a negative exponent. *)
Fixpoint stripZeros (fuel : nat) (m e : Z) : Num :=
  match fuel with
  | O => Int m
  | S f =>
      if (e >=? 0)%Z then Int (m * 10 ^ e)
      else if (m mod 10 =? 0)%Z then stripZeros f (m / 10) (e + 1)
      else Dec m e
  end.

(** The number with the given sign, digits and decimal exponent. *)
Definition mkNum (negative : bool) (digits : jsstring) (e : Z) : Num :=
  let m := Z.of_N (nOfDigits digits) in
  let m := if negative then (- m)%Z else m in
  if (m =? 0)%Z then Int 0
  else if (e >=? 0)%Z then Int (m * 10 ^ e)
  else stripZeros (S (Z.to_nat (- e))) m e.

(** The fraction of a number: its digits and the rest of the input. *)
Definition parseFrac (s : jsstring) : option (jsstring * jsstring) :=
  match s with
  | c :: r =>
      if c =? 46 then
        match Regex.takeWhile isDigit r with
        | [] => None
        | ds => Some (ds, dropWhile isDigit r)
        end
      else Some ([], s)
  | [] => Some ([], s)
  end.

(** The exponent of a number and the rest of the input. *)
Definition parseExp (s : jsstring) : option (Z * jsstring) :=
  match s with
  | c :: r =>
      if (c =? 101) || (c =? 69) then
        let expNegative := startsWith [45] r in
        let r1 := if startsWith [45] r || startsWith [43] r then skipn 1 r else r in
        match Regex.takeWhile isDigit r1 with
        | [] => None
        | ds =>
            let x := Z.of_N (nOfDigits ds) in
            Some (if expNegative then (- x)%Z else x, dropWhile isDigit r1)
        end
      else Some (0%Z, s)
  | [] => Some (0%Z, s)
  end.

(** [int frac? exp?] of the JSON grammar, after the sign; the integer part
    has no leading zero. *)
Definition parseUnsigned (negative : bool) (s1 : jsstring)
  : option (Value * jsstring) :=
  match Regex.takeWhile isDigit s1 with
  | [] => None
  | d :: more =>
      if (d =? 48) && negb (str_eqb more []) then None
      else
        match parseFrac (dropWhile isDigit s1) with
        | None => None
        | Some (fracDigits, s3) =>
            match parseExp s3 with
            | None => None
            | Some (x, s4) =>
                Some (VNumber (mkNum negative ((d :: more) ++ fracDigits)
                                 (x - Z.of_nat (length fracDigits))),
                      s4)
            end
        end
  end.

(** [-? int frac? exp?]. *)
Definition parseNumber (s : jsstring) : option (Value * jsstring) :=
  let negative := startsWith [45] s in
  parseUnsigned negative (if negative then skipn 1 s else s).

(** A repeated key keeps its first position and takes the last value. *)
Fixpoint setProp (k : jsstring) (v : Value) (props : list (jsstring * Value))
  : list (jsstring * Value) :=
  match props with
  | [] => [(k, v)]
  | (k', v') :: rest =>
      if str_eqb k k' then (k', v) :: rest else (k', v') :: setProp k v rest
  end.

Definition normProps (props : list (jsstring * Value)) : list (jsstring * Value) :=
  fold_left (fun acc kv => setProp (fst kv) (snd kv) acc) props [].

(** A value at the start of [s] (after white space) and the rest of the
    input.  Each nested value and each further element costs one unit of
    [fuel]; an input of [n] characters needs no more than [n]. *)
Fixpoint parseValue (fuel : nat) (s : jsstring) : option (Value * jsstring) :=
  match fuel with
  | O => None
  | S f =>
      match skipWs s with
      | [] => None
      | c :: r =>
          if c =? 123 then
            if startsWith [125] (skipWs r)
            then Some (VObject [], skipn 1 (skipWs r))
            else parseMembers f [] r
          else if c =? 91 then
            if startsWith [93] (skipWs r)
            then Some (VArray [], skipn 1 (skipWs r))
            else parseElements f [] r
          else if c =? 34 then
            match parseChars [] r with
            | Some (str, r') => Some (VString str, r')
            | None => None
            end
          else if startsWith (lit "true") (c :: r)
          then Some (VBool true, skipn 4 (c :: r))
          else if startsWith (lit "false") (c :: r)
          then Some (VBool false, skipn 5 (c :: r))
          else if startsWith (lit "null") (c :: r)
          then Some (VNull, skipn 4 (c :: r))
          else parseNumber (c :: r)
      end
  end
with parseElements (fuel : nat) (acc : list Value) (s : jsstring)
  : option (Value * jsstring) :=
  match fuel with
  | O => None
  | S f =>
      match parseValue f s with
      | Some (v, r) =>
          match skipWs r with
          | c :: r' =>
              if c =? 44 then parseElements f (v :: acc) r'
              else if c =? 93 then Some (VArray (rev (v :: acc)), r')
              else None
          | [] => None
          end
      | None => None
      end
  end
with parseMembers (fuel : nat) (acc : list (jsstring * Value)) (s : jsstring)
  : option (Value * jsstring) :=
  match fuel with
  | O => None
  | S f =>
      match skipWs s with
      | c :: r =>
          if c =? 34 then
            match parseChars [] r with
            | Some (k, r1) =>
                match skipWs r1 with
                | c1 :: r2 =>
                    if c1 =? 58 then
                      match parseValue f r2 with
                      | Some (v, r3) =>
                          match skipWs r3 with
                          | c3 :: r4 =>
                              if c3 =? 44 then parseMembers f ((k, v) :: acc) r4
                              else if c3 =? 125 then
                                Some (VObject (normProps (rev ((k, v) :: acc))), r4)
                              else None
                          | [] => None
                          end
                      | None => None
                      end
                    else None
                | [] => None
                end
            | None => None
            end
          else None
      | [] => None
      end
  end.

(** [JSON.parse(text)]; [None] stands for the [SyntaxError]. *)
Definition parse (text : jsstring) : option Value :=
  match parseValue (S (length text)) text with
  | Some (v, rest) =>
      match skipWs rest with
      | [] => Some v
      | _ => None
      end
  | None => None
  end.

End Json.

(* ===================================================================== *)
(** ** src/hooks/utils/traceStorage.ts *)
(* ===================================================================== *)

Module TraceStorage.

Import Fs State Trace.

Definition TRACE_FILE : jsstring := lit "agent_trace.jsonl".

(** [path.join(workspaceRoot, ".orchestration")]. *)
Definition orchestrationPath (workspaceRoot : jsstring) : Path :=
  pathJoin (pathOf workspaceRoot) (lit ".orchestration").

(** [path.join(workspaceRoot, ".orchestration", TRACE_FILE)]. *)
Definition getTracePath (workspaceRoot : jsstring) : Path :=
  pathJoin (orchestrationPath workspaceRoot) TRACE_FILE.

Definition ensureOrchestrationDir (workspaceRoot : jsstring) : M World unit :=
  let orchestrationPath := orchestrationPath workspaceRoot in
  tryCatch (fsAccess orchestrationPath)
           (fun _ => fsUpdate (fun fs => mkdir fs orchestrationPath)).

Definition invalidEntry : Exn := Error (lit "Invalid trace entry").

Definition appendToTraceLog (workspaceRoot : jsstring) (entry : Value)
  : M World unit :=
  if negb (isValidTraceEntry entry) then throw invalidEntry
  else
    do! ensureOrchestrationDir workspaceRoot in
    let tracePath := getTracePath workspaceRoot in
    let line := Json.stringify entry ++ [LF] in
    tryCatch (fsUpdate (fun fs => appendFile fs tracePath line))
             (fun error => throw error).

(** The lines of the log that parse and validate, in file order. *)
Definition entriesOf (content : jsstring) : list Value :=
  let lines :=
    List.filter (fun line => negb (str_eqb (trim line) [])) (split [LF] content) in
  List.filter
    (fun entry => negb (isNull entry) && isValidTraceEntry entry)
    (map (fun line => match Json.parse line with
                      | Some v => v
                      | None => VNull
                      end) lines).

Definition readTraceLog (workspaceRoot : jsstring) : M World (list Value) :=
  let tracePath := getTracePath workspaceRoot in
  tryCatch
    (let! content := fsRead tracePath in
     ret (entriesOf content))
    (fun error =>
       match error with
       | ErrnoException ENOENT => ret []
       | _ => throw error
       end).


End TraceStorage.

(* ===================================================================== *)
(** ** src/hooks/utils/intentMap.ts *)
(* ===================================================================== *)

Module IntentMap.

Import Fs State Regex.

Definition INTENT_MAP_FILE : jsstring := lit "intent_map.md".

Definition orchestrationPath (workspaceRoot : jsstring) : Path :=
  pathJoin (pathOf workspaceRoot) (lit ".orchestration").

Definition getMapPath (workspaceRoot : jsstring) : Path :=
  pathJoin (orchestrationPath workspaceRoot) INTENT_MAP_FILE.

(** [path.normalize(filePath).replace(/\\/g, "/")], without a leading slash. *)
Definition normalizePath (filePath : jsstring) : jsstring :=
  let normalized := replaceAll [92] [47] (NodePath.normalize filePath) in
  if startsWith [47] normalized then skipn 1 normalized else normalized.

Definition ensureOrchestrationDir (workspaceRoot : jsstring) : M World unit :=
  let orchestrationPath := orchestrationPath workspaceRoot in
  tryCatch (fsAccess orchestrationPath)
           (fun _ => fsUpdate (fun fs => mkdir fs orchestrationPath)).

(** A [Map<string, Set<string>>]: keys and members in insertion order. *)
Abbreviation IMap := (list (list N * list (list N))%type).

Definition setAdd (x : jsstring) (s : list jsstring) : list jsstring :=
  if arr_includes s x then s else s ++ [x].

Definition setDelete (x : jsstring) (s : list jsstring) : list jsstring :=
  List.filter (fun y => negb (str_eqb y x)) s.

Fixpoint mapGet {A} (k : jsstring) (m : list (jsstring * A)) : option A :=
  match m with
  | [] => None
  | (k', v) :: rest => if str_eqb k k' then Some v else mapGet k rest
  end.

Fixpoint mapSet {A} (k : jsstring) (v : A) (m : list (jsstring * A))
  : list (jsstring * A) :=
  match m with
  | [] => [(k, v)]
  | (k', v') :: rest =>
      if str_eqb k k' then (k', v) :: rest else (k', v') :: mapSet k v rest
  end.

Definition mapDelete {A} (k : jsstring) (m : list (jsstring * A))
  : list (jsstring * A) :=
  List.filter (fun kv => negb (str_eqb (fst kv) k)) m.

Definition noLineTerminator (s : jsstring) : bool :=
  forallb (fun c => negb (isLineTerminator c)) s.

Definition isIdChar (c : N) : bool := negb (isSpace c) && negb (c =? 58).

(** The id a header line starts with: ["##"], white space, the id, and what
    is left of the line after the id. *)
Definition headerId (line : jsstring) : option (jsstring * jsstring) :=
  match line with
  | 35 :: 35 :: r =>
      match takeWhile isSpace r, takeWhile isIdChar (dropWhile isSpace r) with
      | _ :: _, (_ :: _) as id =>
          Some (id, dropWhile isIdChar (dropWhile isSpace r))
      | _, _ => None
      end
  | _ => None
  end.

(** [line.match(re)] for the header pattern of [parseIntentMap]: two hashes,
    white space, an id (no white space, no colon) and then either the end of
    the line or a colon, white space and the rest of the line up to its end;
    the result is the first group, the id. *)
Definition headerMatch (line : jsstring) : option jsstring :=
  match headerId line with
  | Some (id, []) => Some id
  | Some (id, 58 :: r) =>
      if noLineTerminator (dropWhile isSpace r) then Some id else None
  | _ => None
  end.

(** [line.match(re)] for the pattern of [extractIntentNames]: as above with
    the colon required and at least one character after it; both groups.
    When only white space follows the colon, the white-space run gives its
    last character back to the second group. *)
Definition nameMatch (line : jsstring) : option (jsstring * jsstring) :=
  match headerId line with
  | Some (id, 58 :: r) =>
      match dropWhile isSpace r with
      | [] =>
          match rev r with
          | c :: _ => if isLineTerminator c then None else Some (id, [c])
          | [] => None
          end
      | tail => if noLineTerminator tail then Some (id, tail) else None
      end
  | _ => None
  end.

Definition parseStep (st : IMap * option jsstring) (line : jsstring)
  : IMap * option jsstring :=
  let '(intentMap, currentIntent) := st in
  match headerMatch line with
  | Some id =>
      (match mapGet id intentMap with
       | Some _ => intentMap
       | None => mapSet id [] intentMap
       end, Some id)
  | None =>
      match currentIntent with
      | Some cur =>
          if startsWith (lit "- ") (trim line) then
            let filePath := normalizePath (trim (skipn 2 (trim line))) in
            (match mapGet cur intentMap with
             | Some files => mapSet cur (setAdd filePath files) intentMap
             | None => intentMap
             end, currentIntent)
          else st
      | None => st
      end
  end.

Definition parseIntentMap (content : jsstring) : IMap :=
  fst (fold_left parseStep (split [LF] content) ([], None)).

(** The order of [Array.prototype.sort()] without a comparator: by code
    units. *)
Fixpoint str_leb (a b : jsstring) : bool :=
  match a, b with
  | [], _ => true
  | _ :: _, [] => false
  | x :: a', y :: b' => (x <? y) || ((x =? y) && str_leb a' b')
  end.

Fixpoint insertSorted (x : jsstring) (l : list jsstring) : list jsstring :=
  match l with
  | [] => [x]
  | y :: l' => if str_leb x y then x :: l else y :: insertSorted x l'
  end.

Definition sort (l : list jsstring) : list jsstring :=
  fold_right insertSorted [] l.

Definition sectionText (intentMap : IMap) (intentNames : list (jsstring * jsstring))
  (intentId : jsstring) : jsstring :=
  let files := match mapGet intentId intentMap with
               | Some fs => fs
               | None => []
               end in
  let intentName := match mapGet intentId intentNames with
                    | Some n => n
                    | None => intentId
                    end in
  lit "## " ++ intentId ++ lit ": " ++ intentName ++ [LF; LF] ++
  match files with
  | [] => lit "*No files mapped yet*" ++ [LF; LF]
  | _ => flat_map (fun file => lit "- " ++ file ++ [LF]) (sort files) ++ [LF]
  end.

Definition buildIntentMapContent (intentMap : IMap)
  (intentNames : list (jsstring * jsstring)) : jsstring :=
  lit "# Intent Map" ++ [LF; LF] ++
  lit "This file maps business intents to physical files in the codebase." ++ [LF; LF] ++
  flat_map (sectionText intentMap intentNames) (sort (map fst intentMap)).

Definition extractIntentNames (content : jsstring) : list (jsstring * jsstring) :=
  fold_left (fun names line =>
               match nameMatch line with
               | Some (id, name) => mapSet id (trim name) names
               | None => names
               end)
            (split [LF] content) [].

Definition updateIntentMap (workspaceRoot intentId filePath : jsstring)
  (intentName : option jsstring) : M World unit :=
  do! ensureOrchestrationDir workspaceRoot in
  let mapPath := getMapPath workspaceRoot in
  let normalizedPath := normalizePath filePath in
  let! loaded :=
    tryCatch
      (let! content := fsRead mapPath in
       ret (parseIntentMap content, extractIntentNames content))
      (fun err =>
         match err with
         | ErrnoException ENOENT => ret ([], [])
         | _ => throw err
         end) in
  let '(intentMap, intentNames) := loaded in
  let intentNames :=
    match intentName with
    | Some n => mapSet intentId n intentNames
    | None => intentNames
    end in
  let intentMap :=
    match mapGet intentId intentMap with
    | Some _ => intentMap
    | None => mapSet intentId [] intentMap
    end in
  let intentMap :=
    match mapGet intentId intentMap with
    | Some files => mapSet intentId (setAdd normalizedPath files) intentMap
    | None => intentMap
    end in
  let newContent := buildIntentMapContent intentMap intentNames in
  fsUpdate (fun fs => writeFile fs mapPath newContent).

Definition getIntentFiles (workspaceRoot intentId : jsstring)
  : M World (list jsstring) :=
  let mapPath := getMapPath workspaceRoot in
  tryCatch
    (let! content := fsRead mapPath in
     ret (match mapGet intentId (parseIntentMap content) with
          | Some files => files
          | None => []
          end))
    (fun _ => ret []).

End IntentMap.

(* ===================================================================== *)
(** ** src/hooks/postHooks/writeFile.ts *)
(* ===================================================================== *)

Module WriteFilePostHook.

Import MutationClassifier.

Record Args := {
  path : jsstring;
  content : jsstring;
  mutation_class : option jsstring
}.

(** An absent or [null] field is [None]. *)
Record Context := {
  intentId : option jsstring;
  workspaceRoot : option jsstring;
  sessionId : option jsstring;
  modelIdentifier : option jsstring;
  oldContent : option jsstring;
  agentId : option jsstring
}.

(** A string that is present and not empty: what [if (s)] accepts. *)
Definition present (s : option jsstring) : option jsstring :=
  match s with
  | Some ((_ :: _) as x) => Some x
  | _ => None
  end.

Definition isValidMutationClass (value : jsstring) : bool :=
  arr_includes Trace.MUTATION_CLASSES value.

(** The class the hook records. *)
Definition resolveClass (explicitClass oldContent : option jsstring)
  (content : jsstring) : MutationClass :=
  match present explicitClass with
  | Some e =>
      if isValidMutationClass e then
        match parseClass e with
        | Some c => c
        | None => AST_REFACTOR
        end
      else
        match oldContent with
        | Some old => getMutationClass explicitClass old content
        | None => AST_REFACTOR
        end
  | None =>
      match oldContent with
      | Some old => getMutationClass explicitClass old content
      | None => AST_REFACTOR
      end
  end.

(** [Math.max(1, content.split("\n").length)]. *)
Definition lineCount (content : jsstring) : Z :=
  Z.max 1 (Z.of_nat (length (split [LF] content))).

Definition writeFilePostHook (args : Args) (context : Context)
  : M State.World unit :=
  let filePath := path args in
  let content := content args in
  let explicitClass := mutation_class args in
  let workspaceRoot := match workspaceRoot context with
                       | Some r => r
                       | None => []
                       end in
  match present (intentId context) with
  | None => ret tt
  | Some intentId =>
      tryCatch
        (let! revisionId := Git.getCurrentRevision workspaceRoot in
         let mutationClass := resolveClass explicitClass (oldContent context) content in
         let lineCount := lineCount content in
         let contentHash :=
           lit "sha256:" ++
           Hashing.computeContentHash content (Some 1%Z) (Some lineCount) in
         let ranges :=
           [ {| Trace.start_line := 1; Trace.end_line := lineCount;
                Trace.content_hash := contentHash |} ] in
         let! url :=
           match sessionId context with
           | Some s => ret s
           | None =>
               let! now := State.dateNow in
               ret (lit "session://" ++ Json.digitsOfZ now)
           end in
         let conversation :=
           {| Trace.url := url;
              Trace.contributor :=
                {| Trace.entity_type := Trace.AI;
                   Trace.model_identifier :=
                     Some (match modelIdentifier context with
                           | Some m => m
                           | None => lit "unknown"
                           end) |};
              Trace.ranges := ranges;
              Trace.related :=
                [ {| Trace.rel_type := Trace.specification;
                     Trace.rel_value := intentId |} ] |} in
         let file :=
           {| Trace.relative_path := filePath;
              Trace.conversations := [conversation] |} in
         let! id := State.uuidv4 in
         let! timestamp := State.dateISO in
         let traceEntry :=
           {| Trace.id := id;
              Trace.timestamp := timestamp;
              Trace.vcs_revision_id := revisionId;
              Trace.files := [file];
              Trace.mutation_class := Some mutationClass |} in
         do! TraceStorage.appendToTraceLog workspaceRoot (Trace.toJS traceEntry) in
         do! IntentMap.updateIntentMap workspaceRoot intentId filePath None in
         match present (agentId context), present (Some workspaceRoot) with
         | Some agentId, Some _ =>
             tryCatch (FileState.releaseSnapshot filePath agentId workspaceRoot)
                      (fun _ => ret tt)
         | _, _ => ret tt
         end)
        (fun _ => ret tt)
  end.

End WriteFilePostHook.

(* ===================================================================== *)
(** ** src/hooks/preHooks/writeFile.ts *)
(* ===================================================================== *)

Module WriteFilePreHook.

(** [ActiveIntent] of models/orchestration, as far as the hook reads it. *)
Record ActiveIntent := {
  name : jsstring;
  owned_scope : option (list jsstring)
}.

Record Args := {
  path : jsstring;
  content : jsstring
}.

Record Context := {
  intentId : option jsstring;
  workspaceRoot : jsstring;
  ownedScope : option (list jsstring);
  agentId : option jsstring
}.

Record Result := {
  blocked : bool;
  error : option jsstring
}.

(** What the hook calls in other modules: the snapshot tracker's [verify],
    the intent catalog (utils/yamlLoader) and the path matcher
    (utils/pathMatcher).  Each reads the state [W] it is given; the first
    three may throw. *)
Record Deps (W : Type) := {
  verifySnapshot : jsstring -> jsstring -> jsstring -> W -> Outcome bool;
  getCachedIntent : jsstring -> W -> option ActiveIntent;
  findIntentById : jsstring -> jsstring -> W -> Outcome (option ActiveIntent);
  matchesAnyGlobPattern : jsstring -> list jsstring -> jsstring -> bool
}.
Arguments verifySnapshot {W}.
Arguments getCachedIntent {W}.
Arguments findIntentById {W}.
Arguments matchesAnyGlobPattern {W}.

Definition present := WriteFilePostHook.present.

Definition block (message : jsstring) : Result :=
  {| blocked := true; error := Some message |}.

Definition noIntentError : jsstring :=
  lit "You must cite a valid active Intent ID using select_active_intent before modifying files.".

Definition notFoundError (intentId : jsstring) : jsstring :=
  lit "Intent " ++ intentId ++ lit " not found in .orchestration/active_intents.yaml".

Definition noScopeError (intentId : jsstring) : jsstring :=
  lit "Intent " ++ intentId ++
  lit " has no owned_scope defined. Cannot enforce scope boundaries.".

Definition scopeViolationError (intentName intentId filePath : jsstring) : jsstring :=
  lit "Scope Violation: Intent '" ++ intentName ++ lit "' (" ++ intentId ++
  lit ") is not authorized to edit '" ++ filePath ++
  lit "'. Request scope expansion or select a different intent.".

(** Step 0, the [try] block: [Some r] is the early [return r]. *)
Definition optimisticCheck {W} (d : Deps W) (filePath : jsstring)
  (agentId : option jsstring) (workspaceRoot : jsstring) (w : W) : option Result :=
  match present agentId with
  | Some agentId =>
      match verifySnapshot d filePath agentId workspaceRoot w with
      | Returns isFileValid =>
          if negb isFileValid
          then Some (block (FileState.getStaleError filePath agentId))
          else None
      | Throws _ => None
      end
  | None => None
  end.

(** Step 2: the intent, from the cache when a cached scope was passed. *)
Definition loadIntent {W} (d : Deps W) (ownedScope : option (list jsstring))
  (workspaceRoot intentId : jsstring) (w : W) : Outcome (option ActiveIntent) :=
  match ownedScope with
  | Some _ =>
      match getCachedIntent d intentId w with
      | Some i => Returns (Some i)
      | None => findIntentById d workspaceRoot intentId w
      end
  | None => findIntentById d workspaceRoot intentId w
  end.

Definition writeFilePreHook {W} (d : Deps W) (args : Args) (context : Context)
  (w : W) : Outcome Result :=
  let filePath := path args in
  match optimisticCheck d filePath (agentId context) (workspaceRoot context) w with
  | Some r => Returns r
  | None =>
      match present (intentId context) with
      | None => Returns (block noIntentError)
      | Some intentId =>
          match loadIntent d (ownedScope context) (workspaceRoot context) intentId w with
          | Throws e => Throws e
          | Returns None => Returns (block (notFoundError intentId))
          | Returns (Some intent) =>
              let scope := match ownedScope context with
                           | Some s => Some s
                           | None => owned_scope intent
                           end in
              match scope with
              | None | Some [] => Returns (block (noScopeError intentId))
              | Some scope =>
                  let inScope :=
                    matchesAnyGlobPattern d filePath scope (workspaceRoot context) in
                  if negb inScope
                  then Returns (block (scopeViolationError (name intent) intentId filePath))
                  else Returns {| blocked := false; error := None |}
              end
          end
      end
  end.

(** The tracker of src/hooks/utils/fileState.ts as the hook's [verify]. *)
Definition trackerVerify (filePath agentId workspaceRoot : jsstring)
  (w : State.World) : Outcome bool :=
  fst (FileState.verifySnapshot filePath agentId workspaceRoot w).

End WriteFilePreHook.

(* ===================================================================== *)
(** ** src/hooks/preHooks/fileReadPreHook.ts *)
(* ===================================================================== *)

Module FileReadPreHook.

(** [args.path] and [args.paths] hold whatever the tool call carried. *)
Record Args := {
  path : Value;
  paths : Value
}.

Record Context := {
  agentId : option jsstring;
  workspaceRoot : option jsstring
}.

Record Result := {
  blocked : bool
}.

(** The methods of the session manager and of the snapshot tracker the hook
    calls, over whatever state [W] they keep; each may throw. *)
Record Deps (W : Type) := {
  updateActivity : jsstring -> M W unit;
  takeSnapshotFromDisk : jsstring -> jsstring -> jsstring -> M W jsstring;
  addFile : jsstring -> jsstring -> M W unit
}.
Arguments updateActivity {W}.
Arguments takeSnapshotFromDisk {W}.
Arguments addFile {W}.

Definition present := WriteFilePostHook.present.

(** The paths found in the arguments: [args.path] when it is a non-empty
    string, then the strings of [args.paths] when it is an array. *)
Definition filesToSnapshot (args : Args) : list jsstring :=
  match path args with
  | VString ((_ :: _) as p) => [p]
  | _ => []
  end ++
  match paths args with
  | VArray ps =>
      flat_map (fun p => match p with
                         | VString s => [s]
                         | _ => []
                         end) ps
  | _ => []
  end.

(** The loop over [filesToSnapshot]; a failure on one file is skipped. *)
Fixpoint snapshotAll {W} (d : Deps W) (agentId workspaceRoot : jsstring)
  (files : list jsstring) : M W unit :=
  match files with
  | [] => ret tt
  | filePath :: rest =>
      do! tryCatch
            (do! bind (takeSnapshotFromDisk d filePath agentId workspaceRoot)
                      (fun _ => ret tt) in
             addFile d agentId filePath)
            (fun _ => ret tt) in
      snapshotAll d agentId workspaceRoot rest
  end.

Definition fileReadPreHook {W} (d : Deps W) (args : Args) (context : Context)
  : M W Result :=
  match present (agentId context), present (workspaceRoot context) with
  | Some agentId, Some workspaceRoot =>
      let! early :=
        tryCatch
          (do! updateActivity d agentId in
           let files := filesToSnapshot args in
           match files with
           | [] => ret (Some {| blocked := false |})
           | _ =>
               do! snapshotAll d agentId workspaceRoot files in
               ret None
           end)
          (fun _ => ret None) in
      match early with
      | Some r => ret r
      | None => ret {| blocked := false |}
      end
  | _, _ => ret {| blocked := false |}
  end.

End FileReadPreHook.

(* ===================================================================== *)
(** ** src/hooks/utils/claudeManager.ts *)
(* ===================================================================== *)

Module ClaudeManager.

Import Fs State.

Definition CLAUDE_FILE : jsstring := lit "CLAUDE.md".
Definition ORCHESTRATION_DIR : jsstring := lit ".orchestration".

(** The members of the type [LessonCategory]. *)
Definition LessonCategory : list jsstring :=
  [ lit "ARCHITECTURE"; lit "TESTING"; lit "LINTER"; lit "BUILD";
    lit "USER_FEEDBACK"; lit "STYLE"; lit "PERFORMANCE"; lit "SECURITY";
    lit "GENERAL" ].

Definition orchestrationPath (workspaceRoot : jsstring) : Path :=
  pathJoin (pathOf workspaceRoot) ORCHESTRATION_DIR.

Definition getClaudePath (workspaceRoot : jsstring) : Path :=
  pathJoin (orchestrationPath workspaceRoot) CLAUDE_FILE.

Definition ensureOrchestrationDir (workspaceRoot : jsstring) : M World unit :=
  let orchestrationPath := orchestrationPath workspaceRoot in
  tryCatch (fsAccess orchestrationPath)
           (fun _ => fsUpdate (fun fs => mkdir fs orchestrationPath)).

Definition getInitialHeader : jsstring :=
  lit "# CLAUDE.md - Shared Project Knowledge" ++ [LF; LF] ++
  lit "This file contains lessons learned, patterns, and insights accumulated across all agent sessions."
  ++ [LF; LF] ++ lit "---" ++ [LF].

Definition readClaudeBrain (workspaceRoot : jsstring) : M World jsstring :=
  let claudePath := getClaudePath workspaceRoot in
  tryCatch (fsRead claudePath)
           (fun error =>
              match error with
              | ErrnoException ENOENT => ret []
              | _ => throw error
              end).

Definition appendToClaudeBrain (workspaceRoot content : jsstring) : M World unit :=
  do! ensureOrchestrationDir workspaceRoot in
  let claudePath := getClaudePath workspaceRoot in
  tryCatch (fsUpdate (fun fs => appendFile fs claudePath content))
           (fun error =>
              match error with
              | ErrnoException ENOENT =>
                  let initialContent := getInitialHeader ++ content in
                  fsUpdate (fun fs => writeFile fs claudePath initialContent)
              | _ => throw error
              end).

(** [s.replace(pat, rep)] for a string pattern: the first occurrence only. *)
Fixpoint replaceFirst (pat rep s : jsstring) : jsstring :=
  if startsWith pat s then rep ++ skipn (length pat) s
  else match s with
       | [] => []
       | c :: s' => c :: replaceFirst pat rep s'
       end.

Definition formatLesson (category lesson : jsstring) : M World jsstring :=
  let! iso := dateISO in
  let timestamp := replaceFirst (lit "T") (lit " ") (slice 0 16 iso) in
  ret (lit "## [" ++ category ++ lit "] " ++ timestamp ++ [LF] ++ lesson ++ [LF]
       ++ lit "---" ++ [LF]).

Definition recordLesson (workspaceRoot category lesson : jsstring) : M World bool :=
  let! existing := readClaudeBrain workspaceRoot in
  let duplicate :=
    match existing with
    | [] => false
    | _ =>
        let sections :=
          List.filter (fun s => negb (str_eqb (trim s) []))
                      (split (lit "---") existing) in
        let recentLessons := join [LF] (sliceFrom (-5) sections) in
        includes recentLessons (trim lesson)
    end in
  if duplicate then ret false
  else
    let! formatted := formatLesson category lesson in
    do! appendToClaudeBrain workspaceRoot formatted in
    ret true.

End ClaudeManager.

(* ===================================================================== *)
(** ** src/core/tools/RecordLessonTool.ts *)
(* ===================================================================== *)

Module RecordLessonTool.

(** What [formatResponse] builds, kept symbolic. *)
Inductive Response :=
| toolError (message : jsstring)
| toolResult (text : jsstring).

(** The task the tool runs for, with what the tool's callbacks have
    received: the results pushed and the errors handed to [handleError]. *)
Record Task := {
  cwd : jsstring;
  consecutiveMistakeCount : Z;
  toolErrors : list jsstring;
  didToolFailInCurrentTurn : bool;
  pushed : list Response;
  handled : list (jsstring * Exn);
  partialStateResets : nat
}.

Record Params := {
  category : option jsstring;
  lesson : option jsstring
}.

(** The tool's state: its task and the world the lessons file lives in. *)
Abbreviation St := (Task * State.World)%type.

Definition onTask (f : Task -> Task) : M St unit :=
  fun s => (Returns tt, (f (fst s), snd s)).

Definition onWorld {A} (m : M State.World A) : M St A :=
  fun s => let '(r, w') := m (snd s) in (r, (fst s, w')).

Definition pushToolResult (r : Response) : M St unit :=
  onTask (fun t =>
    {| cwd := cwd t; consecutiveMistakeCount := consecutiveMistakeCount t;
       toolErrors := toolErrors t;
       didToolFailInCurrentTurn := didToolFailInCurrentTurn t;
       pushed := pushed t ++ [r]; handled := handled t;
       partialStateResets := partialStateResets t |}).

Definition handleError (action : jsstring) (e : Exn) : M St unit :=
  onTask (fun t =>
    {| cwd := cwd t; consecutiveMistakeCount := consecutiveMistakeCount t;
       toolErrors := toolErrors t;
       didToolFailInCurrentTurn := didToolFailInCurrentTurn t;
       pushed := pushed t; handled := handled t ++ [(action, e)];
       partialStateResets := partialStateResets t |}).

(** [task.consecutiveMistakeCount++; task.recordToolError(name);
    task.didToolFailInCurrentTurn = true]. *)
Definition recordMistake (toolName : jsstring) : M St unit :=
  onTask (fun t =>
    {| cwd := cwd t; consecutiveMistakeCount := consecutiveMistakeCount t + 1;
       toolErrors := toolErrors t ++ [toolName];
       didToolFailInCurrentTurn := true;
       pushed := pushed t; handled := handled t;
       partialStateResets := partialStateResets t |}).

Definition resetPartialState : M St unit :=
  onTask (fun t =>
    {| cwd := cwd t; consecutiveMistakeCount := consecutiveMistakeCount t;
       toolErrors := toolErrors t;
       didToolFailInCurrentTurn := didToolFailInCurrentTurn t;
       pushed := pushed t; handled := handled t;
       partialStateResets := S (partialStateResets t) |}).

Definition validCategories : list jsstring :=
  [ lit "ARCHITECTURE"; lit "TESTING"; lit "LINTER"; lit "STYLE";
    lit "PERFORMANCE"; lit "SECURITY"; lit "GENERAL" ].

Definition present := WriteFilePostHook.present.

Definition execute (params : Params) : M St unit :=
  do! tryCatch
        (match present (category params), present (lesson params) with
         | Some category, Some lesson =>
             if negb (arr_includes validCategories category) then
               do! recordMistake (lit "record_lesson") in
               pushToolResult
                 (toolError (lit "Invalid category '" ++ category ++
                             lit "'. Must be one of: " ++
                             join (lit ", ") validCategories))
             else
               let! s := get in
               let! recorded :=
                 onWorld (ClaudeManager.recordLesson (cwd (fst s)) category lesson) in
               if (recorded : bool) then
                 pushToolResult
                   (toolResult (lit "Lesson recorded in CLAUDE.md under [" ++
                                category ++ lit "]"))
               else
                 pushToolResult (toolResult (lit "Lesson skipped (duplicate detected)"))
         | _, _ =>
             do! recordMistake (lit "record_lesson") in
             pushToolResult (toolError (lit "Missing category or lesson parameter"))
         end)
        (fun error => handleError (lit "record lesson") error) in
  resetPartialState.

End RecordLessonTool.

(* ===================================================================== *)
(** ** src/hooks/utils/agentSession.ts *)
(* ===================================================================== *)

Module AgentSession.

Import State.

(** [AgentSession]; [files] is the [Set] in insertion order. *)
Record Session := {
  agentId : jsstring;
  createdAt : Z;
  lastActivity : Z;
  intentId : option jsstring;
  files : list jsstring
}.

(** The [sessions] map in insertion order, beside the world its clock and
    its identifiers come from. *)
Abbreviation Sessions := (list (jsstring * Session)).
Abbreviation St := (Sessions * World)%type.

Definition SESSION_TIMEOUT : Z := 30 * 60 * 1000.

Definition onWorld {A} (m : M World A) : M St A :=
  fun s => let '(r, w') := m (snd s) in (r, (fst s, w')).

Definition onSessions (f : Sessions -> Sessions) : M St unit :=
  fun s => (Returns tt, (f (fst s), snd s)).

Definition getSessions : M St Sessions := fun s => (Returns (fst s), s).

(** [`agent-${uuidv4().slice(0, 8)}`]. *)
Definition createAgentId : M St jsstring :=
  let! u := onWorld uuidv4 in
  ret (lit "agent-" ++ slice 0 8 u).

Definition registerAgent (agentId' : jsstring) (intentId' : option jsstring)
  : M St unit :=
  let! now := onWorld dateNow in
  onSessions (IntentMap.mapSet agentId'
                {| agentId := agentId'; createdAt := now; lastActivity := now;
                   intentId := intentId'; files := [] |}).

Definition unregisterAgent (agentId' : jsstring) : M St unit :=
  onSessions (IntentMap.mapDelete agentId').

Definition updateActivity (agentId' : jsstring) : M St unit :=
  let! sessions := getSessions in
  match IntentMap.mapGet agentId' sessions with
  | Some session =>
      let! now := onWorld dateNow in
      onSessions (IntentMap.mapSet agentId'
                    {| agentId := agentId session; createdAt := createdAt session;
                       lastActivity := now; intentId := intentId session;
                       files := files session |})
  | None => ret tt
  end.

Definition addFile (agentId' filePath : jsstring) : M St unit :=
  let! sessions := getSessions in
  match IntentMap.mapGet agentId' sessions with
  | Some session =>
      do! onSessions (IntentMap.mapSet agentId'
                        {| agentId := agentId session; createdAt := createdAt session;
                           lastActivity := lastActivity session;
                           intentId := intentId session;
                           files := IntentMap.setAdd filePath (files session) |}) in
      updateActivity agentId'
  | None => ret tt
  end.

Definition removeFile (agentId' filePath : jsstring) : M St unit :=
  let! sessions := getSessions in
  match IntentMap.mapGet agentId' sessions with
  | Some session =>
      onSessions (IntentMap.mapSet agentId'
                    {| agentId := agentId session; createdAt := createdAt session;
                       lastActivity := lastActivity session;
                       intentId := intentId session;
                       files := IntentMap.setDelete filePath (files session) |})
  | None => ret tt
  end.

(** [Array.from(this.sessions.keys())]. *)
Definition getActiveAgents : M St (list jsstring) :=
  let! sessions := getSessions in ret (map fst sessions).

Definition isAgentActive (agentId' : jsstring) : M St bool :=
  let! sessions := getSessions in
  ret (match IntentMap.mapGet agentId' sessions with
       | Some _ => true
       | None => false
       end).

(** [this.sessions.get(agentId) ?? null]; [None] is [null]. *)
Definition getAgentSession (agentId' : jsstring) : M St (option Session) :=
  let! sessions := getSessions in ret (IntentMap.mapGet agentId' sessions).

Definition cleanupStaleSessions (maxAgeMs : Z) : M St unit :=
  let! now := onWorld dateNow in
  onSessions (List.filter (fun kv => negb (now - lastActivity (snd kv) >? maxAgeMs)%Z)).

(** [{ total, active }]. *)
Definition getStats : M St (Z * Z) :=
  let! sessions := getSessions in
  ret (Z.of_nat (length sessions), Z.of_nat (length sessions)).

Definition clear : M St unit := onSessions (fun _ => []).

End AgentSession.

(* ===================================================================== *)
(** ** Further functions of the modules above *)
(* ===================================================================== *)

(** [computeFileHash] of src/hooks/utils/hashing.ts. *)
Module FileHash.

Import Fs State.

Definition computeFileHash (filePath : jsstring) : M World jsstring :=
  let! content := fsRead (pathOf filePath) in
  ret (Hashing.sha256 content).

End FileHash.

(** [removeFromIntentMap] of src/hooks/utils/intentMap.ts. *)
Module IntentMapRemoval.

Import Fs State IntentMap.


End IntentMapRemoval.

(** [escapeXml] of src/core/prompts/sections/skills.ts. *)
Module Skills.

(** The five replacements, the ampersand first. *)
Definition escapeXml (value : jsstring) : jsstring :=
  replaceAll [39] (lit "&apos;")
    (replaceAll [34] (lit "&quot;")
       (replaceAll [62] (lit "&gt;")
          (replaceAll [60] (lit "&lt;")
             (replaceAll [38] (lit "&amp;") value)))).

End Skills.

(** The read pre-hook on the session manager and the snapshot tracker it
    imports. *)
Module ReadHookWiring.

Import AgentSession.

Definition liveDeps : FileReadPreHook.Deps St :=
  {| FileReadPreHook.updateActivity := updateActivity;
     FileReadPreHook.takeSnapshotFromDisk :=
       fun filePath agentId workspaceRoot =>
         onWorld (FileState.takeSnapshotFromDisk filePath agentId workspaceRoot);
     FileReadPreHook.addFile := addFile |}.

End ReadHookWiring.

(* ===================================================================== *)
(** * Properties *)
(* ===================================================================== *)

(** ** Strings *)

Module StringFacts.

Lemma startsWith_single (c d : N) (s : jsstring) :
  startsWith [c] (d :: s) = (c =? d).
Proof. simpl. now rewrite andb_true_r. Qed.

Lemma split_go_nonempty sep skip cur s : split_go sep skip cur s <> [].
Proof.
  revert skip cur. induction s as [|c s IH]; intros skip cur; simpl.
  - discriminate.
  - destruct skip; [destruct (startsWith sep (c :: s))|]; try discriminate; apply IH.
Qed.

Lemma join_cons sep x rest :
  rest <> [] -> join sep (x :: rest) = x ++ sep ++ join sep rest.
Proof. destruct rest; [congruence | reflexivity]. Qed.

(** Splitting at a character and joining with it gives the string back. *)
Lemma join_split_go (c : N) (s cur : jsstring) :
  join [c] (split_go [c] 0 cur s) = rev cur ++ s.
Proof.
  revert cur. induction s as [|d s IH]; intros cur.
  - simpl. now rewrite app_nil_r.
  - cbn [split_go]. rewrite startsWith_single.
    destruct (N.eqb_spec c d) as [->|Hne].
    + cbn [length Nat.sub]. rewrite join_cons by apply split_go_nonempty.
      rewrite IH. reflexivity.
    + rewrite IH. cbn [rev]. now rewrite <- app_assoc.
Qed.

Lemma join_split (c : N) (s : jsstring) : join [c] (split [c] s) = s.
Proof. unfold split. apply (join_split_go c s []). Qed.

Lemma split_nonempty (c : N) (s : jsstring) : split [c] s <> [].
Proof. unfold split. apply split_go_nonempty. Qed.

(** Splitting a concatenation at a separator character. *)
Lemma split_go_app (c : N) (a b cur : jsstring) :
  split_go [c] 0 cur (a ++ c :: b) = split_go [c] 0 cur a ++ split_go [c] 0 [] b.
Proof.
  revert cur. induction a as [|d a IH]; intros cur.
  - cbn [app split_go]. rewrite startsWith_single, N.eqb_refl. reflexivity.
  - cbn [app split_go]. rewrite !startsWith_single.
    destruct (c =? d); cbn [length Nat.sub]; rewrite IH; reflexivity.
Qed.

Lemma split_app (c : N) (a b : jsstring) :
  split [c] (a ++ c :: b) = split [c] a ++ split [c] b.
Proof. unfold split. apply split_go_app. Qed.

(** A string without the separator is one piece. *)
Lemma split_go_none (c : N) (s cur : jsstring) :
  Forall (fun d => d <> c) s -> split_go [c] 0 cur s = [rev cur ++ s].
Proof.
  revert cur. induction s as [|d s IH]; intros cur H.
  - simpl. now rewrite app_nil_r.
  - inversion H as [|? ? Hd Hs]; subst. cbn [split_go]. rewrite startsWith_single.
    destruct (N.eqb_spec c d) as [->|_]; [congruence|].
    rewrite IH by assumption. cbn [rev]. now rewrite <- app_assoc.
Qed.

Lemma split_none (c : N) (s : jsstring) :
  Forall (fun d => d <> c) s -> split [c] s = [s].
Proof. intros H. unfold split. now rewrite split_go_none. Qed.

(** Replacing every [a] by [b] leaves no [a], when [b] is another character. *)
Lemma replaceAll_single_free (a b : N) (s : jsstring) :
  a <> b -> Forall (fun d => d <> a) (replaceAll [a] [b] s).
Proof.
  intros Hab. unfold replaceAll. induction s as [|d s IH]; cbn [replaceAll_go].
  - constructor.
  - rewrite startsWith_single. destruct (N.eqb_spec a d) as [->|Hne].
    + cbn [length Nat.sub app]. constructor; [congruence | exact IH].
    + constructor; [congruence | exact IH].
Qed.

(** A pattern whose first character does not occur is never found. *)
Lemma replaceAll_absent (a : N) (p rep s : jsstring) :
  Forall (fun d => d <> a) s -> replaceAll (a :: p) rep s = s.
Proof.
  unfold replaceAll. induction s as [|d s IH]; intros H; cbn [replaceAll_go].
  - reflexivity.
  - inversion H as [|? ? Hd Hs]; subst. cbn [startsWith].
    destruct (N.eqb_spec a d) as [->|_]; [congruence|].
    cbn [andb]. now rewrite IH.
Qed.

Lemma slice_all {A} (xs : list A) : slice 0 (Z.of_nat (length xs)) xs = xs.
Proof.
  unfold slice, relIndex.
  replace (0 <? 0)%Z with false by reflexivity.
  destruct (Z.ltb_spec (Z.of_nat (length xs)) 0); [lia|].
  replace (Z.to_nat (Z.min 0 (Z.of_nat (length xs)))) with 0%nat by lia.
  replace (Z.to_nat (Z.min (Z.of_nat (length xs)) (Z.of_nat (length xs))
                     - Z.min 0 (Z.of_nat (length xs)))) with (length xs) by lia.
  cbn [skipn]. apply firstn_all.
Qed.

End StringFacts.

(** ** The constants of SHA-256 *)

Module Sha256Facts.

Import Sha256.

Definition isPrime (n : N) : bool :=
  (1 <? n) &&
  forallb (fun d => negb (n mod d =? 0))
          (map N.of_nat (seq 2 (N.to_nat n - 2))).

Definition primes (count : nat) : list N :=
  firstn count (List.filter isPrime (map N.of_nat (seq 0 320))).

(** [c] holds the first 32 bits of the fractional part of the [k]-th root of
    [p]: for some whole part [a], the number [a + c / 2^32] is the root
    rounded down to 32 fractional bits. *)
Definition isRootFraction (k p c : N) : bool :=
  (c <? 2 ^ 32) &&
  existsb (fun a =>
             let x := a * 2 ^ 32 + c in
             (x ^ k <=? p * 2 ^ (32 * k)) && (p * 2 ^ (32 * k) <? (x + 1) ^ k))
          (map N.of_nat (seq 0 32)).

Lemma K_cube_roots :
  length K = 64%nat
  /\ forallb (fun pc => isRootFraction 3 (fst pc) (snd pc)) (combine (primes 64) K) = true.
Proof. split; vm_compute; reflexivity. Qed.

Lemma H0_square_roots :
  length H0 = 8%nat
  /\ forallb (fun pc => isRootFraction 2 (fst pc) (snd pc)) (combine (primes 8) H0) = true.
Proof. split; vm_compute; reflexivity. Qed.

End Sha256Facts.

(** ** The hasher *)

Module HashingFacts.

Import Hashing StringFacts.

Lemma normalize_free (x : jsstring) :
  Forall (fun d => d <> CR) (normalizeLineEndings x).
Proof. unfold normalizeLineEndings. apply replaceAll_single_free. discriminate. Qed.

Lemma normalize_fixed (x : jsstring) :
  Forall (fun d => d <> CR) x -> normalizeLineEndings x = x.
Proof.
  intros H. unfold normalizeLineEndings.
  rewrite (replaceAll_absent CR [LF] [LF] x H). now apply replaceAll_absent.
Qed.

(** Normalising twice is normalising once. *)
Lemma normalize_idempotent (x : jsstring) :
  normalizeLineEndings (normalizeLineEndings x) = normalizeLineEndings x.
Proof. apply normalize_fixed, normalize_free. Qed.

(** The digest sees a string only through its normal form. *)
Lemma sha256_normalize (x : jsstring) : sha256 (normalizeLineEndings x) = sha256 x.
Proof. unfold sha256. now rewrite normalize_idempotent. Qed.

(** A range that starts at line 1 and ends at or after the last line is the
    whole content. *)
Lemma computeContentHash_from_1 (x : jsstring) (endLine : Z) :
  (line_count x <= endLine)%Z ->
  computeContentHash x (Some 1%Z) (Some endLine) = sha256 x.
Proof.
  intros Hend. unfold computeContentHash, line_count in *.
  set (lines := split [LF] (normalizeLineEndings x)) in *.
  assert (Hlen : (1 <= Z.of_nat (length lines))%Z).
  { pose proof (split_nonempty LF (normalizeLineEndings x)) as Hne.
    fold lines in Hne. destruct lines; [congruence | cbn [length]; lia]. }
  rewrite Z.min_l by exact Hend.
  replace (Z.max 0 (1 - 1)) with 0%Z by reflexivity.
  destruct (Z.geb_spec 0 (Z.of_nat (length lines))); [lia|].
  rewrite slice_all. unfold lines. rewrite join_split. apply sha256_normalize.
Qed.

(** C6: for every string [x], the digest of the range from line 1 to
    [line_count x] is the digest of [x], where [line_count x] is the number of
    newline-separated lines of [x] after line-ending normalisation. *)
Theorem digest_range_full (x : jsstring) :
  computeContentHash x (Some 1%Z) (Some (line_count x)) = sha256 x.
Proof. apply computeContentHash_from_1. lia. Qed.

(** [digest("a\r\nb") = digest("a\nb") = digest("a\rb")]. *)
Example sha256_line_endings :
  sha256 (lit "a" ++ [CR; LF] ++ lit "b") = sha256 (lit "a" ++ [LF] ++ lit "b")
  /\ sha256 (lit "a" ++ [CR] ++ lit "b") = sha256 (lit "a" ++ [LF] ++ lit "b").
Proof. split; reflexivity. Qed.

(** The digest of the empty string is the known constant. *)
Example sha256_empty :
  sha256 [] = lit "e3b0c44298fc1c149afbf4c8996fb92427ae41e4649b934ca495991b7852b855".
Proof. vm_compute. reflexivity. Qed.

Example sha256_abc :
  sha256 (lit "abc") = lit "ba7816bf8f01cfea414140de5dae2223b00361a396177a9cb410ff61f20015ad".
Proof. vm_compute. reflexivity. Qed.

(** An empty or inverted range hashes the empty string. *)
Example computeContentHash_empty_range :
  let content := lit "line1" ++ [LF] ++ lit "line2" ++ [LF] ++ lit "line3" in
  computeContentHash content (Some 10%Z) (Some 20%Z) = sha256 []
  /\ computeContentHash content (Some 2%Z) (Some 1%Z) = sha256 []
  /\ computeContentHash content (Some 2%Z) (Some 3%Z)
     = sha256 (lit "line2" ++ [LF] ++ lit "line3").
Proof. vm_compute. repeat split. Qed.

End HashingFacts.

(** ** The mutation classifier *)

Module ClassifierFacts.

Import MutationClassifier.

(** The ratio of the specification:
    [|len(new) - len(old)| / max(len(old), 1)]. *)
Definition sizeRatio (oldContent newContent : jsstring) : Q :=
  Z.abs (len newContent - len oldContent) # Z.to_pos (Z.max (len oldContent) 1).

(** [oldContent.length || 1] is [max(len(old), 1)]. *)
Lemma sizeChange_is_ratio (oldContent newContent : jsstring) :
  sizeChange oldContent newContent = sizeRatio oldContent newContent.
Proof.
  unfold sizeChange, sizeRatio, len.
  destruct (Z.eqb_spec (Z.of_nat (length oldContent)) 0) as [E|E].
  - rewrite E. reflexivity.
  - rewrite Z.max_l by lia. reflexivity.
Qed.

Lemma str_eqb_false (s t : jsstring) : s <> t -> str_eqb s t = false.
Proof. intros H. unfold str_eqb. now apply bool_decide_eq_false. Qed.

Lemma str_eqb_true (s t : jsstring) : str_eqb s t = true <-> s = t.
Proof. unfold str_eqb. apply bool_decide_eq_true. Qed.

(** Past the first three rules the size rule alone decides. *)
Lemma classify_past_rules (oldContent newContent : jsstring) :
  oldContent <> newContent ->
  removeComments oldContent <> removeComments newContent ->
  isBugFix (diffText oldContent newContent) = false ->
  classifyMutation oldContent newContent =
  if negb (Qle_bool (sizeRatio oldContent newContent) (2 # 10))
  then INTENT_EVOLUTION else AST_REFACTOR.
Proof.
  intros Hne Hcode Hbug. unfold classifyMutation, isDocumentationChange.
  rewrite (str_eqb_false _ _ Hne), (str_eqb_false _ _ Hcode), Hbug.
  cbn [andb]. now rewrite sizeChange_is_ratio.
Qed.

Lemma above_threshold (r : Q) :
  negb (Qle_bool r (2 # 10)) = true <-> (2 # 10 < r)%Q.
Proof.
  rewrite negb_true_iff. split.
  - intros H. apply Qnot_le_lt. intros Hle.
    apply Qle_bool_iff in Hle. congruence.
  - intros H. destruct (Qle_bool r (2 # 10)) eqn:E; [|reflexivity].
    apply Qle_bool_iff in E. exfalso. exact (Qlt_not_le _ _ H E).
Qed.

(** C8: for [old <> new] whose comment-stripped texts differ and whose diff
    text matches no bug-fix pattern, the classifier answers INTENT_EVOLUTION
    exactly when [|len(new) - len(old)| / max(len(old), 1) > 0.20] and
    AST_REFACTOR otherwise. *)
Theorem classify_by_size (oldContent newContent : jsstring) :
  oldContent <> newContent ->
  removeComments oldContent <> removeComments newContent ->
  isBugFix (diffText oldContent newContent) = false ->
  (classifyMutation oldContent newContent = INTENT_EVOLUTION
   <-> (2 # 10 < sizeRatio oldContent newContent)%Q)
  /\ (classifyMutation oldContent newContent = AST_REFACTOR
      <-> ~ (2 # 10 < sizeRatio oldContent newContent)%Q).
Proof.
  intros Hne Hcode Hbug.
  rewrite (classify_past_rules _ _ Hne Hcode Hbug).
  rewrite <- above_threshold.
  destruct (negb (Qle_bool (sizeRatio oldContent newContent) (2 # 10)));
    split; split; intros H; try reflexivity; try discriminate;
    try (exfalso; apply H; reflexivity).
Qed.

(** The theorem at a one-character growth of a four-character text (ratio
    1/4) and of a five-character text (ratio 1/5, not above the threshold). *)
Lemma classify_by_size_witness :
  classifyMutation (lit "abcd") (lit "abcdz") = INTENT_EVOLUTION
  /\ classifyMutation (lit "abcde") (lit "abcdez") = AST_REFACTOR.
Proof.
  split.
  - apply (proj1 (classify_by_size (lit "abcd") (lit "abcdz")
                    ltac:(discriminate) ltac:(discriminate) eq_refl)).
    reflexivity.
  - apply (proj2 (classify_by_size (lit "abcde") (lit "abcdez")
                    ltac:(discriminate) ltac:(discriminate) eq_refl)).
    intros H. discriminate H.
Defined.

(** [classify(x, x) = DOCUMENTATION]. *)
Lemma classify_same (x : jsstring) : classifyMutation x x = DOCUMENTATION.
Proof.
  unfold classifyMutation.
  now rewrite (proj2 (str_eqb_true x x) eq_refl).
Qed.

(** Scenario S6: a documentation block added in front of the code. *)
Example classify_doc_only :
  classifyMutation (lit "function foo(){return 1;}")
                   (lit "/**doc*/" ++ [LF] ++ lit "function foo(){return 1;}")
  = DOCUMENTATION.
Proof. vm_compute. reflexivity. Qed.

(** Scenario S1: one digit changes. *)
Example classify_S1 :
  classifyMutation (lit "x = 1" ++ [LF]) (lit "x = 2" ++ [LF]) = AST_REFACTOR.
Proof. vm_compute. reflexivity. Qed.

Example classify_bug_fix :
  classifyMutation (lit "const x = 1;") (lit "const y = 1;//Asserts") = BUG_FIX.
Proof. vm_compute. reflexivity. Qed.

End ClassifierFacts.

(** ** JSON: what is printed parses back *)

Module JsonFacts.

Import Json.

(** *** Digits *)

Lemma uintOfDigits_digitsOfUint (u : Decimal.uint) :
  uintOfDigits (digitsOfUint u) = u.
Proof. induction u; cbn; congruence. Qed.

Lemma digitsOfUint_digits (u : Decimal.uint) :
  Forall (fun c => isDigit c = true) (digitsOfUint u).
Proof. induction u; cbn; constructor; auto. Qed.

Lemma nOfDigits_digitsOfN (n : N) : nOfDigits (digitsOfN n) = n.
Proof.
  unfold nOfDigits, digitsOfN. rewrite uintOfDigits_digitsOfUint.
  apply DecimalN.Unsigned.of_to.
Qed.

(** The decimal form of a number has no leading zero, except [0] itself. *)
Lemma to_uint_no_leading_zero (n : N) (u : Decimal.uint) :
  N.to_uint n = Decimal.D0 u -> u = Decimal.Nil.
Proof.
  intros H.
  assert (Hn : Decimal.unorm (N.to_uint n) = N.to_uint n).
  { rewrite <- DecimalN.Unsigned.to_of. now rewrite DecimalN.Unsigned.of_to. }
  unfold Decimal.unorm in Hn. rewrite H in Hn.
  destruct (Decimal.nzhead (Decimal.D0 u)) eqn:E; try discriminate.
  - now inversion Hn.
  - exfalso. exact (DecimalFacts.nzhead_nonzero _ _ E).
Qed.

Lemma digitsOfN_shape (n : N) :
  exists d more, digitsOfN n = d :: more
                 /\ ((d =? 48) && negb (str_eqb more []) = false).
Proof.
  unfold digitsOfN. destruct (N.to_uint n) eqn:E.
  - exfalso. pose proof (DecimalFacts.unorm_nonnil (N.to_uint n)) as Hnn.
    rewrite <- DecimalN.Unsigned.to_of, DecimalN.Unsigned.of_to in Hnn. congruence.
  - apply to_uint_no_leading_zero in E. subst. cbn. eauto.
  - cbn; eauto.
  - cbn; eauto.
  - cbn; eauto.
  - cbn; eauto.
  - cbn; eauto.
  - cbn; eauto.
  - cbn; eauto.
  - cbn; eauto.
  - cbn; eauto.
Qed.

(** Where a run of digits ends. *)
Definition noDigitAhead (rest : jsstring) : Prop :=
  match rest with
  | [] => True
  | c :: _ => isDigit c = false
  end.

Lemma takeWhile_digits (ds rest : jsstring) :
  Forall (fun c => isDigit c = true) ds -> noDigitAhead rest ->
  Regex.takeWhile isDigit (ds ++ rest) = ds /\ dropWhile isDigit (ds ++ rest) = rest.
Proof.
  intros Hds Hrest. induction Hds as [|c ds Hc _ IH]; cbn [app Regex.takeWhile dropWhile].
  - destruct rest as [|c r]; [auto|]. cbn [noDigitAhead] in Hrest. cbn [Regex.takeWhile dropWhile]. now rewrite Hrest.
  - rewrite Hc. destruct IH as [-> ->]. auto.
Qed.

(** Where a number ends: not before a digit, a point or an exponent. *)
Definition numberEnds (rest : jsstring) : Prop :=
  match rest with
  | [] => True
  | c :: _ => isDigit c = false /\ c <> 46 /\ c <> 101 /\ c <> 69
  end.

Lemma numberEnds_noDigit (rest : jsstring) : numberEnds rest -> noDigitAhead rest.
Proof. destruct rest; cbn; tauto. Qed.

Lemma parseFrac_none (rest : jsstring) :
  numberEnds rest -> parseFrac rest = Some ([], rest).
Proof.
  destruct rest as [|c r]; cbn; [reflexivity|].
  intros (_ & H & _). destruct (N.eqb_spec c 46); [congruence | reflexivity].
Qed.

Lemma parseExp_none (rest : jsstring) :
  numberEnds rest -> parseExp rest = Some (0%Z, rest).
Proof.
  destruct rest as [|c r]; cbn; [reflexivity|].
  intros (_ & _ & H1 & H2).
  destruct (N.eqb_spec c 101); [congruence|].
  destruct (N.eqb_spec c 69); [congruence | reflexivity].
Qed.

Lemma mkNum_int (negative : bool) (n : N) :
  mkNum negative (digitsOfN n) 0 =
  Int (if negative then - Z.of_N n else Z.of_N n)%Z.
Proof.
  unfold mkNum. rewrite nOfDigits_digitsOfN.
  set (m := if negative then (- Z.of_N n)%Z else Z.of_N n).
  destruct (Z.eqb_spec m 0) as [->|_]; [reflexivity|].
  cbn [Z.geb Z.compare]. now rewrite Z.pow_0_r, Z.mul_1_r.
Qed.

Lemma parseNumber_unsigned (negative : bool) (n : N) (rest : jsstring) :
  numberEnds rest ->
  parseUnsigned negative (digitsOfN n ++ rest)
  = Some (VNumber (Int (if negative then - Z.of_N n else Z.of_N n)%Z), rest).
Proof.
  intros Hrest. unfold parseUnsigned.
  destruct (takeWhile_digits (digitsOfN n) rest) as [Ht Hd].
  { apply digitsOfUint_digits. }
  { now apply numberEnds_noDigit. }
  rewrite Ht, Hd.
  destruct (digitsOfN_shape n) as (d & more & E & Hz).
  rewrite E in *. rewrite Hz.
  rewrite parseFrac_none, parseExp_none by assumption.
  cbn [length Z.of_nat Z.sub Z.opp]. rewrite app_nil_r, <- E.
  now rewrite mkNum_int.
Qed.

Lemma digit_not_minus (n : N) (rest : jsstring) :
  startsWith [45] (digitsOfN n ++ rest) = false.
Proof.
  destruct (digitsOfN_shape n) as (d & more & E & _).
  pose proof (digitsOfUint_digits (N.to_uint n)) as Hd.
  fold (digitsOfN n) in Hd. rewrite E in *. inversion Hd as [|? ? Hc _]; subst.
  cbn [app]. rewrite StringFacts.startsWith_single.
  unfold isDigit in Hc. destruct (N.eqb_spec 45 d); [subst; discriminate | reflexivity].
Qed.

(** An integer parses back from its digits. *)
Lemma parseNumber_digitsOfZ (z : Z) (rest : jsstring) :
  numberEnds rest ->
  parseNumber (digitsOfZ z ++ rest) = Some (VNumber (Int z), rest).
Proof.
  intros Hrest. unfold parseNumber, digitsOfZ.
  destruct (Z.ltb_spec z 0) as [Hneg|Hpos].
  - cbn [app]. rewrite StringFacts.startsWith_single.
    change (45 =? 45) with true. cbn [skipn].
    change (drop 0 (digitsOfN (Z.abs_N z) ++ rest)) with (digitsOfN (Z.abs_N z) ++ rest).
    rewrite (parseNumber_unsigned true) by assumption.
    rewrite N2Z.inj_abs_N. repeat f_equal. lia.
  - cbn [app]. rewrite digit_not_minus.
    rewrite (parseNumber_unsigned false) by assumption.
    rewrite N2Z.inj_abs_N. repeat f_equal. lia.
Qed.

Lemma digitsOfZ_head (z : Z) :
  exists c more, digitsOfZ z = c :: more /\ (isDigit c = true \/ c = 45).
Proof.
  unfold digitsOfZ. destruct (z <? 0)%Z.
  - cbn. eauto.
  - destruct (digitsOfN_shape (Z.abs_N z)) as (d & more & E & _).
    pose proof (digitsOfUint_digits (N.to_uint (Z.abs_N z))) as Hd.
    fold (digitsOfN (Z.abs_N z)) in Hd. rewrite E in *.
    inversion Hd; subst. cbn. eauto.
Qed.

(** *** Strings *)

Lemma hexVal_hex_digit (d : N) :
  d < 16 -> hexVal (Sha256.hex_digit d) = Some d.
Proof.
  intros Hd. unfold hexVal, Sha256.hex_digit, isDigit.
  destruct (N.ltb_spec d 10).
  - replace ((48 <=? 48 + d) && (48 + d <=? 57)) with true.
    + f_equal. lia.
    + symmetry. apply andb_true_iff. split; apply N.leb_le; lia.
  - replace ((48 <=? 87 + d) && (87 + d <=? 57)) with false.
    + replace ((97 <=? 87 + d) && (87 + d <=? 102)) with true.
      * f_equal. lia.
      * symmetry. apply andb_true_iff. split; apply N.leb_le; lia.
    + symmetry. apply andb_false_iff. right. apply N.leb_gt. lia.
Qed.

Lemma nibble (c k : N) : N.land (N.shiftr c k) 0xF = (c / 2 ^ k) mod 16.
Proof.
  rewrite N.shiftr_div_pow2. change 0xF with (N.ones 4).
  now rewrite N.land_ones.
Qed.

Lemma hex4_hex_of (c : N) :
  c < 65536 ->
  exists h1 h2 h3 h4,
    Sha256.hex_of 4 c = [h1; h2; h3; h4] /\ hex4 h1 h2 h3 h4 = Some c.
Proof.
  intros Hc. do 4 eexists. split; [reflexivity|].
  unfold hex4. rewrite !nibble.
  change (4 * N.of_nat 3) with 12. change (4 * N.of_nat 2) with 8.
  change (4 * N.of_nat 1) with 4. change (4 * N.of_nat 0) with 0.
  change (2 ^ 12) with 4096. change (2 ^ 8) with 256.
  change (2 ^ 4) with 16. change (2 ^ 0) with 1.
  rewrite !hexVal_hex_digit by (apply N.mod_lt; discriminate).
  f_equal. zify. Z.to_euclidean_division_equations. lia.
Qed.

Lemma parseChars_escape (e u : N) (acc r : jsstring) :
  e <> 117 -> simpleEscape e = Some u ->
  parseChars acc (92 :: e :: r) = parseChars (u :: acc) r.
Proof.
  intros He Hu. cbn [parseChars].
  change (92 =? 34) with false. change (92 =? 92) with true. cbn beta iota.
  destruct (N.eqb_spec e 117); [congruence|]. now rewrite Hu.
Qed.

Lemma parseChars_unicode (c : N) (acc r : jsstring) :
  c < 65536 ->
  parseChars acc (unicodeEscape c ++ r) = parseChars (c :: acc) r.
Proof.
  intros Hc. destruct (hex4_hex_of c Hc) as (h1 & h2 & h3 & h4 & E & Hh).
  unfold unicodeEscape. rewrite E. cbn [app parseChars].
  change (92 =? 34) with false. change (92 =? 92) with true.
  change (117 =? 117) with true. cbn beta iota. now rewrite Hh.
Qed.

Lemma parseChars_literal (c : N) (acc r : jsstring) :
  c <> 34 -> c <> 92 -> 32 <= c ->
  parseChars acc (c :: r) = parseChars (c :: acc) r.
Proof.
  intros H1 H2 H3. cbn [parseChars].
  destruct (N.eqb_spec c 34); [congruence|].
  destruct (N.eqb_spec c 92); [congruence|].
  destruct (N.ltb_spec c 32); [lia | reflexivity].
Qed.

Lemma high_surrogate_range (c : N) :
  Sha256.isHighSurrogate c = true -> 0xD800 <= c <= 0xDBFF.
Proof.
  unfold Sha256.isHighSurrogate. rewrite andb_true_iff, !N.leb_le. tauto.
Qed.

Lemma low_surrogate_range (c : N) :
  Sha256.isLowSurrogate c = true -> 0xDC00 <= c <= 0xDFFF.
Proof.
  unfold Sha256.isLowSurrogate. rewrite andb_true_iff, !N.leb_le. tauto.
Qed.

Ltac escape_case IH :=
  cbn [app]; erewrite parseChars_escape; [| discriminate | reflexivity];
  rewrite IH by (cbn [length] in *; lia); cbn [rev]; now rewrite <- app_assoc.

(** The characters of a quoted string parse back to the string. *)
Lemma parseChars_quoteChars (n : nat) :
  forall (s : jsstring), (length s <= n)%nat ->
  forall (acc rest : jsstring),
    parseChars acc (quoteChars s ++ 34 :: rest) = Some (rev acc ++ s, rest).
Proof.
  induction n as [|n IH]; intros s Hlen acc rest.
  - destruct s; [|cbn in Hlen; lia]. cbn. now rewrite app_nil_r.
  - destruct s as [|c s].
    { cbn. now rewrite app_nil_r. }
    cbn [quoteChars].
    destruct (N.eqb_spec c 8) as [->|N8]; [escape_case IH|].
    destruct (N.eqb_spec c 9) as [->|N9]; [escape_case IH|].
    destruct (N.eqb_spec c 10) as [->|N10]; [escape_case IH|].
    destruct (N.eqb_spec c 12) as [->|N12]; [escape_case IH|].
    destruct (N.eqb_spec c 13) as [->|N13]; [escape_case IH|].
    destruct (N.eqb_spec c 34) as [->|N34]; [escape_case IH|].
    destruct (N.eqb_spec c 92) as [->|N92]; [escape_case IH|].
    destruct (N.ltb_spec c 32) as [Hlow|Hhigh].
    { rewrite <- app_assoc, parseChars_unicode by lia.
      rewrite IH by (cbn [length] in *; lia). cbn [rev]. now rewrite <- app_assoc. }
    destruct (Sha256.isHighSurrogate c) eqn:Hhs.
    { apply high_surrogate_range in Hhs.
      destruct s as [|d s].
      - rewrite parseChars_unicode by lia. reflexivity.
      - destruct (Sha256.isLowSurrogate d) eqn:Hls.
        + apply low_surrogate_range in Hls. cbn [app].
          rewrite parseChars_literal by lia.
          rewrite parseChars_literal by lia.
          rewrite IH by (cbn [length] in *; lia).
          cbn [rev]. now rewrite <- !app_assoc.
        + rewrite <- app_assoc, parseChars_unicode by lia.
          rewrite IH by (cbn [length] in *; lia).
          cbn [rev]. now rewrite <- app_assoc. }
    destruct (Sha256.isLowSurrogate c) eqn:Hls.
    { apply low_surrogate_range in Hls.
      rewrite <- app_assoc, parseChars_unicode by lia.
      rewrite IH by (cbn [length] in *; lia). cbn [rev]. now rewrite <- app_assoc. }
    cbn [app]. rewrite parseChars_literal by assumption.
    rewrite IH by (cbn [length] in *; lia). cbn [rev]. now rewrite <- app_assoc.
Qed.

Lemma parseChars_quote (s rest : jsstring) :
  parseChars [] (quoteChars s ++ 34 :: rest) = Some (s, rest).
Proof. apply (parseChars_quoteChars (length s) s (le_n _) [] rest). Qed.

(** *** Values *)

Section ValueInduction.

Variable P : Value -> Prop.
Hypothesis Hundefined : P VUndefined.
Hypothesis Hnull : P VNull.
Hypothesis Hbool : forall b, P (VBool b).
Hypothesis Hnumber : forall n, P (VNumber n).
Hypothesis Hstring : forall s, P (VString s).
Hypothesis Harray : forall items, Forall P items -> P (VArray items).
Hypothesis Hobject :
  forall props, Forall (fun kv => P (snd kv)) props -> P (VObject props).

(** Induction on a value, with the property known of the members. *)
Fixpoint Value_nested_ind (v : Value) : P v :=
  match v with
  | VUndefined => Hundefined
  | VNull => Hnull
  | VBool b => Hbool b
  | VNumber n => Hnumber n
  | VString s => Hstring s
  | VArray items =>
      Harray items
        ((fix go (l : list Value) : Forall P l :=
            match l with
            | [] => @List.Forall_nil _ _
            | x :: l' => @List.Forall_cons _ _ x l' (Value_nested_ind x) (go l')
            end) items)
  | VObject props =>
      Hobject props
        ((fix go (l : list (jsstring * Value))
            : Forall (fun kv => P (snd kv)) l :=
            match l with
            | [] => @List.Forall_nil _ _
            | kv :: l' =>
                @List.Forall_cons _ (fun kv => P (snd kv)) kv l'
                  (Value_nested_ind (snd kv)) (go l')
            end) props)
  end.

End ValueInduction.

(** The values [JSON.parse] gives back as they were: no [undefined] inside,
    integers for numbers, no key twice in an object. *)
Fixpoint Clean (v : Value) : Prop :=
  match v with
  | VUndefined => False
  | VNull => True
  | VBool _ => True
  | VNumber (Int _) => True
  | VNumber _ => False
  | VString _ => True
  | VArray items => fold_right (fun x acc => Clean x /\ acc) True items
  | VObject props =>
      fold_right (fun kv acc => Clean (snd kv) /\ acc) True props
      /\ List.NoDup (map fst props)
  end.

Lemma Clean_items (items : list Value) :
  Clean (VArray items) <-> Forall Clean items.
Proof.
  cbn [Clean]. induction items as [|x xs IH]; cbn [fold_right].
  - split; auto.
  - rewrite IH. split; [intros [? ?]; auto | intros H; now inversion H].
Qed.

Lemma Clean_props (props : list (jsstring * Value)) :
  Clean (VObject props)
  <-> Forall (fun kv => Clean (snd kv)) props /\ List.NoDup (map fst props).
Proof.
  cbn [Clean].
  assert (H : fold_right (fun kv acc => Clean (snd kv) /\ acc) True props
              <-> Forall (fun kv => Clean (snd kv)) props).
  { induction props as [|x xs IH]; cbn [fold_right].
    - split; auto.
    - rewrite IH. split; [intros [? ?]; auto | intros H; now inversion H]. }
  now rewrite H.
Qed.

(** The fuel a value needs. *)
Fixpoint vsize (v : Value) : nat :=
  match v with
  | VArray items => S (fold_right (fun x n => S (vsize x + n)) O items)
  | VObject props => S (fold_right (fun kv n => S (vsize (snd kv) + n)) O props)
  | _ => 1
  end.

Definition esize (items : list Value) : nat :=
  fold_right (fun x n => S (vsize x + n)) O items.

Definition msize (props : list (jsstring * Value)) : nat :=
  fold_right (fun kv n => S (vsize (snd kv) + n)) O props.

Definition memberText (kv : jsstring * Value) : jsstring :=
  quote (fst kv) ++ [58] ++ stringify (snd kv).

Lemma ser_clean (v : Value) : Clean v -> ser v = Some (stringify v).
Proof.
  intros H. unfold stringify. destruct (ser v) eqn:E; [reflexivity|].
  destruct v as [ | | b | n | s | items | props ]; try destruct b; cbn in E;
    try discriminate. destruct H.
Qed.

Lemma stringify_array (items : list Value) :
  Forall Clean items ->
  stringify (VArray items) = [91] ++ join [44] (map stringify items) ++ [93].
Proof.
  intros H. unfold stringify at 1. cbn [ser]. do 3 f_equal.
  induction H as [|x xs Hx _ IH]; cbn [map]; [reflexivity|].
  now rewrite IH, (ser_clean x Hx).
Qed.

Lemma stringify_object (props : list (jsstring * Value)) :
  Forall (fun kv => Clean (snd kv)) props ->
  stringify (VObject props) = [123] ++ join [44] (map memberText props) ++ [125].
Proof.
  intros H. unfold stringify at 1. cbn [ser]. do 3 f_equal.
  induction H as [|x xs Hx _ IH]; cbn [map flat_map]; [reflexivity|].
  rewrite IH, (ser_clean _ Hx). reflexivity.
Qed.

(** Where a value ends inside an array or an object, or at the end. *)
Definition valueEnds (rest : jsstring) : Prop :=
  match rest with
  | [] => True
  | c :: _ => c = 44 \/ c = 93 \/ c = 125
  end.

Lemma valueEnds_number (rest : jsstring) : valueEnds rest -> numberEnds rest.
Proof.
  destruct rest as [|c r]; cbn; [tauto|].
  intros [-> | [-> | ->]]; repeat split; discriminate.
Qed.

(** The first character of a printed value: no white space, no closing
    bracket. *)
Definition opens (c : N) : Prop :=
  isWs c = false /\ c <> 93 /\ c <> 125.

Lemma digit_opens (c : N) : isDigit c = true \/ c = 45 -> opens c.
Proof.
  unfold isDigit, opens, isWs. rewrite andb_true_iff, !N.leb_le.
  intros [[H1 H2] | ->].
  - repeat split; try lia.
    repeat (apply orb_false_iff; split); apply N.eqb_neq; lia.
  - repeat split; discriminate.
Qed.

Lemma stringify_opens (v : Value) :
  Clean v -> exists c t, stringify v = c :: t /\ opens c.
Proof.
  intros H. destruct v as [ | | b | n | s | items | props ];
    try destruct b; try destruct n; cbn in H; try contradiction.
  - do 2 eexists. split; [reflexivity|]. repeat split; discriminate.
  - do 2 eexists. split; [reflexivity|]. repeat split; discriminate.
  - do 2 eexists. split; [reflexivity|]. repeat split; discriminate.
  - destruct (digitsOfZ_head z) as (c & more & E & Hc).
    exists c, more. split; [exact E | now apply digit_opens].
  - do 2 eexists. split; [reflexivity|]. repeat split; discriminate.
  - do 2 eexists. split; [reflexivity|]. repeat split; discriminate.
  - do 2 eexists. split; [reflexivity|]. repeat split; discriminate.
Qed.

Lemma skipWs_opens (c : N) (s : jsstring) :
  isWs c = false -> skipWs (c :: s) = c :: s.
Proof. intros H. unfold skipWs. cbn [dropWhile]. now rewrite H. Qed.

(** A number is reached through the last branch of [parseValue]. *)
Lemma parseValue_number (f : nat) (c : N) (r : jsstring) :
  isDigit c = true \/ c = 45 ->
  parseValue (S f) (c :: r) = parseNumber (c :: r).
Proof.
  intros Hc. destruct (digit_opens c Hc) as (Hws & _ & _).
  cbn [parseValue]. rewrite (skipWs_opens _ _ Hws).
  assert (Hr : c <= 57).
  { destruct Hc as [Hd | ->]; [|discriminate].
    unfold isDigit in Hd. apply andb_true_iff in Hd. apply N.leb_le. tauto. }
  destruct (N.eqb_spec c 123); [lia|].
  destruct (N.eqb_spec c 91); [lia|].
  destruct (N.eqb_spec c 34).
  { exfalso. subst. destruct Hc as [Hd|Hd]; discriminate. }
  cbn [lit list_ascii_of_string map startsWith].
  change (N_of_ascii "t") with 116. change (N_of_ascii "f") with 102.
  change (N_of_ascii "n") with 110.
  destruct (N.eqb_spec 116 c); [lia|].
  destruct (N.eqb_spec 102 c); [lia|].
  destruct (N.eqb_spec 110 c); [lia|].
  reflexivity.
Qed.

Lemma join_head (sep : jsstring) (c : N) (t : jsstring) (rest : list jsstring) :
  exists t', join sep ((c :: t) :: rest) = c :: t'.
Proof. destruct rest; cbn [join app]; eauto. Qed.

Lemma setProp_fresh (k : jsstring) (v : Value) (acc : list (jsstring * Value)) :
  ~ In k (map fst acc) -> setProp k v acc = acc ++ [(k, v)].
Proof.
  induction acc as [|[k' v'] acc IH]; cbn [setProp map fst In app]; intros H.
  - reflexivity.
  - rewrite ClassifierFacts.str_eqb_false by (intros ->; apply H; now left).
    rewrite IH; [reflexivity | tauto].
Qed.

Lemma normProps_go (props acc : list (jsstring * Value)) :
  List.NoDup (map fst (acc ++ props)) ->
  fold_left (fun a kv => setProp (fst kv) (snd kv) a) props acc = acc ++ props.
Proof.
  revert acc. induction props as [|[k v] props IH]; intros acc H; cbn [fold_left].
  - now rewrite app_nil_r.
  - cbn [fst snd]. rewrite setProp_fresh.
    + rewrite IH; rewrite <- app_assoc; [reflexivity | exact H].
    + rewrite map_app in H. cbn [map fst] in H.
      apply NoDup_remove_2 in H. intros Hin. apply H.
      apply in_or_app. now left.
Qed.

(** Without a repeated key the properties stay as they are. *)
Lemma normProps_nodup (props : list (jsstring * Value)) :
  List.NoDup (map fst props) -> normProps props = props.
Proof. intros H. unfold normProps. now rewrite normProps_go. Qed.

(** What the induction knows of a member. *)
Definition ParsesBack (v : Value) : Prop :=
  forall (f : nat) (rest : jsstring),
    (vsize v <= f)%nat -> valueEnds rest ->
    parseValue f (stringify v ++ rest) = Some (v, rest).

Lemma parseElements_ok (xs : list Value) :
  Forall (fun x => Clean x /\ ParsesBack x) xs -> xs <> [] ->
  forall (f : nat) (acc : list Value) (rest : jsstring),
    (esize xs <= f)%nat ->
    parseElements f acc (join [44] (map stringify xs) ++ 93 :: rest)
    = Some (VArray (rev acc ++ xs), rest).
Proof.
  induction 1 as [|x xs [Hx IHx] Hxs IH]; [congruence|].
  intros _ f acc rest Hf. cbn [esize fold_right] in Hf.
  destruct f as [|f]; [lia|]. cbn [parseElements map].
  destruct xs as [|y ys].
  - cbn [join]. rewrite IHx; [|cbn [esize fold_right] in Hf; lia|cbn; auto].
    change (skipWs (93 :: rest)) with (93 :: rest).
    change (93 =? 44) with false. change (93 =? 93) with true.
    cbn [rev]. reflexivity.
  - rewrite StringFacts.join_cons by discriminate.
    rewrite <- !app_assoc. cbn [app].
    rewrite IHx; [|fold (esize (y :: ys)) in Hf; lia|cbn; auto].
    rewrite skipWs_opens by reflexivity.
    change (44 =? 44) with true. cbn beta iota.
    rewrite (IH ltac:(discriminate) f (x :: acc) rest)
      by (fold (esize (y :: ys)) in Hf; lia).
    cbn [rev]. now rewrite <- app_assoc.
Qed.

Lemma parseMembers_ok (ps : list (jsstring * Value)) :
  Forall (fun kv => Clean (snd kv) /\ ParsesBack (snd kv)) ps -> ps <> [] ->
  forall (f : nat) (acc : list (jsstring * Value)) (rest : jsstring),
    (msize ps <= f)%nat ->
    parseMembers f acc (join [44] (map memberText ps) ++ 125 :: rest)
    = Some (VObject (normProps (rev acc ++ ps)), rest).
Proof.
  induction 1 as [|[k v] ps [Hv IHv] Hps IH]; [congruence|].
  intros _ f acc rest Hf. cbn [msize fold_right snd] in Hf.
  cbn [fst snd] in Hv, IHv.
  destruct f as [|f]; [lia|]. cbn [parseMembers map].
  unfold memberText at 1. cbn [fst snd]. unfold quote.
  destruct ps as [|q qs].
  - cbn [join map]. rewrite <- !app_assoc. cbn [app].
    rewrite skipWs_opens by reflexivity.
    change (34 =? 34) with true. cbn beta iota.
    rewrite parseChars_quote.
    rewrite skipWs_opens by reflexivity.
    change (58 =? 58) with true. cbn beta iota.
    rewrite IHv; [|cbn [fold_right] in Hf; lia|cbn; auto].
    change (skipWs (125 :: rest)) with (125 :: rest).
    change (125 =? 44) with false. change (125 =? 125) with true.
    cbn [rev]. reflexivity.
  - rewrite StringFacts.join_cons by discriminate.
    rewrite <- !app_assoc. cbn [app].
    rewrite skipWs_opens by reflexivity.
    change (34 =? 34) with true. cbn beta iota.
    rewrite parseChars_quote.
    rewrite skipWs_opens by reflexivity.
    change (58 =? 58) with true. cbn beta iota.
    rewrite IHv; [|fold (msize (q :: qs)) in Hf; lia|cbn; auto].
    rewrite skipWs_opens by reflexivity.
    change (44 =? 44) with true. cbn beta iota.
    rewrite (IH ltac:(discriminate) f ((k, v) :: acc) rest)
      by (fold (msize (q :: qs)) in Hf; lia).
    cbn [rev]. now rewrite <- app_assoc.
Qed.

Lemma Forall_and_ih (P : Value -> Prop) (items : list Value) :
  Forall (fun x => Clean x -> P x) items -> Forall Clean items ->
  Forall (fun x => Clean x /\ P x) items.
Proof.
  induction 1 as [|x xs Hx _ IH]; intros Hc; constructor;
    inversion Hc; subst; auto.
Qed.

Lemma Forall_and_ih_props (P : Value -> Prop) (props : list (jsstring * Value)) :
  Forall (fun kv => Clean (snd kv) -> P (snd kv)) props ->
  Forall (fun kv => Clean (snd kv)) props ->
  Forall (fun kv => Clean (snd kv) /\ P (snd kv)) props.
Proof.
  induction 1 as [|x xs Hx _ IH]; intros Hc; constructor;
    inversion Hc; subst; auto.
Qed.

(** A clean value, printed and followed by whatever may follow a value,
    parses back to itself and leaves what followed. *)
Theorem parseValue_stringify (v : Value) : Clean v -> ParsesBack v.
Proof.
  induction v as [| |b|n|s|items IH|props IH] using Value_nested_ind;
    intros Hc f rest Hf Hrest; (destruct f as [|f]; [cbn in Hf; lia|]).
  - destruct Hc.
  - reflexivity.
  - destruct b; reflexivity.
  - destruct n; try destruct Hc.
    destruct (digitsOfZ_head z) as (c & more & E & Hhead).
    change (stringify (VNumber (Int z))) with (digitsOfZ z).
    assert (E' : digitsOfZ z ++ rest = c :: (more ++ rest)) by now rewrite E.
    rewrite E', parseValue_number by assumption. rewrite <- E'.
    apply parseNumber_digitsOfZ. now apply valueEnds_number.
  - change (stringify (VString s)) with (34 :: quoteChars s ++ [34]).
    cbn [app parseValue]. rewrite skipWs_opens by reflexivity.
    change (34 =? 123) with false. change (34 =? 91) with false.
    change (34 =? 34) with true. cbn beta iota.
    rewrite <- app_assoc. cbn [app]. now rewrite parseChars_quote.
  - apply Clean_items in Hc. rewrite stringify_array by assumption.
    pose proof (Forall_and_ih _ _ IH Hc) as Hall.
    cbn [app parseValue]. rewrite skipWs_opens by reflexivity.
    change (91 =? 123) with false. change (91 =? 91) with true. cbn beta iota.
    destruct items as [|x xs].
    + reflexivity.
    + rewrite <- app_assoc. cbn [app].
      assert (Hs : skipWs (join [44] (map stringify (x :: xs)) ++ 93 :: rest)
                   = join [44] (map stringify (x :: xs)) ++ 93 :: rest
                   /\ startsWith [93]
                        (join [44] (map stringify (x :: xs)) ++ 93 :: rest) = false).
      { inversion Hc as [|? ? Hx _]; subst.
        destruct (stringify_opens x Hx) as (c & t & E & Hws & H93 & _).
        cbn [map]. rewrite E.
        destruct (join_head [44] c t (map stringify xs)) as (t' & Ej).
        rewrite Ej. cbn [app]. rewrite skipWs_opens by assumption.
        rewrite StringFacts.startsWith_single.
        destruct (N.eqb_spec 93 c); [congruence | auto]. }
      destruct Hs as [Hs1 Hs2]. rewrite Hs1, Hs2.
      rewrite (parseElements_ok (x :: xs) Hall ltac:(discriminate) f [] rest).
      * reflexivity.
      * cbn [vsize] in Hf. fold (esize (x :: xs)) in Hf. lia.
  - apply Clean_props in Hc. destruct Hc as [Hc Hnd].
    rewrite stringify_object by assumption.
    pose proof (Forall_and_ih_props _ _ IH Hc) as Hall.
    cbn [app parseValue]. rewrite skipWs_opens by reflexivity.
    change (123 =? 123) with true. cbn beta iota.
    destruct props as [|[k x] ps].
    + reflexivity.
    + rewrite <- app_assoc. cbn [app].
      assert (Hs : skipWs (join [44] (map memberText ((k, x) :: ps)) ++ 125 :: rest)
                   = join [44] (map memberText ((k, x) :: ps)) ++ 125 :: rest
                   /\ startsWith [125]
                        (join [44] (map memberText ((k, x) :: ps)) ++ 125 :: rest)
                      = false).
      { destruct (join_head [44] 34 (quoteChars k ++ [34] ++ [58] ++ stringify x)
                    (map memberText ps)) as (t' & Ej).
        assert (Ej' : join [44] (map memberText ((k, x) :: ps)) = 34 :: t').
        { rewrite <- Ej. cbn [map]. unfold memberText at 1. unfold quote.
          cbn [fst snd app]. now rewrite <- !app_assoc. }
        rewrite Ej'. cbn [app]. rewrite skipWs_opens by reflexivity.
        rewrite StringFacts.startsWith_single. auto. }
      destruct Hs as [Hs1 Hs2]. rewrite Hs1, Hs2.
      rewrite (parseMembers_ok ((k, x) :: ps) Hall ltac:(discriminate) f [] rest).
      * cbn [rev app]. now rewrite normProps_nodup.
      * cbn [vsize] in Hf. fold (msize ((k, x) :: ps)) in Hf. lia.
Qed.

(** *** The fuel [JSON.parse] starts with is enough *)

Lemma length_join_le (sep : jsstring) (x : jsstring) (rest : list jsstring) :
  (length x <= length (join sep (x :: rest)))%nat.
Proof. destruct rest; cbn [join]; rewrite ?length_app; lia. Qed.

Lemma esize_le (items : list Value) :
  Forall (fun x => (vsize x <= length (stringify x))%nat) items ->
  (esize items <= S (length (join [44%N] (map stringify items))))%nat.
Proof.
  induction 1 as [|x xs Hx _ IH]; cbn [esize fold_right map]; [lia|].
  fold (esize xs). cbv beta in Hx. destruct xs as [|y ys].
  - cbn [join esize fold_right map]. lia.
  - rewrite StringFacts.join_cons by discriminate.
    rewrite !length_app. cbn [length]. lia.
Qed.

Lemma msize_le (props : list (jsstring * Value)) :
  Forall (fun kv => (vsize (snd kv) <= length (stringify (snd kv)))%nat) props ->
  (msize props <= S (length (join [44%N] (map memberText props))))%nat.
Proof.
  induction 1 as [|[k x] xs Hx _ IH]; cbn [msize fold_right map]; [lia|].
  fold (msize xs). cbn [snd] in *.
  assert (Hm : (length (stringify x) <= length (memberText (k, x)))%nat).
  { unfold memberText. cbn [fst snd]. rewrite !length_app. lia. }
  destruct xs as [|y ys].
  - cbn [join msize fold_right map]. lia.
  - rewrite StringFacts.join_cons by discriminate.
    rewrite !length_app. cbn [length]. lia.
Qed.

Lemma vsize_le (v : Value) : Clean v -> (vsize v <= length (stringify v))%nat.
Proof.
  induction v as [| |b|n|s|items IH|props IH] using Value_nested_ind; intros Hc.
  - destruct Hc.
  - cbn. lia.
  - destruct b; cbn; lia.
  - destruct n; try destruct Hc.
    destruct (digitsOfZ_head z) as (c & more & E & _).
    change (stringify (VNumber (Int z))) with (digitsOfZ z).
    rewrite E. cbn. lia.
  - cbn. lia.
  - apply Clean_items in Hc. rewrite stringify_array by assumption.
    assert (Hall : Forall (fun x => (vsize x <= length (stringify x))%nat) items).
    { clear -IH Hc. induction IH; inversion Hc; subst; constructor; auto. }
    pose proof (esize_le items Hall). cbn [vsize]. fold (esize items).
    rewrite !length_app. cbn [length]. lia.
  - apply Clean_props in Hc. destruct Hc as [Hc _].
    rewrite stringify_object by assumption.
    assert (Hall : Forall (fun kv => (vsize (snd kv)
                                      <= length (stringify (snd kv)))%nat) props).
    { clear -IH Hc. induction IH; inversion Hc; subst; constructor; auto. }
    pose proof (msize_le props Hall). cbn [vsize]. fold (msize props).
    rewrite !length_app. cbn [length]. lia.
Qed.

(** [JSON.parse(JSON.stringify(v))] is [v] for a clean value. *)
Theorem parse_stringify (v : Value) : Clean v -> parse (stringify v) = Some v.
Proof.
  intros Hc. unfold parse.
  rewrite <- (app_nil_r (stringify v)) at 2.
  rewrite (parseValue_stringify v Hc (S (length (stringify v))) []).
  - reflexivity.
  - pose proof (vsize_le v Hc). lia.
  - exact I.
Qed.

(** *** What is printed has no line break in it *)

Definition printable (s : jsstring) : Prop := Forall (fun c => 32 <= c) s.

Lemma printable_app (s t : jsstring) :
  printable s -> printable t -> printable (s ++ t).
Proof. unfold printable. intros. now apply Forall_app. Qed.

Lemma printable_join (sep : jsstring) (xs : list jsstring) :
  printable sep -> Forall printable xs -> printable (join sep xs).
Proof.
  intros Hsep. induction 1 as [|x xs Hx Hxs IH]; [constructor|].
  destruct xs as [|y ys]; [exact Hx|].
  rewrite StringFacts.join_cons by discriminate.
  auto using printable_app.
Qed.

Lemma printable_digits (z : Z) : printable (digitsOfZ z).
Proof.
  unfold digitsOfZ. apply printable_app.
  - destruct (z <? 0)%Z; repeat constructor. discriminate.
  - unfold digitsOfN. eapply List.Forall_impl; [|apply digitsOfUint_digits].
    intros c Hc. unfold isDigit in Hc. apply andb_true_iff in Hc.
    destruct Hc as [Hc _]. apply N.leb_le in Hc. lia.
Qed.

Lemma printable_hex (n : nat) (c : N) : printable (Sha256.hex_of n c).
Proof.
  induction n as [|n IH]; cbn [Sha256.hex_of]; constructor; [|exact IH].
  unfold Sha256.hex_digit. destruct (_ <? 10); lia.
Qed.

Lemma printable_unicodeEscape (c : N) : printable (unicodeEscape c).
Proof.
  unfold unicodeEscape. apply printable_app; [|apply printable_hex].
  repeat constructor; discriminate.
Qed.

Ltac printable_escape IH :=
  apply printable_app;
  [repeat constructor; discriminate | apply IH; cbn [length] in *; lia].

Lemma printable_quoteChars (n : nat) :
  forall s : jsstring, (length s <= n)%nat -> printable (quoteChars s).
Proof.
  induction n as [|n IH]; intros s Hlen.
  - destruct s; [constructor | cbn in Hlen; lia].
  - destruct s as [|c s]; [constructor|]. cbn [quoteChars].
    destruct (c =? 8); [printable_escape IH|].
    destruct (c =? 9); [printable_escape IH|].
    destruct (c =? 10); [printable_escape IH|].
    destruct (c =? 12); [printable_escape IH|].
    destruct (c =? 13); [printable_escape IH|].
    destruct (c =? 34); [printable_escape IH|].
    destruct (c =? 92); [printable_escape IH|].
    destruct (N.ltb_spec c 32).
    { apply printable_app; [apply printable_unicodeEscape|].
      apply IH. cbn [length] in *. lia. }
    destruct (Sha256.isHighSurrogate c).
    { destruct s as [|d s]; [apply printable_unicodeEscape|].
      destruct (Sha256.isLowSurrogate d) eqn:Hd.
      - apply low_surrogate_range in Hd.
        constructor; [assumption|]. constructor; [lia|].
        apply IH. cbn [length] in *. lia.
      - apply printable_app; [apply printable_unicodeEscape|].
        apply IH. cbn [length] in *. lia. }
    destruct (Sha256.isLowSurrogate c).
    { apply printable_app; [apply printable_unicodeEscape|].
      apply IH. cbn [length] in *. lia. }
    constructor; [assumption|]. apply IH. cbn [length] in *. lia.
Qed.

Lemma printable_quote (s : jsstring) : printable (quote s).
Proof.
  unfold quote. apply printable_app; [repeat constructor; discriminate|].
  apply printable_app; [|repeat constructor; discriminate].
  now apply (printable_quoteChars (length s)).
Qed.

Lemma printable_stringify (v : Value) : Clean v -> printable (stringify v).
Proof.
  induction v as [| |b|n|s|items IH|props IH] using Value_nested_ind; intros Hc.
  - destruct Hc.
  - repeat constructor; discriminate.
  - destruct b; repeat constructor; discriminate.
  - destruct n; try destruct Hc. apply printable_digits.
  - apply printable_quote.
  - apply Clean_items in Hc. rewrite stringify_array by assumption.
    apply printable_app; [repeat constructor; discriminate|].
    apply printable_app; [|repeat constructor; discriminate].
    apply printable_join; [repeat constructor; discriminate|].
    clear -IH Hc. induction IH; inversion Hc; subst; constructor; auto.
  - apply Clean_props in Hc. destruct Hc as [Hc _].
    rewrite stringify_object by assumption.
    apply printable_app; [repeat constructor; discriminate|].
    apply printable_app; [|repeat constructor; discriminate].
    apply printable_join; [repeat constructor; discriminate|].
    clear -IH Hc. induction IH as [|[k x] ps Hx _ IHps];
      inversion Hc; subst; constructor; auto.
    unfold memberText. cbn [fst snd] in *.
    apply printable_app; [apply printable_quote|].
    apply printable_app; [repeat constructor; discriminate | auto].
Qed.

(** The text of a clean value has no line feed. *)
Lemma stringify_no_LF (v : Value) :
  Clean v -> Forall (fun c => c <> LF) (stringify v).
Proof.
  intros Hc. eapply List.Forall_impl; [|apply (printable_stringify v Hc)].
  intros c Hge. cbv beta in Hge. unfold LF. lia.
Qed.

End JsonFacts.

(** ** The trace model *)

Module TraceFacts.

Import Trace JsonFacts.

Ltac distinct_keys :=
  repeat (constructor; [cbn [In]; intuition discriminate|]); constructor.

Lemma Clean_map {A} (f : A -> Value) (xs : list A) :
  (forall x, Clean (f x)) -> Clean (VArray (map f xs)).
Proof.
  intros H. apply Clean_items. induction xs; cbn [map]; constructor; auto.
Qed.

Lemma rangeToJS_clean (r : TraceRange) : Clean (rangeToJS r).
Proof. cbn. repeat split. distinct_keys. Qed.

Lemma contributorToJS_clean (c : TraceContributor) : Clean (contributorToJS c).
Proof.
  unfold contributorToJS. destruct (model_identifier c); cbn; repeat split;
    distinct_keys.
Qed.

Lemma relatedToJS_clean (r : TraceRelated) : Clean (relatedToJS r).
Proof. cbn. repeat split. distinct_keys. Qed.

Lemma conversationToJS_clean (c : TraceConversation) : Clean (conversationToJS c).
Proof.
  unfold conversationToJS. apply Clean_props. split.
  - constructor; [exact I|].
    constructor; [apply contributorToJS_clean|].
    constructor; [apply Clean_map, rangeToJS_clean|].
    constructor; [apply Clean_map, relatedToJS_clean|]. constructor.
  - distinct_keys.
Qed.

Lemma fileToJS_clean (f : TraceFile) : Clean (fileToJS f).
Proof.
  unfold fileToJS. apply Clean_props. split.
  - constructor; [exact I|].
    constructor; [apply Clean_map, conversationToJS_clean|]. constructor.
  - distinct_keys.
Qed.

(** A typed trace entry is a clean value. *)
Lemma toJS_clean (e : TraceEntry) : Clean (toJS e).
Proof.
  unfold toJS. apply Clean_props. split.
  - apply Forall_app. split.
    + constructor; [exact I|]. constructor; [exact I|].
      constructor; [cbn; repeat split; distinct_keys|].
      constructor; [apply Clean_map, fileToJS_clean|]. constructor.
    + destruct (mutation_class e); cbn [option_map optProp];
        repeat constructor.
  - destruct (mutation_class e); cbn [option_map optProp app]; distinct_keys.
Qed.

Lemma forallb_map_true {A} (p : Value -> bool) (f : A -> Value) (xs : list A) :
  (forall x, p (f x) = true) -> forallb p (map f xs) = true.
Proof.
  intros H. induction xs as [|x xs IH]; cbn [map forallb]; [reflexivity|].
  now rewrite H, IH.
Qed.

Lemma rangeToJS_valid (r : TraceRange) : isValidTraceRange (rangeToJS r) = true.
Proof. reflexivity. Qed.

Lemma contributorToJS_valid (c : TraceContributor) :
  isValidTraceContributor (contributorToJS c) = true.
Proof.
  unfold contributorToJS.
  destruct (entity_type c), (model_identifier c); reflexivity.
Qed.

Lemma relatedToJS_valid (r : TraceRelated) :
  isValidTraceRelated (relatedToJS r) = true.
Proof. unfold relatedToJS. destruct (rel_type r); reflexivity. Qed.

Lemma conversationToJS_valid (c : TraceConversation) :
  isValidTraceConversation (conversationToJS c) = true.
Proof.
  unfold isValidTraceConversation, conversationToJS.
  change (notObject (VObject ?p)) with false. cbv iota.
  change (getProp (VObject ?p) "url") with (VString (url c)).
  change (getProp (VObject ?p) "ranges") with (VArray (map rangeToJS (ranges c))).
  change (getProp (VObject ?p) "related") with (VArray (map relatedToJS (related c))).
  change (getProp (VObject ?p) "contributor") with (contributorToJS (contributor c)).
  cbn [isType typeof asArray].
  rewrite contributorToJS_valid.
  rewrite (forallb_map_true _ _ _ rangeToJS_valid).
  rewrite (forallb_map_true _ _ _ relatedToJS_valid).
  reflexivity.
Qed.

Lemma fileToJS_valid (f : TraceFile) : isValidTraceFile (fileToJS f) = true.
Proof.
  unfold isValidTraceFile, fileToJS.
  change (notObject (VObject ?p)) with false. cbv iota.
  change (getProp (VObject ?p) "relative_path") with (VString (relative_path f)).
  change (getProp (VObject ?p) "conversations")
    with (VArray (map conversationToJS (conversations f))).
  cbn [isType typeof asArray andb].
  apply forallb_map_true, conversationToJS_valid.
Qed.

(** Every typed trace entry passes the validator. *)
Lemma toJS_valid (e : TraceEntry) : isValidTraceEntry (toJS e) = true.
Proof.
  unfold isValidTraceEntry.
  change (notObject (toJS e)) with false. cbv iota.
  change (getProp (toJS e) "id") with (VString (id e)).
  change (getProp (toJS e) "timestamp") with (VString (timestamp e)).
  change (getProp (toJS e) "vcs")
    with (VObject [(lit "revision_id", VString (vcs_revision_id e))]).
  change (getProp (VObject [(lit "revision_id", VString (vcs_revision_id e))])
            "revision_id") with (VString (vcs_revision_id e)).
  change (getProp (toJS e) "files") with (VArray (map fileToJS (files e))).
  cbn [isType typeof asArray truthy negb orb].
  rewrite (forallb_map_true _ _ _ fileToJS_valid). cbn [negb].
  unfold toJS. destruct (mutation_class e) as [[]|]; reflexivity.
Qed.

(** The line of an entry: an object's text. *)
Lemma stringify_toJS_shape (e : TraceEntry) :
  exists body, Json.stringify (toJS e) = 123 :: body ++ [125].
Proof.
  pose proof (toJS_clean e) as Hc. unfold toJS in *.
  apply Clean_props in Hc. destruct Hc as [Hc _].
  rewrite stringify_object by assumption. cbn [app]. eauto.
Qed.

End TraceFacts.

(** ** The ledger *)

Module TraceStorageFacts.

Import Fs State Trace TraceStorage JsonFacts TraceFacts StringFacts.

Lemma paths_differ (root : jsstring) : orchestrationPath root <> getTracePath root.
Proof. unfold getTracePath, orchestrationPath, pathJoin, pathOf. cbn. discriminate. Qed.

Lemma isSpace_false_trim (a b : N) (body : jsstring) :
  isSpace a = false -> isSpace b = false ->
  trim (a :: body ++ [b]) = a :: body ++ [b].
Proof.
  intros Ha Hb. unfold trim, trimStart, trimEnd. cbn [dropWhile]. rewrite Ha.
  change (a :: body ++ [b]) with ((a :: body) ++ [b]).
  rewrite rev_app_distr. cbn [rev app dropWhile]. rewrite Hb.
  change (b :: rev body ++ [a]) with ([b] ++ rev (a :: body)).
  now rewrite rev_app_distr, rev_involutive.
Qed.

(** The text of an entry is one line, and not a blank one. *)
Lemma entry_line (e : TraceEntry) :
  Forall (fun c => c <> LF) (Json.stringify (toJS e))
  /\ str_eqb (trim (Json.stringify (toJS e))) [] = false.
Proof.
  split; [apply stringify_no_LF, toJS_clean|].
  destruct (stringify_toJS_shape e) as (body & ->).
  rewrite isSpace_false_trim by reflexivity.
  apply ClassifierFacts.str_eqb_false. discriminate.
Qed.

Definition keep (entry : Value) : bool :=
  negb (isNull entry) && isValidTraceEntry entry.

Definition parseLine (line : jsstring) : Value :=
  match Json.parse line with
  | Some v => v
  | None => VNull
  end.

Definition nonBlank (line : jsstring) : bool := negb (str_eqb (trim line) []).

Lemma entriesOf_lines (content : jsstring) :
  entriesOf content
  = List.filter keep (map parseLine (List.filter nonBlank (split [LF] content))).
Proof. reflexivity. Qed.

Lemma entriesOf_empty : entriesOf [] = [].
Proof. reflexivity. Qed.

(** The entries of a log that ends with a line feed, with one more line. *)
Lemma entriesOf_app_line (c line : jsstring) :
  Forall (fun d => d <> LF) line ->
  entriesOf (c ++ [LF] ++ line ++ [LF])
  = entriesOf (c ++ [LF])
    ++ List.filter keep (map parseLine (List.filter nonBlank [line])).
Proof.
  intros Hline. rewrite !entriesOf_lines.
  cbn [app]. rewrite !split_app. rewrite (split_none LF line Hline).
  change (split [LF] []) with [[] : jsstring].
  rewrite !List.filter_app, !List.map_app, !List.filter_app.
  change (List.filter nonBlank [[]]) with ([] : list jsstring).
  cbn [map List.filter]. now rewrite !app_nil_r.
Qed.

Lemma entriesOf_first_line (line : jsstring) :
  Forall (fun d => d <> LF) line ->
  entriesOf (line ++ [LF])
  = List.filter keep (map parseLine (List.filter nonBlank [line])).
Proof.
  intros Hline. rewrite !entriesOf_lines.
  cbn [app]. rewrite split_app, (split_none LF line Hline).
  change (split [LF] []) with [[] : jsstring].
  rewrite !List.filter_app, !List.map_app, !List.filter_app.
  change (List.filter nonBlank [[]]) with ([] : list jsstring).
  cbn [map List.filter]. now rewrite !app_nil_r.
Qed.

(** A log whose last line is terminated: empty, or ending with a line feed. *)
Definition terminated (content : jsstring) : Prop :=
  content = [] \/ exists c, content = c ++ [LF].

Lemma entry_kept (e : TraceEntry) :
  List.filter keep (map parseLine (List.filter nonBlank [Json.stringify (toJS e)]))
  = [toJS e].
Proof.
  destruct (entry_line e) as [_ Hnb].
  cbn [List.filter]. unfold nonBlank at 1. rewrite Hnb. cbn [negb map List.filter].
  unfold parseLine. rewrite (parse_stringify _ (toJS_clean e)).
  unfold keep. rewrite toJS_valid. reflexivity.
Qed.

(** Reading a terminated log with the line of one more entry appended. *)
Lemma entriesOf_append (content : jsstring) (e : TraceEntry) :
  terminated content ->
  entriesOf (content ++ Json.stringify (toJS e) ++ [LF])
  = entriesOf content ++ [toJS e].
Proof.
  destruct (entry_line e) as [Hline _].
  intros [->|[c ->]].
  - cbn [app]. rewrite entriesOf_first_line by assumption.
    now rewrite entry_kept.
  - rewrite <- app_assoc. rewrite entriesOf_app_line by assumption.
    now rewrite entry_kept.
Qed.

(** *** Appending *)

(** The content of the log file, when there is one. *)
Definition ledger (w : World) (root : jsstring) : option jsstring :=
  match w_fs w !! getTracePath root with
  | Some (File c) => Some c
  | _ => None
  end.

(** [ensureOrchestrationDir] leaves the disk alone or adds the directory. *)
Lemma ensureOrchestrationDir_cases (root : jsstring) (w : World) :
  (exists e, ensureOrchestrationDir root w = (Throws e, w))
  \/ (ensureOrchestrationDir root w = (Returns tt, w)
      /\ w_fs w !! orchestrationPath root <> None)
  \/ (ensureOrchestrationDir root w
        = (Returns tt, set_fs (<[orchestrationPath root := Dir]> (w_fs w)) w)
      /\ w_fs w !! orchestrationPath root = None).
Proof.
  unfold ensureOrchestrationDir, tryCatch, fsAccess, fsUpdate, access, mkdir.
  destruct (w_fs w !! orchestrationPath root) as [[c| |code]|] eqn:Ho.
  - right; left. split; [reflexivity | discriminate].
  - right; left. split; [reflexivity | discriminate].
  - left. eexists. reflexivity.
  - right; right. split; reflexivity.
Qed.

Lemma parent_tracePath (root : jsstring) :
  parent (getTracePath root) = Some (orchestrationPath root).
Proof. reflexivity. Qed.

(** What [fs.appendFile] did when it returned. *)
Lemma appendFile_success (fs fs' : FS) (p : Path) (data : jsstring) :
  appendFile fs p data = Returns fs' ->
  exists c0,
    (fs !! p = Some (File c0) \/ (fs !! p = None /\ c0 = []))
    /\ fs' = <[p := File (c0 ++ data)]> fs.
Proof.
  unfold appendFile, create.
  destruct (fs !! p) as [[c0| |code]|] eqn:Hp; try discriminate.
  - intros H. inversion H. exists c0. auto.
  - intros H. exists []. split; [auto|].
    destruct (parent p) as [d|].
    + destruct (fs !! d) as [[c| |code]|]; try discriminate. now inversion H.
    + now inversion H.
Qed.

(** What a successful append did: the orchestration directory was there or
    was created, and the line went to the end of the log. *)
Lemma append_success (root : jsstring) (entry : Value) (w w' : World) :
  appendToTraceLog root entry w = (Returns tt, w') ->
  isValidTraceEntry entry = true
  /\ exists (fs1 : FS) (c0 : jsstring),
       (fs1 = w_fs w \/ fs1 = <[orchestrationPath root := Dir]> (w_fs w))
       /\ (w_fs w !! getTracePath root = Some (File c0)
           \/ (w_fs w !! getTracePath root = None /\ c0 = []))
       /\ w' = set_fs (<[getTracePath root :=
                          File (c0 ++ Json.stringify entry ++ [LF])]> fs1) w.
Proof.
  unfold appendToTraceLog.
  destruct (isValidTraceEntry entry) eqn:Hv; cbn [negb]; [|discriminate].
  intros H. split; [reflexivity|].
  unfold bind in H.
  destruct (ensureOrchestrationDir_cases root w)
    as [[e He] | [[He Ho] | [He Ho]]]; rewrite He in H; [discriminate| |].
  - unfold tryCatch, fsUpdate, throw in H.
    destruct (appendFile (w_fs w) (getTracePath root) _) as [fs'|e] eqn:Ha;
      [|discriminate].
    apply appendFile_success in Ha. destruct Ha as (c0 & Hc0 & ->).
    inversion H; subst. exists (w_fs w), c0. auto.
  - unfold tryCatch, fsUpdate, throw in H. cbn [w_fs set_fs] in H.
    destruct (appendFile _ (getTracePath root) _) as [fs'|e] eqn:Ha;
      [|discriminate].
    apply appendFile_success in Ha. destruct Ha as (c0 & Hc0 & ->).
    rewrite lookup_insert_ne in Hc0 by apply paths_differ.
    inversion H; subst.
    exists (<[orchestrationPath root := Dir]> (w_fs w)), c0. auto.
Qed.

Lemma readTraceLog_file (root : jsstring) (w : World) (c : jsstring) :
  w_fs w !! getTracePath root = Some (File c) ->
  readTraceLog root w = (Returns (entriesOf c), w).
Proof.
  intros H. unfold readTraceLog, tryCatch, bind, fsRead, readFile, ret.
  now rewrite H.
Qed.

Lemma readTraceLog_none (root : jsstring) (w : World) :
  w_fs w !! getTracePath root = None ->
  readTraceLog root w = (Returns [], w).
Proof.
  intros H. unfold readTraceLog, tryCatch, bind, fsRead, readFile, ret.
  now rewrite H.
Qed.



(** C3, as the code has it: an entry the validator rejects is refused with
    the error "Invalid trace entry", and nothing is appended. *)
Theorem append_rejects_invalid (root : jsstring) (entry : Value) (w : World) :
  isValidTraceEntry entry = false ->
  appendToTraceLog root entry w = (Throws invalidEntry, w).
Proof. intros H. unfold appendToTraceLog. now rewrite H. Qed.

Definition emptyWorld : World :=
  {| w_fs := ∅; w_now := 0; w_nowISO := []; w_uuids := [];
     w_snapshots := ∅; w_gitHead := ∅; w_gitCache := ∅ |}.

(** The theorem at the entry of the storage test, which has no [vcs] and no
    [files]. *)
Lemma append_rejects_invalid_witness :
  appendToTraceLog (lit "/ws")
    (VObject [(lit "id", VString (lit "x")); (lit "timestamp", VString (lit "now"))])
    emptyWorld
  = (Throws invalidEntry, emptyWorld).
Proof. apply append_rejects_invalid. reflexivity. Defined.

(** An entry without files, and one whose range starts at line 0, ends
    before it starts and carries a hash that is no SHA-256 digest. *)
Definition entryWithoutFiles : TraceEntry :=
  {| id := lit "e1"; timestamp := lit "2026-02-21T12:00:00.000Z";
     vcs_revision_id := lit "abc123"; files := [];
     mutation_class := None |}.

Definition entryWithBadRange : TraceEntry :=
  {| id := lit "e2"; timestamp := lit "2026-02-21T12:00:00.000Z";
     vcs_revision_id := lit "abc123";
     files :=
       [ {| relative_path := lit "src/a.ts";
            conversations :=
              [ {| url := lit "s";
                   contributor := {| entity_type := AI; model_identifier := None |};
                   ranges := [ {| start_line := 0; end_line := -3;
                                  content_hash := lit "sha256:deadbeef" |} ];
                   related := [] |} ] |} ];
     mutation_class := None |}.

(** C3 as stated fails: entries that violate the schema of the
    specification (no file; a range with [start_line < 1] and
    [end_line < start_line]; a hash that is not 64 hexadecimal digits) are
    appended without any error. *)
Lemma append_accepts_schema_violations :
  let root := lit "/ws" in
  (files entryWithoutFiles = []
   /\ fst (appendToTraceLog root (toJS entryWithoutFiles) emptyWorld) = Returns tt
   /\ ledger (snd (appendToTraceLog root (toJS entryWithoutFiles) emptyWorld)) root
      = Some (Json.stringify (toJS entryWithoutFiles) ++ [LF]))
  /\ (fst (appendToTraceLog root (toJS entryWithBadRange) emptyWorld) = Returns tt
      /\ ledger (snd (appendToTraceLog root (toJS entryWithBadRange) emptyWorld)) root
         = Some (Json.stringify (toJS entryWithBadRange) ++ [LF])).
Proof. vm_compute. repeat split. Qed.



Definition sampleEntry (entryId : string) : TraceEntry :=
  {| id := lit entryId; timestamp := lit "2026-02-21T12:00:00.000Z";
     vcs_revision_id := lit "abc123";
     files :=
       [ {| relative_path := lit "src/example.ts";
            conversations :=
              [ {| url := lit "session-1";
                   contributor := {| entity_type := AI;
                                     model_identifier := Some (lit "test-model") |};
                   ranges := [ {| start_line := 1; end_line := 10;
                                  content_hash := lit "sha256:deadbeef" |} ];
                   related := [ {| rel_type := specification;
                                   rel_value := lit "INT-001" |} ] |} ] |} ];
     mutation_class := Some MutationClassifier.INTENT_EVOLUTION |}.



End TraceStorageFacts.

(* ===================================================================== *)
(** ** The snapshot tracker *)
(* ===================================================================== *)

Module FileStateFacts.

Import Fs State FileState.

(** The holders that have a snapshot of a path on record. *)
Definition holds (w : World) (filePath workspaceRoot holder : jsstring) : bool :=
  match w_snapshots w !! normalizePath filePath workspaceRoot with
  | Some snapshot => str_eqb (agentId snapshot) holder
  | None => false
  end.

(** The answer of [verifySnapshot] does not depend on who asks: the holder
    is not consulted. *)
Lemma verifySnapshot_ignores_holder (filePath h h' workspaceRoot : jsstring)
  (w : World) :
  verifySnapshot filePath h workspaceRoot w
  = verifySnapshot filePath h' workspaceRoot w.
Proof. reflexivity. Qed.

(** With nothing on record for the path, whoever holds it, the answer is
    [true]. *)
Lemma verifySnapshot_no_record (filePath h workspaceRoot : jsstring) (w : World) :
  w_snapshots w !! normalizePath filePath workspaceRoot = None ->
  verifySnapshot filePath h workspaceRoot w = (Returns true, w).
Proof.
  intros H. unfold verifySnapshot, bind, get. now rewrite H.
Qed.

(** A snapshot replaces the one another holder had of the same path. *)
Lemma takeSnapshot_replaces (filePath content h workspaceRoot : jsstring)
  (w : World) :
  w_snapshots (snd (takeSnapshot filePath content h workspaceRoot w))
    !! normalizePath filePath workspaceRoot
  = Some {| hash := Hashing.sha256 content; agentId := h; timestamp := w_now w;
            filePath := normalizePath filePath workspaceRoot |}.
Proof.
  unfold takeSnapshot, bind, dateNow, modify, ret. cbn [snd w_snapshots set_snapshots].
  apply lookup_insert_eq.
Qed.

(** A workspace with [src/a.ts]. *)
Definition root : jsstring := lit "/ws".
Definition aPath : jsstring := lit "src/a.ts".

Definition diskWith (content : jsstring) : FS :=
  {[ pathOf (lit "/ws/src/a.ts") := File content ]}.

Definition initial : World :=
  {| w_fs := diskWith (lit "x = 1" ++ [LF]); w_now := 1000; w_nowISO := [];
     w_uuids := []; w_snapshots := ∅; w_gitHead := ∅; w_gitCache := ∅ |}.

(** Agent a2 reads the file, which is then rewritten on disk. *)
Definition afterOtherRead : World :=
  set_fs (diskWith (lit "x = 3" ++ [LF]))
         (snd (takeSnapshotFromDisk aPath (lit "a2") root initial)).

(** C1, what the code does: agent a1 has no snapshot of [src/a.ts], agent a2
    has one, and the file has changed since a2 read it; [verifySnapshot] for
    a1 returns [false] where the claim has [true].  The snapshots are kept by
    path alone. *)
Theorem verifySnapshot_other_holder :
  holds afterOtherRead aPath root (lit "a1") = false
  /\ holds afterOtherRead aPath root (lit "a2") = true
  /\ fst (verifySnapshot aPath (lit "a1") root afterOtherRead) = Returns false.
Proof. vm_compute. repeat split. Qed.

(** The second reader's snapshot takes the place of the first reader's, so
    the first reader's stale write passes the check. *)
Example second_reader_hides_first :
  let w1 := snd (takeSnapshotFromDisk aPath (lit "a1") root initial) in
  let w2 := set_fs (diskWith (lit "x = 3" ++ [LF])) w1 in
  let w3 := snd (takeSnapshotFromDisk aPath (lit "a2") root w2) in
  holds w3 aPath root (lit "a1") = false
  /\ fst (verifySnapshot aPath (lit "a1") root w2) = Returns false
  /\ fst (verifySnapshot aPath (lit "a1") root w3) = Returns true.
Proof. vm_compute. repeat split. Qed.

End FileStateFacts.

(* ===================================================================== *)
(** ** The write gatekeeper *)
(* ===================================================================== *)

Module GatekeeperFacts.

Import WriteFilePreHook.




Section Gate.

Context {W : Type} (d : Deps W) (args : Args) (context : Context) (w : W).






End Gate.


End GatekeeperFacts.

(* ===================================================================== *)
(** ** The post-write recorder *)
(* ===================================================================== *)

Module RecorderFacts.

Import Fs State Trace TraceStorage TraceStorageFacts.

(** A computation that leaves whatever is at path [p] as it was, whether it
    returns or throws. *)
Definition keeps {A} (p : Path) (m : M World A) : Prop :=
  forall w, w_fs (snd (m w)) !! p = w_fs w !! p.

Lemma keeps_ret {A} (p : Path) (a : A) : keeps p (ret a).
Proof. now intros w. Qed.

Lemma keeps_throw {A} (p : Path) (e : Exn) : keeps p (@throw World A e).
Proof. now intros w. Qed.

Lemma keeps_get (p : Path) : keeps p (@get World).
Proof. now intros w. Qed.

Lemma keeps_bind {A B} (p : Path) (m : M World A) (k : A -> M World B) :
  keeps p m -> (forall a, keeps p (k a)) -> keeps p (bind m k).
Proof.
  intros Hm Hk w. unfold bind. specialize (Hm w).
  destruct (m w) as [[a|e] w1]; cbn [snd] in *.
  - now rewrite Hk.
  - exact Hm.
Qed.

Lemma keeps_tryCatch {A} (p : Path) (m : M World A) (h : Exn -> M World A) :
  keeps p m -> (forall e, keeps p (h e)) -> keeps p (tryCatch m h).
Proof.
  intros Hm Hh w. unfold tryCatch. specialize (Hm w).
  destruct (m w) as [[a|e] w1]; cbn [snd] in *.
  - exact Hm.
  - now rewrite Hh.
Qed.

Lemma keeps_fsRead (p q : Path) : keeps p (fsRead q).
Proof. now intros w. Qed.

Lemma keeps_fsAccess (p q : Path) : keeps p (fsAccess q).
Proof. now intros w. Qed.

Lemma keeps_fsUpdate (p : Path) (op : FS -> Outcome FS) :
  (forall fs fs', op fs = Returns fs' -> fs' !! p = fs !! p) ->
  keeps p (fsUpdate op).
Proof.
  intros H w. unfold fsUpdate. destruct (op (w_fs w)) as [fs'|e] eqn:Hop.
  - cbn [snd w_fs set_fs]. now apply H.
  - reflexivity.
Qed.

Lemma keeps_snapshots (p : Path) (f : World -> gmap jsstring FileSnapshot) :
  keeps p (modify (fun w => set_snapshots (f w) w)).
Proof. now intros w. Qed.

Lemma mkdir_other (p q : Path) (fs fs' : FS) :
  q <> p -> mkdir fs q = Returns fs' -> fs' !! p = fs !! p.
Proof.
  intros Hne. unfold mkdir.
  destruct (fs !! q) as [[c| |code]|]; intros H; inversion H; subst.
  - reflexivity.
  - now apply lookup_insert_ne.
Qed.

Lemma writeFile_other (p q : Path) (data : jsstring) (fs fs' : FS) :
  q <> p -> writeFile fs q data = Returns fs' -> fs' !! p = fs !! p.
Proof.
  intros Hne. unfold writeFile, create.
  destruct (fs !! q) as [[c| |code]|].
  - intros H; inversion H. now apply lookup_insert_ne.
  - discriminate.
  - discriminate.
  - destruct (parent q) as [d|].
    + destruct (fs !! d) as [[c| |code]|]; intros H; inversion H.
      now apply lookup_insert_ne.
    + intros H; inversion H. now apply lookup_insert_ne.
Qed.

Lemma mapPath_differs (root : jsstring) :
  IntentMap.getMapPath root <> getTracePath root.
Proof.
  unfold IntentMap.getMapPath, IntentMap.orchestrationPath, getTracePath,
    orchestrationPath, pathJoin, pathOf. cbn [fst snd app].
  intros H. inversion H.
Qed.

(** Updating the intent map leaves the trace log alone. *)
Lemma updateIntentMap_keeps_ledger (root intentId filePath : jsstring)
  (intentName : option jsstring) :
  keeps (getTracePath root)
        (IntentMap.updateIntentMap root intentId filePath intentName).
Proof.
  unfold IntentMap.updateIntentMap.
  apply keeps_bind.
  - unfold IntentMap.ensureOrchestrationDir.
    apply keeps_tryCatch; [apply keeps_fsAccess|].
    intros _. apply keeps_fsUpdate. intros fs fs'.
    apply mkdir_other. apply paths_differ.
  - intros _. apply keeps_bind.
    + apply keeps_tryCatch.
      * apply keeps_bind; [apply keeps_fsRead | intros; apply keeps_ret].
      * intros [[]| |]; first [apply keeps_ret | apply keeps_throw].
    + intros [intentMap intentNames]. apply keeps_fsUpdate. intros fs fs'.
      apply writeFile_other. apply mapPath_differs.
Qed.

Lemma releaseSnapshot_keeps (p : Path) (filePath agent root : jsstring) :
  keeps p (FileState.releaseSnapshot filePath agent root).
Proof.
  unfold FileState.releaseSnapshot. apply keeps_bind; [apply keeps_get|].
  intros w. destruct (w_snapshots w !! _) as [s|]; [|apply keeps_ret].
  destruct (str_eqb _ _); [|apply keeps_ret].
  now intros w'.
Qed.

(** The steps before the append return and do not touch the disk. *)
Lemma getCurrentRevision_fs (root : jsstring) (w : World) :
  exists rev w1,
    Git.getCurrentRevision root w = (Returns rev, w1) /\ w_fs w1 = w_fs w.
Proof.
  unfold Git.getCurrentRevision, bind, dateNow, get.
  destruct (w_gitCache w !! root) as [cached|].
  - destruct (_ <? _)%Z; eexists _, _; split; reflexivity.
  - eexists _, _; split; reflexivity.
Qed.

Lemma uuidv4_fs (w : World) :
  exists u w1, uuidv4 w = (Returns u, w1) /\ w_fs w1 = w_fs w.
Proof.
  unfold uuidv4. destruct (w_uuids w); eexists _, _; split; reflexivity.
Qed.

(** When the log can be appended to, a valid entry is. *)
Definition appendable (root : jsstring) (fs : FS) : Prop :=
  (fs !! orchestrationPath root = None \/ fs !! orchestrationPath root = Some Dir)
  /\ (fs !! getTracePath root = None \/ exists c, fs !! getTracePath root = Some (File c)).

Lemma append_returns (root : jsstring) (e : TraceEntry) (w : World) :
  appendable root (w_fs w) ->
  exists w', appendToTraceLog root (toJS e) w = (Returns tt, w').
Proof.
  intros [Ho Ht]. unfold appendToTraceLog. rewrite TraceFacts.toJS_valid. cbn [negb].
  unfold bind, ensureOrchestrationDir, tryCatch, fsAccess, fsUpdate, access, mkdir.
  cbv zeta.
  pose proof (parent_tracePath root) as Hp.
  destruct Ho as [Ho|Ho]; rewrite Ho; cbn [w_fs set_fs].
  - unfold appendFile, create.
    rewrite lookup_insert_ne by apply paths_differ.
    destruct Ht as [Ht|[c Ht]]; rewrite Ht.
    + rewrite Hp, lookup_insert_eq. eexists; reflexivity.
    + eexists; reflexivity.
  - unfold appendFile, create.
    destruct Ht as [Ht|[c Ht]]; rewrite Ht.
    + rewrite Hp, Ho. eexists; reflexivity.
    + eexists; reflexivity.
Qed.

Lemma bind_returns {W A B} (m : M W A) (k : A -> M W B) (w w1 : W) (a : A) :
  m w = (Returns a, w1) -> bind m k w = k a w1.
Proof. intros H. unfold bind. now rewrite H. Qed.

Lemma swallow_state {W} (m : M W unit) (w : W) :
  snd (tryCatch m (fun _ => ret tt) w) = snd (m w).
Proof. unfold tryCatch. now destruct (m w) as [[a|e] w1]. Qed.

Import WriteFilePostHook.

(** What the recorder leaves in the log: the entries that were there, then
    one entry for the written file, with a single range from line 1 to the
    line count of the content and the intent as its specification. *)
Lemma recorder_appends (args : Args) (context : Context) (w : World)
  (intent : jsstring) :
  let root := match workspaceRoot context with Some r => r | None => [] end in
  present (intentId context) = Some intent ->
  appendable root (w_fs w) ->
  (forall c, ledger w root = Some c -> terminated c) ->
  exists (entry : TraceEntry) (conversation : TraceConversation) (prior : list Value),
    fst (readTraceLog root w) = Returns prior
    /\ fst (readTraceLog root (snd (writeFilePostHook args context w)))
       = Returns (prior ++ [toJS entry])
    /\ files entry
       = [ {| relative_path := path args; conversations := [conversation] |} ]
    /\ ranges conversation
       = [ {| start_line := 1;
              end_line := lineCount (content args);
              content_hash :=
                lit "sha256:" ++
                Hashing.computeContentHash (content args) (Some 1%Z)
                  (Some (lineCount (content args))) |} ]
    /\ related conversation
       = [ {| rel_type := specification; rel_value := intent |} ].
Proof.
  intros root Hi Happ Hterm.
  unfold writeFilePostHook. rewrite Hi. cbv zeta. fold root.
  rewrite swallow_state.
  destruct (getCurrentRevision_fs root w) as (rev & w1 & Hrev & Hfs1).
  rewrite (bind_returns _ _ _ _ _ Hrev).
  set (urlStep := match sessionId context with
                  | Some s => ret s
                  | None => bind dateNow (fun now => ret (lit "session://" ++ Json.digitsOfZ now))
                  end).
  assert (Hurl : exists url, urlStep w1 = (Returns url, w1)).
  { unfold urlStep. destruct (sessionId context); eexists; reflexivity. }
  destruct Hurl as [url Hurl].
  rewrite (bind_returns _ _ _ _ _ Hurl).
  destruct (uuidv4_fs w1) as (u & w2 & Hu & Hfs2).
  rewrite (bind_returns _ _ _ _ _ Hu).
  rewrite (bind_returns dateISO _ w2 w2 (w_nowISO w2) eq_refl).
  match goal with
  | |- context [appendToTraceLog root (toJS ?e)] => set (entry := e)
  end.
  assert (Hfs : w_fs w2 = w_fs w) by congruence.
  destruct (append_returns root entry w2) as [w3 Hw3]; [now rewrite Hfs|].
  rewrite (bind_returns _ _ _ _ _ Hw3).
  match goal with
  | |- context [snd (?rest w3)] => set (wf := snd (rest w3));
      assert (Hkeep : w_fs wf !! getTracePath root = w_fs w3 !! getTracePath root)
  end.
  { subst wf. apply (keeps_bind (getTracePath root)).
    - apply updateIntentMap_keeps_ledger.
    - intros _. destruct (present (agentId context)); [|apply keeps_ret].
      destruct (present (Some root)); [|apply keeps_ret].
      apply keeps_tryCatch; [apply releaseSnapshot_keeps | intros; apply keeps_ret]. }
  destruct (append_success _ _ _ _ Hw3) as (_ & fs1 & c0 & _ & Hc0 & Hw3').
  assert (Hafter : w_fs wf !! getTracePath root
                   = Some (File (c0 ++ Json.stringify (toJS entry) ++ [LF]))).
  { rewrite Hkeep, Hw3'. cbn [w_fs set_fs]. apply lookup_insert_eq. }
  rewrite Hfs in Hc0.
  exists entry, (match conversations (match files entry with
                                      | f :: _ => f
                                      | [] => {| relative_path := []; conversations := [] |}
                                      end) with
                 | c :: _ => c
                 | [] => {| url := []; contributor := {| entity_type := AI; model_identifier := None |};
                            ranges := []; related := [] |}
                 end).
  destruct Hc0 as [Hfile | [Hnone ->]].
  - exists (entriesOf c0). rewrite (readTraceLog_file _ _ _ Hfile).
    rewrite (readTraceLog_file _ _ _ Hafter). cbn [fst].
    rewrite entriesOf_append.
    + repeat split; reflexivity.
    + apply Hterm. unfold ledger. now rewrite Hfile.
  - exists []. rewrite (readTraceLog_none _ _ Hnone).
    rewrite (readTraceLog_file _ _ _ Hafter). cbn [fst].
    rewrite entriesOf_append; [|now left].
    repeat split; reflexivity.
Qed.

(** *** Scenario S1: agent a1 reads [src/a.ts], then writes ["x = 2\n"] to it
    under intent INT-001. *)

Definition s1Root : jsstring := lit "/ws".
Definition s1Content : jsstring := lit "x = 2" ++ [LF].

Definition s1Args : Args :=
  {| path := lit "src/a.ts"; content := s1Content; mutation_class := None |}.

Definition s1Context : Context :=
  {| intentId := Some (lit "INT-001"); workspaceRoot := Some s1Root;
     sessionId := Some (lit "task-1"); modelIdentifier := None;
     oldContent := Some (lit "x = 1" ++ [LF]); agentId := Some (lit "a1") |}.

(** The world before the read: the file holds ["x = 1\n"]. *)
Definition s1Initial : World :=
  {| w_fs := {[ pathOf (lit "/ws/src/a.ts") := File (lit "x = 1" ++ [LF]) ]};
     w_now := 1771675200000;
     w_nowISO := lit "2026-02-21T12:00:00.000Z";
     w_uuids := [lit "3f2a7c1e-0b7d-4c55-9d0e-5a1b2c3d4e5f"];
     w_snapshots := ∅;
     w_gitHead := {[ s1Root := lit "abc123" ++ [LF] ]};
     w_gitCache := ∅ |}.

(** The world the recorder runs in: a1 has read the file and the runtime
    has written the new content. *)
Definition s1Written : World :=
  let afterRead :=
    snd (FileState.takeSnapshotFromDisk (path s1Args) (lit "a1") s1Root s1Initial) in
  set_fs (<[pathOf (lit "/ws/src/a.ts") := File s1Content]> (w_fs afterRead))
         afterRead.

Definition s1Recorded : World := snd (writeFilePostHook s1Args s1Context s1Written).

Definition firstOf (v : Value) : Value :=
  match v with
  | VArray (x :: _) => x
  | _ => VUndefined
  end.

(** [entry.files[0].conversations[0]] of a row of the log. *)
Definition conversationOf (entry : Value) : Value :=
  firstOf (getProp (firstOf (getProp entry "files")) "conversations").

Definition logOf (w : World) : list Value :=
  match fst (readTraceLog s1Root w) with
  | Returns entries => entries
  | Throws _ => []
  end.

(** The range the specification's scenario expects, and the one recorded. *)
Definition s1ExpectedRange : TraceRange :=
  {| start_line := 1; end_line := 1;
     content_hash := lit "sha256:" ++ Hashing.sha256 (lit "x = 2") |}.

Definition s1Range : TraceRange :=
  {| start_line := 1; end_line := 2;
     content_hash := lit "sha256:" ++ Hashing.sha256 s1Content |}.

(** C2 as stated fails: in scenario S1 the log gains one entry for
    [src/a.ts] under INT-001, but its range is lines 1 to 2 with the digest
    of ["x = 2\n"], not lines 1 to 1 with the digest of ["x = 2"]: the
    content splits into two pieces at its final line feed. *)
Lemma s1_range_is_not_one_line :
  logOf s1Written = []
  /\ length (logOf s1Recorded) = 1%nat
  /\ map (fun entry => getProp (conversationOf entry) "ranges") (logOf s1Recorded)
     = [VArray [rangeToJS s1Range]]
  /\ map (fun entry => getProp (conversationOf entry) "ranges") (logOf s1Recorded)
     <> [VArray [rangeToJS s1ExpectedRange]]
  /\ lineCount s1Content = 2%Z.
Proof.
  assert (H : map (fun entry => getProp (conversationOf entry) "ranges")
                  (logOf s1Recorded)
              = [VArray [rangeToJS s1Range]]) by (vm_compute; reflexivity).
  split; [vm_compute; reflexivity|].
  split; [vm_compute; reflexivity|].
  split; [exact H|].
  split; [|vm_compute; reflexivity].
  rewrite H. vm_compute. intros E. inversion E.
Qed.

Lemma s1_lineCount : lineCount s1Content = 2%Z.
Proof. reflexivity. Qed.

Lemma s1_hash :
  Hashing.computeContentHash s1Content (Some 1%Z) (Some 2%Z) = Hashing.sha256 s1Content.
Proof. vm_compute. reflexivity. Qed.

(** C2, as the code has it: when the content ["x = 2\n"] is written to
    [src/a.ts] under intent INT-001 and the log can be appended to, the
    recorder appends exactly one entry, whose [files[0].relative_path] is
    [src/a.ts], whose single range is lines 1 to 2 with the hash ["sha256:"]
    followed by the digest of ["x = 2\n"], and whose related list is the
    specification INT-001; the line count [max(1, split("\n").length)] of the
    content is 2. *)
Theorem s1_ledger_entry (context : Context) (mutation : option jsstring)
  (w : World) :
  let root := match workspaceRoot context with Some r => r | None => [] end in
  let args := {| path := lit "src/a.ts"; content := s1Content;
                 mutation_class := mutation |} in
  intentId context = Some (lit "INT-001") ->
  appendable root (w_fs w) ->
  (forall c, ledger w root = Some c -> terminated c) ->
  exists (entry : TraceEntry) (conversation : TraceConversation) (prior : list Value),
    fst (readTraceLog root w) = Returns prior
    /\ fst (readTraceLog root (snd (writeFilePostHook args context w)))
       = Returns (prior ++ [toJS entry])
    /\ files entry
       = [ {| relative_path := lit "src/a.ts"; conversations := [conversation] |} ]
    /\ ranges conversation = [s1Range]
    /\ related conversation
       = [ {| rel_type := specification; rel_value := lit "INT-001" |} ]
    /\ lineCount s1Content = Z.max 1 (Z.of_nat (length (split [LF] s1Content)))
    /\ lineCount s1Content = 2%Z.
Proof.
  intros root args Hi Happ Hterm.
  destruct (recorder_appends args context w (lit "INT-001"))
    as (entry & conversation & prior & Hbefore & Hafter & Hfiles & Hranges & Hrel);
    [now rewrite Hi | exact Happ | exact Hterm |].
  exists entry, conversation, prior.
  split; [exact Hbefore|]. split; [exact Hafter|]. split; [exact Hfiles|].
  split; [|split; [exact Hrel | split; [reflexivity | exact s1_lineCount]]].
  rewrite Hranges. cbn [content args]. rewrite s1_lineCount, s1_hash. reflexivity.
Qed.

(** The theorem in scenario S1. *)
Lemma s1_ledger_entry_witness :
  exists (entry : TraceEntry) (conversation : TraceConversation) (prior : list Value),
    fst (readTraceLog s1Root s1Written) = Returns prior
    /\ fst (readTraceLog s1Root (snd (writeFilePostHook s1Args s1Context s1Written)))
       = Returns (prior ++ [toJS entry])
    /\ files entry
       = [ {| relative_path := lit "src/a.ts"; conversations := [conversation] |} ]
    /\ ranges conversation = [s1Range]
    /\ related conversation
       = [ {| rel_type := specification; rel_value := lit "INT-001" |} ]
    /\ lineCount s1Content = Z.max 1 (Z.of_nat (length (split [LF] s1Content)))
    /\ lineCount s1Content = 2%Z.
Proof.
  apply (s1_ledger_entry s1Context None s1Written).
  - reflexivity.
  - split; left; vm_compute; reflexivity.
  - intros c Hc. vm_compute in Hc. discriminate Hc.
Defined.

(** The rest of the scenario: the class is AST_REFACTOR, the intent map has
    the section of INT-001 with the file as its bullet, and the snapshot of
    a1 is released. *)
Example s1_class_map_and_snapshot :
  map (fun entry => getProp entry "mutation_class") (logOf s1Recorded)
  = [VString (lit "AST_REFACTOR")]
  /\ includes
       (match w_fs s1Recorded !! IntentMap.getMapPath s1Root with
        | Some (File c) => c
        | _ => []
        end) (lit "## INT-001:") = true
  /\ includes
       (match w_fs s1Recorded !! IntentMap.getMapPath s1Root with
        | Some (File c) => c
        | _ => []
        end) ([LF] ++ lit "- src/a.ts" ++ [LF]) = true
  /\ w_snapshots s1Written !! lit "src/a.ts" <> None
  /\ w_snapshots s1Recorded !! lit "src/a.ts" = None.
Proof.
  split; [vm_compute; reflexivity|].
  split; [vm_compute; reflexivity|].
  split; [vm_compute; reflexivity|].
  split; [|vm_compute; reflexivity].
  vm_compute. discriminate.
Qed.

End RecorderFacts.

(* ===================================================================== *)
(** ** The file-read pre-hook *)
(* ===================================================================== *)

Module ReadHookFacts.

Import FileReadPreHook.

(** The loop over the files returns whatever the tracker and the session
    manager do: a failure on one file is skipped. *)
Lemma snapshotAll_returns {W} (d : Deps W) (agent root : jsstring)
  (files : list jsstring) (w : W) :
  exists w', snapshotAll d agent root files w = (Returns tt, w').
Proof.
  revert w. induction files as [|filePath rest IH]; intros w.
  - exists w. reflexivity.
  - cbn [snapshotAll]. unfold bind at 1. unfold tryCatch.
    destruct (bind _ _ w) as [[[]|e] w1].
    + apply IH.
    + cbn [ret]. apply IH.
Qed.

(** C9: for every combination of arguments and context, and whatever the
    session manager and the snapshot tracker do (return or throw), the
    file-read pre-hook returns [{ blocked: false }]: with the agent id or
    the workspace root missing, with no path to snapshot, and when the
    snapshot or the activity update throws. *)
Theorem fileReadPreHook_never_blocks {W} (d : Deps W) (args : Args)
  (context : Context) (w : W) :
  fst (fileReadPreHook d args context w) = Returns {| blocked := false |}.
Proof.
  unfold fileReadPreHook.
  destruct (present (agentId context)) as [agent|]; [|reflexivity].
  destruct (present (workspaceRoot context)) as [root|]; [|reflexivity].
  unfold bind at 1. unfold tryCatch. unfold bind at 1.
  destruct (updateActivity d agent w) as [[[]|e] w1].
  - destruct (filesToSnapshot args) as [|f files]; [reflexivity|].
    unfold bind at 1.
    destruct (snapshotAll_returns d agent root (f :: files) w1) as [w2 Hw2].
    rewrite Hw2. reflexivity.
  - reflexivity.
Qed.

(** With the tracker of fileState.ts behind it: a missing file is not
    snapshotted, and the read is not blocked. *)
Definition trackerDeps : Deps State.World :=
  {| updateActivity := fun _ => ret tt;
     takeSnapshotFromDisk := FileState.takeSnapshotFromDisk;
     addFile := fun _ _ => ret tt |}.

Example read_of_missing_file :
  let args := {| path := VString (lit "src/missing.ts"); paths := VUndefined |} in
  let context := {| agentId := Some (lit "a1"); workspaceRoot := Some (lit "/ws") |} in
  fileReadPreHook trackerDeps args context FileStateFacts.initial
  = (Returns {| blocked := false |}, FileStateFacts.initial).
Proof. vm_compute. reflexivity. Qed.

Example read_takes_snapshot :
  let args := {| path := VString (lit "src/a.ts"); paths := VUndefined |} in
  let context := {| agentId := Some (lit "a1"); workspaceRoot := Some (lit "/ws") |} in
  FileStateFacts.holds
    (snd (fileReadPreHook trackerDeps args context FileStateFacts.initial))
    (lit "src/a.ts") (lit "/ws") (lit "a1") = true.
Proof. vm_compute. reflexivity. Qed.

End ReadHookFacts.

(* ===================================================================== *)
(** ** The record_lesson tool *)
(* ===================================================================== *)

Module LessonFacts.

Import State RecordLessonTool.

Definition invalidCategoryError (category : jsstring) : Response :=
  toolError (lit "Invalid category '" ++ category ++
             lit "'. Must be one of: ARCHITECTURE, TESTING, LINTER, STYLE, PERFORMANCE, SECURITY, GENERAL").

(** What the tool does with a category outside [validCategories]. *)
Lemma execute_invalid_category (category : jsstring) (c : N) (l : jsstring)
  (t : Task) (w : World) :
  present (Some category) = Some category ->
  arr_includes validCategories category = false ->
  let after := snd (execute {| category := Some category; lesson := Some (c :: l) |}
                            (t, w)) in
  pushed (fst after) = pushed t ++ [invalidCategoryError category]
  /\ consecutiveMistakeCount (fst after) = (consecutiveMistakeCount t + 1)%Z
  /\ didToolFailInCurrentTurn (fst after) = true
  /\ snd after = w.
Proof.
  intros Hp Hv. unfold execute. cbn [RecordLessonTool.category RecordLessonTool.lesson].
  rewrite Hp. change (present (Some (c :: l))) with (Some (c :: l)).
  rewrite Hv. cbn [negb].
  repeat split.
Qed.

(** C5, what the code does: the categories BUILD and USER_FEEDBACK, which
    the type [LessonCategory] lists, are refused by the tool: for every
    non-empty lesson it pushes the invalid-category tool error and counts a
    mistake, and nothing is written. *)
Theorem execute_refuses_build_and_user_feedback (c : N) (l : jsstring)
  (t : Task) (w : World) :
  In (lit "BUILD") ClaudeManager.LessonCategory
  /\ In (lit "USER_FEEDBACK") ClaudeManager.LessonCategory
  /\ (let after := snd (execute {| category := Some (lit "BUILD");
                                   lesson := Some (c :: l) |} (t, w)) in
      pushed (fst after) = pushed t ++ [invalidCategoryError (lit "BUILD")]
      /\ consecutiveMistakeCount (fst after) = (consecutiveMistakeCount t + 1)%Z
      /\ snd after = w)
  /\ (let after := snd (execute {| category := Some (lit "USER_FEEDBACK");
                                   lesson := Some (c :: l) |} (t, w)) in
      pushed (fst after) = pushed t ++ [invalidCategoryError (lit "USER_FEEDBACK")]
      /\ consecutiveMistakeCount (fst after) = (consecutiveMistakeCount t + 1)%Z
      /\ snd after = w).
Proof.
  split; [vm_compute; tauto|]. split; [vm_compute; tauto|].
  split.
  - destruct (execute_invalid_category (lit "BUILD") c l t w)
      as (H1 & H2 & _ & H4); [reflexivity | reflexivity |].
    cbv zeta. auto.
  - destruct (execute_invalid_category (lit "USER_FEEDBACK") c l t w)
      as (H1 & H2 & _ & H4); [reflexivity | reflexivity |].
    cbv zeta. auto.
Qed.

(** The categories the tool takes are seven of the nine. *)
Lemma validCategories_of_LessonCategory :
  List.filter (fun category => negb (arr_includes validCategories category))
              ClaudeManager.LessonCategory
  = [lit "BUILD"; lit "USER_FEEDBACK"].
Proof. reflexivity. Qed.

(** With one of the seven, the tool does not count a mistake: it records
    the lesson, skips a duplicate, or hands the failure of the write to
    [handleError]. *)
Lemma execute_valid_category (category : jsstring) (c : N) (l : jsstring)
  (t : Task) (w : World) :
  present (Some category) = Some category ->
  arr_includes validCategories category = true ->
  let after := snd (execute {| category := Some category; lesson := Some (c :: l) |}
                            (t, w)) in
  consecutiveMistakeCount (fst after) = consecutiveMistakeCount t
  /\ (pushed (fst after)
        = pushed t ++ [toolResult (lit "Lesson recorded in CLAUDE.md under [" ++
                                   category ++ lit "]")]
      \/ pushed (fst after)
        = pushed t ++ [toolResult (lit "Lesson skipped (duplicate detected)")]
      \/ (pushed (fst after) = pushed t
          /\ exists e, handled (fst after) = handled t ++ [(lit "record lesson", e)])).
Proof.
  intros Hp Hv. unfold execute. cbn [RecordLessonTool.category RecordLessonTool.lesson].
  rewrite Hp. change (present (Some (c :: l))) with (Some (c :: l)).
  rewrite Hv. cbn [negb].
  unfold bind, tryCatch, get, onWorld. cbn [fst snd].
  destruct (ClaudeManager.recordLesson (cwd t) category (c :: l) w)
    as [[[|]|e] w1].
  - split; [reflexivity|]. left. reflexivity.
  - split; [reflexivity|]. right; left. reflexivity.
  - split; [reflexivity|]. right; right. split; [reflexivity|].
    exists e. reflexivity.
Qed.

(** A lesson under BUILD on an empty disk. *)
Example build_lesson_is_refused :
  let t := {| cwd := lit "/ws"; consecutiveMistakeCount := 0; toolErrors := [];
              didToolFailInCurrentTurn := false; pushed := []; handled := [];
              partialStateResets := 0 |} in
  let after := snd (execute {| category := Some (lit "BUILD");
                               lesson := Some (lit "Run the build before the tests") |}
                            (t, TraceStorageFacts.emptyWorld)) in
  pushed (fst after) = [invalidCategoryError (lit "BUILD")]
  /\ consecutiveMistakeCount (fst after) = 1%Z
  /\ toolErrors (fst after) = [lit "record_lesson"]
  /\ w_fs (snd after) = ∅.
Proof. vm_compute. repeat split. Qed.

End LessonFacts.

(* ===================================================================== *)
(** * Further properties of the modules *)
(* ===================================================================== *)

(** ** The hasher: the shape of a digest, ranges, line endings *)

Module HashingLaws.

Import Sha256 Hashing StringFacts HashingFacts.

Definition isLowerHex (c : N) : bool :=
  ((48 <=? c) && (c <=? 57)) || ((97 <=? c) && (c <=? 102)).

Lemma compress_length (h block : list N) : length (compress h block) = 8%nat.
Proof. reflexivity. Qed.

Lemma blocks_length (n : nat) (h bytes : list N) :
  length h = 8%nat -> length (blocks n h bytes) = 8%nat.
Proof.
  revert h bytes. induction n as [|n IH]; intros h bytes Hh.
  - exact Hh.
  - cbn [blocks]. apply IH. apply compress_length.
Qed.

Lemma hex_digit_lower (d : N) : d < 16 -> isLowerHex (hex_digit d) = true.
Proof.
  intros Hd. unfold hex_digit, isLowerHex.
  destruct (N.ltb_spec d 10).
  - replace (48 <=? 48 + d) with true by (symmetry; apply N.leb_le; lia).
    replace (48 + d <=? 57) with true by (symmetry; apply N.leb_le; lia).
    reflexivity.
  - replace (97 <=? 87 + d) with true by (symmetry; apply N.leb_le; lia).
    replace (87 + d <=? 102) with true by (symmetry; apply N.leb_le; lia).
    apply orb_true_r.
Qed.

Lemma nibble_bound (x : N) : N.land x 0xF < 16.
Proof.
  change 0xF with (N.ones 4). rewrite N.land_ones.
  apply N.mod_lt. discriminate.
Qed.

Lemma hex_of_shape (n : nat) (x : N) :
  length (hex_of n x) = n /\ forallb isLowerHex (hex_of n x) = true.
Proof.
  induction n as [|n [IHl IHf]]; [split; reflexivity|].
  cbn [hex_of length forallb]. split.
  - now rewrite IHl.
  - rewrite hex_digit_lower by apply nibble_bound. exact IHf.
Qed.

Lemma hex_words_shape (ws : list N) :
  length (flat_map (hex_of 8) ws) = (8 * length ws)%nat
  /\ forallb isLowerHex (flat_map (hex_of 8) ws) = true.
Proof.
  induction ws as [|w ws [IHl IHf]]; [split; reflexivity|].
  cbn [flat_map]. destruct (hex_of_shape 8 w) as [Hl Hf]. split.
  - rewrite length_app, Hl, IHl. cbn [length]. lia.
  - rewrite forallb_app, Hf, IHf. reflexivity.
Qed.

(** X1: whatever the content, [sha256] returns 64 characters, each a digit
    or a letter from [a] to [f]. *)
Theorem sha256_is_64_lower_hex (content : jsstring) :
  length (sha256 content) = 64%nat
  /\ forallb isLowerHex (sha256 content) = true.
Proof.
  unfold sha256, hex_digest.
  destruct (hex_words_shape (digest_words (utf8 (normalizeLineEndings content))))
    as [Hl Hf].
  split; [|exact Hf].
  rewrite Hl. unfold digest_words. now rewrite blocks_length.
Qed.

(** X2: a range that is inverted, that ends before line 1 or that starts
    after the last line holds no line: its hash is the digest of the empty
    string. *)
Theorem computeContentHash_no_line (content : jsstring) (startLine endLine : Z) :
  (endLine < startLine \/ endLine < 1 \/ line_count content < startLine)%Z ->
  computeContentHash content (Some startLine) (Some endLine)
  = lit "e3b0c44298fc1c149afbf4c8996fb92427ae41e4649b934ca495991b7852b855".
Proof.
  intros H. unfold computeContentHash, line_count in *.
  set (n := Z.of_nat (length (split [LF] (normalizeLineEndings content)))) in *.
  destruct (Z.geb_spec (Z.max 0 (startLine - 1)) (Z.min n endLine)) as [_|Hlt].
  - exact sha256_empty.
  - exfalso. lia.
Qed.

Lemma computeContentHash_no_line_witness :
  computeContentHash (lit "one" ++ [LF] ++ lit "two") (Some 3%Z) (Some 9%Z)
  = lit "e3b0c44298fc1c149afbf4c8996fb92427ae41e4649b934ca495991b7852b855".
Proof.
  apply computeContentHash_no_line. right; right. vm_compute. reflexivity.
Defined.

(** X3: bounds outside the content are clamped: a range that starts at or
    before line 1 and ends at or after the last line is the whole content. *)
Theorem computeContentHash_clamped (content : jsstring) (startLine endLine : Z) :
  (startLine <= 1)%Z -> (line_count content <= endLine)%Z ->
  computeContentHash content (Some startLine) (Some endLine) = sha256 content.
Proof.
  intros Hs He.
  rewrite <- (computeContentHash_from_1 content endLine He).
  unfold computeContentHash.
  replace (Z.max 0 (startLine - 1)) with (Z.max 0 (1 - 1)) by lia.
  reflexivity.
Qed.

Lemma computeContentHash_clamped_witness :
  computeContentHash (lit "one" ++ [CR; LF] ++ lit "two") (Some (-4)%Z) (Some 100%Z)
  = sha256 (lit "one" ++ [CR; LF] ++ lit "two").
Proof.
  apply computeContentHash_clamped; [lia | vm_compute; discriminate].
Defined.

(** X4: the hash of a range depends on the content only up to its line
    endings: two contents with the same normal form have the same hash for
    every range, given or omitted. *)
Theorem computeContentHash_line_endings (x y : jsstring)
  (startLine endLine : option Z) :
  normalizeLineEndings x = normalizeLineEndings y ->
  computeContentHash x startLine endLine = computeContentHash y startLine endLine.
Proof.
  intros H. unfold computeContentHash.
  rewrite <- (sha256_normalize x), <- (sha256_normalize y), H.
  reflexivity.
Qed.

Lemma computeContentHash_line_endings_witness :
  computeContentHash (lit "a" ++ [CR; LF] ++ lit "b" ++ [CR] ++ lit "c") (Some 2%Z) (Some 3%Z)
  = computeContentHash (lit "a" ++ [LF] ++ lit "b" ++ [LF] ++ lit "c") (Some 2%Z) (Some 3%Z).
Proof. apply computeContentHash_line_endings. reflexivity. Defined.

(** *** The line count of the recorder and the lines of the hasher *)

(** Every carriage return is followed by a line feed. *)
Fixpoint noLoneCR (s : jsstring) : bool :=
  match s with
  | [] => true
  | c :: rest =>
      if c =? CR then
        match rest with
        | d :: _ => (d =? LF) && noLoneCR rest
        | [] => false
        end
      else noLoneCR rest
  end.

Lemma split_go_length (c : N) (s cur : jsstring) :
  length (split_go [c] 0 cur s) = S (count_occ N.eq_dec s c).
Proof.
  revert cur. induction s as [|d s IH]; intros cur; [reflexivity|].
  cbn [split_go count_occ]. rewrite startsWith_single.
  destruct (N.eqb_spec c d) as [->|Hne].
  - destruct (N.eq_dec d d); [|congruence].
    cbn [length Nat.sub]. now rewrite IH.
  - destruct (N.eq_dec d c); [congruence|]. apply IH.
Qed.

(** Without a lone carriage return, dropping the carriage returns of the
    pairs leaves no carriage return and as many line feeds. *)
Lemma crlf_removed (n : nat) (s : jsstring) :
  (length s <= n)%nat -> noLoneCR s = true ->
  Forall (fun d => d <> CR) (replaceAll_go [CR; LF] [LF] 0 s)
  /\ count_occ N.eq_dec (replaceAll_go [CR; LF] [LF] 0 s) LF
     = count_occ N.eq_dec s LF.
Proof.
  revert s. induction n as [|n IH]; intros s Hlen Hs.
  - destruct s; [|cbn [length] in Hlen; lia]. split; [constructor | reflexivity].
  - destruct s as [|c rest]; [split; [constructor | reflexivity]|].
    cbn [length] in Hlen. cbn [noLoneCR] in Hs.
    cbn [replaceAll_go startsWith].
    destruct (N.eqb_spec c CR) as [->|Hc].
    + destruct rest as [|d rest']; [discriminate|].
      apply andb_true_iff in Hs. destruct Hs as [Hd Hrest].
      apply N.eqb_eq in Hd. subst d.
      change (CR =? CR) with true. cbn [andb startsWith].
      change (LF =? LF) with true. cbn [andb length Nat.sub app replaceAll_go].
      cbn [noLoneCR] in Hrest. change (LF =? CR) with false in Hrest.
      cbn [length] in Hlen.
      destruct (IH rest' ltac:(lia) Hrest) as [Hfree Hcount].
      split.
      * constructor; [discriminate | exact Hfree].
      * cbn [count_occ]. destruct (N.eq_dec LF LF); [|congruence].
        destruct (N.eq_dec CR LF); [discriminate|].
        now rewrite Hcount.
    + replace (CR =? c) with false
        by (symmetry; apply N.eqb_neq; congruence).
      cbn [andb].
      destruct (IH rest ltac:(lia) Hs) as [Hfree Hcount].
      split.
      * constructor; [exact Hc | exact Hfree].
      * cbn [count_occ]. destruct (N.eq_dec c LF); now rewrite Hcount.
Qed.

Lemma line_count_split (content : jsstring) :
  noLoneCR content = true ->
  line_count content = Z.of_nat (length (split [LF] content)).
Proof.
  intros H. unfold line_count, normalizeLineEndings, replaceAll.
  destruct (crlf_removed (length content) content (le_n _) H) as [Hfree Hcount].
  fold (replaceAll [CR] [LF] (replaceAll_go [CR; LF] [LF] 0 content)).
  rewrite (replaceAll_absent CR [] [LF] _ Hfree).
  unfold split. now rewrite !split_go_length, Hcount.
Qed.

(** X5: when every carriage return of the written content is followed by a
    line feed, the range the recorder hashes (line 1 to the number of pieces
    between line feeds) is the whole content: its hash is the digest of the
    content. *)
Theorem recorded_hash_is_content_digest (content : jsstring) :
  noLoneCR content = true ->
  computeContentHash content (Some 1%Z) (Some (WriteFilePostHook.lineCount content))
  = sha256 content.
Proof.
  intros H. apply computeContentHash_from_1.
  rewrite (line_count_split content H). unfold WriteFilePostHook.lineCount. lia.
Qed.

Lemma recorded_hash_is_content_digest_witness :
  computeContentHash (lit "a" ++ [CR; LF] ++ lit "b" ++ [LF])
    (Some 1%Z) (Some (WriteFilePostHook.lineCount (lit "a" ++ [CR; LF] ++ lit "b" ++ [LF])))
  = sha256 (lit "a" ++ [CR; LF] ++ lit "b" ++ [LF]).
Proof. apply recorded_hash_is_content_digest. reflexivity. Defined.

(** With a carriage return on its own the hasher sees more lines than the
    recorder counts, and the recorded hash covers the first of them only. *)
Example recorded_hash_with_lone_cr :
  let content := lit "a" ++ [CR] ++ lit "b" in
  WriteFilePostHook.lineCount content = 1%Z
  /\ line_count content = 2%Z
  /\ computeContentHash content (Some 1%Z) (Some (WriteFilePostHook.lineCount content))
     = sha256 (lit "a")
  /\ sha256 (lit "a") <> sha256 content.
Proof.
  split; [reflexivity|]. split; [reflexivity|].
  split; [vm_compute; reflexivity|].
  vm_compute. discriminate.
Qed.

End HashingLaws.

(** ** The mutation classifier: documentation, explicit classes, extremes *)

Module ClassifierLaws.

Import MutationClassifier ClassifierFacts.

(** X6: the classifier answers DOCUMENTATION exactly when the two contents
    are the same once comments are stripped (identical contents included). *)
Theorem documentation_iff_same_code (oldContent newContent : jsstring) :
  classifyMutation oldContent newContent = DOCUMENTATION
  <-> removeComments oldContent = removeComments newContent.
Proof.
  unfold classifyMutation, isDocumentationChange.
  destruct (str_eqb oldContent newContent) eqn:Hsame.
  - apply str_eqb_true in Hsame. subst. split; reflexivity.
  - cbn [negb]. rewrite andb_true_r.
    destruct (str_eqb (removeComments oldContent) (removeComments newContent)) eqn:Hcode.
    + apply str_eqb_true in Hcode. split; [intros _; exact Hcode | reflexivity].
    + assert (Hne : removeComments oldContent <> removeComments newContent).
      { intros E. apply str_eqb_true in E. congruence. }
      split; [|intros E; contradiction].
      destruct (isBugFix _); [discriminate|].
      destruct (negb _); discriminate.
Qed.

(** X7: [getMutationClass] returns the explicit class whenever it is the
    name of one of the four classes, whatever the contents; any other string
    (the comparison is case-sensitive), the empty string and an omitted class
    fall back to the classifier. *)
Theorem getMutationClass_explicit (oldContent newContent : jsstring) :
  (forall c, getMutationClass (Some (className c)) oldContent newContent = c)
  /\ (forall e, ~ In e (map className allClasses) ->
        getMutationClass (Some e) oldContent newContent
        = classifyMutation oldContent newContent)
  /\ getMutationClass None oldContent newContent
     = classifyMutation oldContent newContent.
Proof.
  split; [intros []; reflexivity|]. split; [|reflexivity].
  intros e He. unfold getMutationClass.
  destruct e as [|c e]; [reflexivity|].
  destruct (parseClass (c :: e)) as [k|] eqn:Hk; [|reflexivity].
  exfalso. apply He. unfold parseClass in Hk.
  apply find_some in Hk. destruct Hk as [Hin Heq].
  apply str_eqb_true in Heq. rewrite Heq. now apply in_map.
Qed.

Lemma getMutationClass_explicit_witness :
  getMutationClass (Some (lit "BUG_FIX")) (lit "a") (lit "a") = BUG_FIX
  /\ getMutationClass (Some (lit "bug_fix")) (lit "a") (lit "a")
     = classifyMutation (lit "a") (lit "a").
Proof.
  split.
  - exact (proj1 (getMutationClass_explicit (lit "a") (lit "a")) BUG_FIX).
  - apply (proj1 (proj2 (getMutationClass_explicit (lit "a") (lit "a")))).
    vm_compute. intros [H|[H|[H|[H|[]]]]]; discriminate H.
Defined.

(** X8: a change from or to the empty content is never classified
    AST_REFACTOR: its relative size is at least 1. *)
Theorem never_refactor_with_empty_side (oldContent newContent : jsstring) :
  oldContent = [] \/ newContent = [] ->
  classifyMutation oldContent newContent <> AST_REFACTOR.
Proof.
  intros Hempty. unfold classifyMutation.
  destruct (str_eqb oldContent newContent) eqn:Hsame; [discriminate|].
  destruct (isDocumentationChange _ _); [discriminate|].
  destruct (isBugFix _); [discriminate|].
  assert (Hne : oldContent <> newContent).
  { intros E. apply str_eqb_true in E. congruence. }
  assert (Hbig : Qle_bool (sizeChange oldContent newContent) (2 # 10) = false).
  { unfold sizeChange, len, Qle_bool. cbn [Qnum Qden].
    apply Z.leb_gt.
    destruct Hempty as [-> | ->].
    - destruct newContent as [|c s]; [congruence|].
      cbn [length]. change (Z.of_nat 0 =? 0)%Z with true. cbv iota.
      change (Z.pos (Z.to_pos 1)) with 1%Z. lia.
    - destruct oldContent as [|c s]; [congruence|].
      cbn [length].
      destruct (Z.eqb_spec (Z.of_nat (S (length s))) 0) as [E|_]; [lia|].
      rewrite Z2Pos.id by lia. lia. }
  rewrite Hbig. discriminate.
Qed.

Lemma never_refactor_with_empty_side_witness :
  classifyMutation [] (lit "x") <> AST_REFACTOR.
Proof. apply never_refactor_with_empty_side. left. reflexivity. Defined.

Lemma nothing_added (have lines : list jsstring) :
  (forall l, In l lines -> In l have) ->
  List.filter (fun l => negb (arr_includes have l)) lines = [].
Proof.
  intros H. induction lines as [|l lines IH]; [reflexivity|].
  cbn [List.filter].
  assert (Hin : arr_includes have l = true).
  { unfold arr_includes. apply existsb_exists. exists l.
    split; [apply H; now left | now apply str_eqb_true]. }
  rewrite Hin. cbn [negb]. apply IH. intros x Hx. apply H. now right.
Qed.

(** X9: when the two contents have the same lines (in any order and
    number), the same length and different code, the change is AST_REFACTOR:
    no line counts as added or removed, so no bug-fix word is seen, whatever
    the lines say. *)
Theorem reordered_lines_are_refactor (oldContent newContent : jsstring) :
  removeComments oldContent <> removeComments newContent ->
  (forall l, In l (split [LF] newContent) <-> In l (split [LF] oldContent)) ->
  length newContent = length oldContent ->
  classifyMutation oldContent newContent = AST_REFACTOR.
Proof.
  intros Hcode Hlines Hlen.
  assert (Hne : oldContent <> newContent) by (intros E; subst; congruence).
  assert (Hdiff : diffText oldContent newContent = lit "+" ++ [LF] ++ lit "-").
  { unfold diffText.
    rewrite (nothing_added (split [LF] oldContent) (split [LF] newContent))
      by (intros l; apply Hlines).
    rewrite (nothing_added (split [LF] newContent) (split [LF] oldContent))
      by (intros l; apply Hlines).
    reflexivity. }
  rewrite (classify_past_rules _ _ Hne Hcode)
    by (rewrite Hdiff; vm_compute; reflexivity).
  unfold sizeRatio, len. rewrite Hlen, Z.sub_diag. reflexivity.
Qed.

Lemma reordered_lines_are_refactor_witness :
  classifyMutation (lit "fix(a);" ++ [LF] ++ lit "log(b);")
                   (lit "log(b);" ++ [LF] ++ lit "fix(a);") = AST_REFACTOR.
Proof.
  apply reordered_lines_are_refactor.
  - vm_compute. discriminate.
  - intros l. vm_compute. tauto.
  - reflexivity.
Defined.

End ClassifierLaws.

(** ** The revision probe: what the cache does *)

Module GitLaws.

Import State Git.

(** The call consults git: nothing is cached for the root, or what is cached
    has expired. *)
Definition cacheMiss (root : jsstring) (w : World) : Prop :=
  match w_gitCache w !! root with
  | Some cached => (CACHE_TTL_MS <= w_now w - cachedAt cached)%Z
  | None => True
  end.

(** X10: after a call that consulted git, every call made less than
    [CACHE_TTL_MS] (5000 ms) later returns the same revision and changes
    nothing, whatever [git rev-parse HEAD] would print by then: a new commit,
    or a repository created after an "unknown" answer, is not seen until the
    entry expires. *)
Theorem revision_is_cached_for_ttl (root r : jsstring) (w w1 later : World) :
  cacheMiss root w ->
  getCurrentRevision root w = (Returns r, w1) ->
  w_gitCache later = w_gitCache w1 ->
  (w_now later - w_now w < CACHE_TTL_MS)%Z ->
  getCurrentRevision root later = (Returns r, later).
Proof.
  unfold cacheMiss, getCurrentRevision, bind, dateNow, get, modify, ret.
  intros Hmiss Hcall Hcache Hsoon.
  assert (Hentry : w_gitCache w1 !! root = Some {| revision := r; cachedAt := w_now w |}).
  { destruct (w_gitCache w !! root) as [cached|].
    - destruct (Z.ltb_spec (w_now w - cachedAt cached) CACHE_TTL_MS) as [Hlt|_]; [lia|].
      inversion Hcall; subst. cbn [w_gitCache set_gitCache]. apply lookup_insert_eq.
    - inversion Hcall; subst. cbn [w_gitCache set_gitCache]. apply lookup_insert_eq. }
  rewrite Hcache, Hentry. cbn [cachedAt revision].
  destruct (Z.ltb_spec (w_now later - w_now w) CACHE_TTL_MS) as [_|Hge]; [reflexivity | lia].
Qed.

Definition startWorld : World :=
  {| w_fs := ∅; w_now := 1000; w_nowISO := []; w_uuids := [];
     w_snapshots := ∅; w_gitHead := ∅; w_gitCache := ∅ |}.

(** Outside a repository the answer is "unknown"; 4999 ms later, with a
    repository in place, it still is. *)
Lemma revision_is_cached_for_ttl_witness :
  let root := lit "/ws" in
  let w1 := snd (getCurrentRevision root startWorld) in
  let later :=
    {| w_fs := ∅; w_now := 5999; w_nowISO := []; w_uuids := [];
       w_snapshots := ∅; w_gitHead := {[ root := lit "0123abc" ++ [LF] ]};
       w_gitCache := w_gitCache w1 |} in
  getCurrentRevision root later = (Returns (lit "unknown"), later).
Proof.
  intros root w1 later.
  apply (revision_is_cached_for_ttl root (lit "unknown") startWorld w1 later).
  - exact I.
  - reflexivity.
  - reflexivity.
  - vm_compute. reflexivity.
Defined.

(** Once the entry has expired the revision is read again. *)
Example revision_after_ttl :
  let root := lit "/ws" in
  let w1 := snd (getCurrentRevision root startWorld) in
  let later :=
    {| w_fs := ∅; w_now := 6000; w_nowISO := []; w_uuids := [];
       w_snapshots := ∅; w_gitHead := {[ root := lit "0123abc" ++ [LF] ]};
       w_gitCache := w_gitCache w1 |} in
  fst (getCurrentRevision root later) = Returns (lit "0123abc").
Proof. vm_compute. reflexivity. Qed.

End GitLaws.

(** ** The snapshot tracker: capture, verification, release, expiry *)

Module FileStateLaws.

Import Fs State FileState.

(** What a successful capture from disk leaves behind. *)
Lemma takeSnapshotFromDisk_success (filePath agent root h : jsstring)
  (w w1 : World) :
  takeSnapshotFromDisk filePath agent root w = (Returns h, w1) ->
  exists content,
    readFile (w_fs w) (pathOf (absolutePath filePath root)) = Returns content
    /\ h = Hashing.sha256 content
    /\ w1 = set_snapshots
              (<[normalizePath filePath root :=
                   {| hash := h; agentId := agent; timestamp := w_now w;
                      filePath := normalizePath filePath root |}]> (w_snapshots w)) w.
Proof.
  unfold takeSnapshotFromDisk, tryCatch, bind, fsRead, takeSnapshot, dateNow,
    modify, ret, throw.
  destruct (readFile (w_fs w) (pathOf (absolutePath filePath root)))
    as [content|e]; [|discriminate].
  intros H. inversion H; subst. exists content. auto.
Qed.

(** X11: after a capture from disk, [verifySnapshot] on any later disk, for
    any holder, answers [true] exactly when the file can be read and its
    digest is the captured one; a file that has become unreadable counts as
    stale. *)
Theorem verify_after_capture (filePath agent holder root h : jsstring)
  (w w1 : World) (disk : FS) :
  takeSnapshotFromDisk filePath agent root w = (Returns h, w1) ->
  verifySnapshot filePath holder root (set_fs disk w1)
  = (Returns match readFile disk (pathOf (absolutePath filePath root)) with
             | Returns current => str_eqb (Hashing.sha256 current) h
             | Throws _ => false
             end,
     set_fs disk w1).
Proof.
  intros Hcap.
  destruct (takeSnapshotFromDisk_success _ _ _ _ _ _ Hcap) as (content & _ & _ & ->).
  unfold verifySnapshot, bind, get, tryCatch, fsRead, ret.
  cbn [w_snapshots set_snapshots set_fs w_fs]. rewrite lookup_insert_eq.
  cbn [w_fs set_fs hash].
  destruct (readFile disk (pathOf (absolutePath filePath root))); reflexivity.
Qed.

Lemma verify_after_capture_witness :
  let w1 := snd (takeSnapshotFromDisk FileStateFacts.aPath (lit "a1")
                   FileStateFacts.root FileStateFacts.initial) in
  verifySnapshot FileStateFacts.aPath (lit "a1") FileStateFacts.root
    (set_fs (w_fs FileStateFacts.initial) w1)
  = (Returns true, set_fs (w_fs FileStateFacts.initial) w1).
Proof.
  intros w1.
  exact (verify_after_capture FileStateFacts.aPath (lit "a1") (lit "a1")
           FileStateFacts.root
           (Hashing.sha256 (lit "x = 1" ++ [LF]))
           FileStateFacts.initial w1 (w_fs FileStateFacts.initial) eq_refl).
Defined.

(** X12: a snapshot is released by its owner only.  After a capture by
    [agent], [releaseSnapshot] by another holder changes nothing; by [agent]
    it removes the snapshot, after which [verifySnapshot] answers [true]
    whatever the disk holds. *)
Theorem release_by_owner_only (filePath agent other root h : jsstring)
  (w w1 : World) :
  takeSnapshotFromDisk filePath agent root w = (Returns h, w1) ->
  (other <> agent -> releaseSnapshot filePath other root w1 = (Returns tt, w1))
  /\ (forall disk holder,
        let released := snd (releaseSnapshot filePath agent root w1) in
        w_snapshots released !! normalizePath filePath root = None
        /\ fst (verifySnapshot filePath holder root (set_fs disk released))
           = Returns true).
Proof.
  intros Hcap.
  destruct (takeSnapshotFromDisk_success _ _ _ _ _ _ Hcap) as (content & _ & _ & ->).
  split.
  - intros Hne. unfold releaseSnapshot, bind, get, ret.
    cbn [w_snapshots set_snapshots]. rewrite lookup_insert_eq. cbn [agentId].
    unfold str_eqb. rewrite bool_decide_eq_false_2 by congruence. reflexivity.
  - intros disk holder. unfold releaseSnapshot, bind, get, modify.
    cbn [w_snapshots set_snapshots]. rewrite lookup_insert_eq. cbn [agentId].
    unfold str_eqb. rewrite bool_decide_eq_true_2 by reflexivity.
    cbn [snd w_snapshots set_snapshots]. rewrite lookup_delete_eq.
    split; [reflexivity|].
    unfold verifySnapshot, bind, get, ret.
    cbn [w_snapshots set_snapshots set_fs]. rewrite lookup_delete_eq. reflexivity.
Qed.

Lemma release_by_owner_only_witness :
  let w1 := snd (takeSnapshotFromDisk FileStateFacts.aPath (lit "a1")
                   FileStateFacts.root FileStateFacts.initial) in
  releaseSnapshot FileStateFacts.aPath (lit "a2") FileStateFacts.root w1
  = (Returns tt, w1).
Proof.
  intros w1.
  apply (proj1 (release_by_owner_only FileStateFacts.aPath (lit "a1") (lit "a2")
                  FileStateFacts.root (Hashing.sha256 (lit "x = 1" ++ [LF]))
                  FileStateFacts.initial w1 eq_refl)).
  discriminate.
Defined.

(** X13: the baseline expires.  A snapshot older than [maxAgeMs] at the time
    of [cleanupStaleSnapshots] is dropped, and from then on [verifySnapshot]
    answers [true] for its path whatever the disk holds; a snapshot of age
    [maxAgeMs] or less is kept. *)
Theorem cleanup_drops_old_baseline (filePath agent holder root h : jsstring)
  (w w1 : World) (now maxAgeMs : Z) (disk : FS) :
  takeSnapshotFromDisk filePath agent root w = (Returns h, w1) ->
  let w2 := {| w_fs := disk; w_now := now; w_nowISO := w_nowISO w1;
               w_uuids := w_uuids w1; w_snapshots := w_snapshots w1;
               w_gitHead := w_gitHead w1; w_gitCache := w_gitCache w1 |} in
  let cleaned := snd (cleanupStaleSnapshots maxAgeMs w2) in
  ((now - w_now w > maxAgeMs)%Z ->
   w_snapshots cleaned !! normalizePath filePath root = None
   /\ fst (verifySnapshot filePath holder root cleaned) = Returns true)
  /\ ((now - w_now w <= maxAgeMs)%Z ->
      w_snapshots cleaned !! normalizePath filePath root
      = w_snapshots w1 !! normalizePath filePath root).
Proof.
  intros Hcap w2 cleaned.
  destruct (takeSnapshotFromDisk_success _ _ _ _ _ _ Hcap) as (content & _ & _ & Hw1).
  assert (Hsnap : w_snapshots w1 !! normalizePath filePath root
                  = Some {| hash := h; agentId := agent; timestamp := w_now w;
                            filePath := normalizePath filePath root |}).
  { rewrite Hw1. cbn [w_snapshots set_snapshots]. apply lookup_insert_eq. }
  subst cleaned. unfold cleanupStaleSnapshots, bind, dateNow, modify.
  cbn [snd w_snapshots set_snapshots w_now w2].
  split.
  - intros Hold.
    assert (Hgone : filter (fun kv : jsstring * FileSnapshot =>
                              ~ (now - timestamp (snd kv) > maxAgeMs)%Z)
                           (w_snapshots w1) !! normalizePath filePath root = None).
    { apply map_lookup_filter_None. right. intros s Hs Hkeep.
      rewrite Hsnap in Hs. inversion Hs; subst. cbn [snd timestamp] in Hkeep. lia. }
    split; [exact Hgone|].
    unfold verifySnapshot, bind, get, ret. cbn [w_snapshots set_snapshots].
    rewrite Hgone. reflexivity.
  - intros Hyoung. rewrite Hsnap.
    apply map_lookup_filter_Some. split; [exact Hsnap|].
    cbn [snd timestamp]. lia.
Qed.

Lemma cleanup_drops_old_baseline_witness :
  let w1 := snd (takeSnapshotFromDisk FileStateFacts.aPath (lit "a1")
                   FileStateFacts.root FileStateFacts.initial) in
  let w2 := {| w_fs := ∅; w_now := 301001; w_nowISO := w_nowISO w1;
               w_uuids := w_uuids w1; w_snapshots := w_snapshots w1;
               w_gitHead := w_gitHead w1; w_gitCache := w_gitCache w1 |} in
  let cleaned := snd (cleanupStaleSnapshots DEFAULT_MAX_AGE w2) in
  w_snapshots cleaned !! normalizePath FileStateFacts.aPath FileStateFacts.root = None
  /\ fst (verifySnapshot FileStateFacts.aPath (lit "a1") FileStateFacts.root cleaned)
     = Returns true.
Proof.
  intros w1 w2 cleaned.
  apply (proj1 (cleanup_drops_old_baseline FileStateFacts.aPath (lit "a1") (lit "a1")
                  FileStateFacts.root (Hashing.sha256 (lit "x = 1" ++ [LF]))
                  FileStateFacts.initial w1 301001 DEFAULT_MAX_AGE ∅ eq_refl)).
  vm_compute. reflexivity.
Defined.

End FileStateLaws.

(** ** The ledger: lines, sequences of appends, clearing *)

Module TraceStorageLaws.

Import Fs State Trace TraceStorage StringFacts JsonFacts TraceFacts
       TraceStorageFacts RecorderFacts.

(** X14: the log is read line by line: the entries of a log [a], a line
    feed and a log [b] are the entries of [a] followed by those of [b], so a
    line that is blank, is not JSON or is not a valid entry costs its
    neighbours nothing. *)
Theorem readTraceLog_linewise (root : jsstring) (w : World) (a b : jsstring) :
  w_fs w !! getTracePath root = Some (File (a ++ [LF] ++ b)) ->
  readTraceLog root w = (Returns (entriesOf a ++ entriesOf b), w).
Proof.
  intros H. rewrite (readTraceLog_file _ _ _ H). f_equal. f_equal.
  rewrite !entriesOf_lines. cbn [app]. rewrite split_app.
  now rewrite List.filter_app, List.map_app, List.filter_app.
Qed.

(** A line that is not JSON before a valid entry. *)
Lemma readTraceLog_linewise_witness :
  let root := lit "/ws" in
  let w := set_fs {[ getTracePath root :=
                       File (lit "not json" ++ [LF]
                             ++ (Json.stringify (toJS (sampleEntry "valid")) ++ [LF])) ]}
                  emptyWorld in
  readTraceLog root w
  = (Returns (entriesOf (lit "not json")
              ++ entriesOf (Json.stringify (toJS (sampleEntry "valid")) ++ [LF])), w)
  /\ entriesOf (lit "not json") = []
  /\ entriesOf (Json.stringify (toJS (sampleEntry "valid")) ++ [LF])
     = [toJS (sampleEntry "valid")].
Proof.
  intros root w. split; [|split; vm_compute; reflexivity].
  apply (readTraceLog_linewise root w (lit "not json")
           (Json.stringify (toJS (sampleEntry "valid")) ++ [LF])).
  reflexivity.
Defined.









End TraceStorageLaws.

(** ** The lessons file: appending, duplicates *)

Module LessonLaws.

Import Fs State ClaudeManager StringFacts.

(** *** Substrings, trimming, pieces *)





Lemma dropWhile_suffix {A} (p : A -> bool) (l : list A) :
  exists a, l = a ++ dropWhile p l.
Proof.
  induction l as [|x l [a IH]]; [now exists []|].
  cbn [dropWhile]. destruct (p x).
  - exists (x :: a). cbn [app]. now f_equal.
  - now exists [].
Qed.















(** *** The file *)










Definition lessonWorld : World :=
  {| w_fs := ∅; w_now := 0; w_nowISO := lit "2026-02-21T12:00:00.000Z";
     w_uuids := []; w_snapshots := ∅; w_gitHead := ∅; w_gitCache := ∅ |}.


(** A lesson that holds the separator is cut at it in the file, is not found
    again, and is recorded a second time. *)
Example lesson_with_separator_is_repeated :
  let lesson := lit "use --- between sections" in
  let w1 := snd (recordLesson (lit "/ws") (lit "STYLE") lesson lessonWorld) in
  fst (recordLesson (lit "/ws") (lit "STYLE") lesson lessonWorld) = Returns true
  /\ fst (recordLesson (lit "/ws") (lit "STYLE") lesson w1) = Returns true.
Proof. split; vm_compute; reflexivity. Qed.

End LessonLaws.

(** ** The record_lesson tool: one answer per call *)

Module LessonToolLaws.

Import State RecordLessonTool.

(** X20: [execute] never throws, whatever the parameters, the task and the
    disk: it answers each call exactly once, by a pushed result or by
    handing the failure to [handleError], and resets the partial state once. *)
Theorem execute_answers_once (params : Params) (t : Task) (w : World) :
  let after := snd (execute params (t, w)) in
  fst (execute params (t, w)) = Returns tt
  /\ (length (pushed (fst after)) + length (handled (fst after))
      = S (length (pushed t) + length (handled t)))%nat
  /\ partialStateResets (fst after) = S (partialStateResets t).
Proof.
  unfold execute.
  destruct (present (category params)) as [category|];
    [destruct (present (lesson params)) as [lesson|]|].
  - destruct (arr_includes validCategories category).
    + cbn [negb]. unfold bind, tryCatch, get, onWorld. cbn [fst snd].
      destruct (ClaudeManager.recordLesson (cwd t) category lesson w)
        as [[[|]|e] w1]; cbn [fst snd pushToolResult handleError onTask
                                resetPartialState pushed handled
                                partialStateResets];
        rewrite ?length_app; cbn [length]; (split; [reflexivity|]);
        (split; [lia | reflexivity]).
    + cbn [negb]. cbn [fst snd bind tryCatch pushToolResult recordMistake onTask
                         resetPartialState pushed handled partialStateResets].
      rewrite ?length_app. cbn [length]. split; [reflexivity|].
      split; [lia | reflexivity].
  - cbn [fst snd bind tryCatch pushToolResult recordMistake onTask
           resetPartialState pushed handled partialStateResets].
    rewrite ?length_app. cbn [length]. split; [reflexivity|].
    split; [lia | reflexivity].
  - cbn [fst snd bind tryCatch pushToolResult recordMistake onTask
           resetPartialState pushed handled partialStateResets].
    rewrite ?length_app. cbn [length]. split; [reflexivity|].
    split; [lia | reflexivity].
Qed.

Definition freshTask : Task :=
  {| cwd := lit "/ws"; consecutiveMistakeCount := 0; toolErrors := [];
     didToolFailInCurrentTurn := false; pushed := []; handled := [];
     partialStateResets := 0 |}.

(** A lessons path that is a directory: the failure goes to [handleError],
    nothing is pushed and no mistake is counted. *)
Example execute_on_unreadable_file :
  let w := set_fs {[ ClaudeManager.orchestrationPath (lit "/ws") := Fs.Dir;
                     ClaudeManager.getClaudePath (lit "/ws") := Fs.Dir ]}
                  TraceStorageFacts.emptyWorld in
  let after := snd (execute {| category := Some (lit "TESTING");
                               lesson := Some (lit "mock the clock") |}
                            (freshTask, w)) in
  pushed (fst after) = []
  /\ handled (fst after) = [(lit "record lesson", ErrnoException EISDIR)]
  /\ consecutiveMistakeCount (fst after) = 0%Z.
Proof. vm_compute. repeat split. Qed.

End LessonToolLaws.

(** ** The post-write recorder: failures *)

Module RecorderLaws.

Import Fs State Trace TraceStorage TraceStorageFacts RecorderFacts WriteFilePostHook.

Lemma swallow_returns {W} (m : M W unit) (w : W) :
  fst (tryCatch m (fun _ => ret tt) w) = Returns tt.
Proof. unfold tryCatch. now destruct (m w) as [[[]|e] w1]. Qed.

(** X21: the recorder never throws, whatever the arguments and the state of
    the disk, and without an intent (none, [null] or the empty string) it does
    nothing at all. *)
Theorem recorder_never_throws (args : Args) (context : Context) (w : World) :
  fst (writeFilePostHook args context w) = Returns tt
  /\ (present (intentId context) = None -> writeFilePostHook args context w
                                           = (Returns tt, w)).
Proof.
  unfold writeFilePostHook.
  destruct (present (intentId context)) as [intent|].
  - split; [apply swallow_returns | discriminate].
  - split; reflexivity.
Qed.

Lemma bind_throws {W A B} (m : M W A) (k : A -> M W B) (w w1 : W) (e : Exn) :
  m w = (Throws e, w1) -> bind m k w = (Throws e, w1).
Proof. intros H. unfold bind. now rewrite H. Qed.

(** The steps before the append change the caches only. *)
Lemma getCurrentRevision_frame (root : jsstring) (w : World) :
  exists rev w1,
    Git.getCurrentRevision root w = (Returns rev, w1)
    /\ w_fs w1 = w_fs w /\ w_snapshots w1 = w_snapshots w.
Proof.
  unfold Git.getCurrentRevision, bind, dateNow, get.
  destruct (w_gitCache w !! root) as [cached|].
  - destruct (_ <? _)%Z; eexists _, _; repeat split.
  - eexists _, _; repeat split.
Qed.

Lemma uuidv4_frame (w : World) :
  exists u w1, uuidv4 w = (Returns u, w1)
               /\ w_fs w1 = w_fs w /\ w_snapshots w1 = w_snapshots w.
Proof.
  unfold uuidv4. destruct (w_uuids w); eexists _, _; repeat split.
Qed.

(** The world in which the recorder reaches the append, and what is left to
    do from there. *)
Lemma recorder_reaches_append (args : Args) (context : Context) (w : World)
  (intent : jsstring) :
  let root := match workspaceRoot context with Some r => r | None => [] end in
  present (intentId context) = Some intent ->
  exists (entry : TraceEntry) (w2 : World),
    w_fs w2 = w_fs w /\ w_snapshots w2 = w_snapshots w
    /\ snd (writeFilePostHook args context w)
       = snd ((do! appendToTraceLog root (toJS entry) in
               do! IntentMap.updateIntentMap root intent (path args) None in
               match present (agentId context), present (Some root) with
               | Some agentId, Some _ =>
                   tryCatch (FileState.releaseSnapshot (path args) agentId root)
                            (fun _ => ret tt)
               | _, _ => ret tt
               end) w2).
Proof.
  intros root Hi. unfold writeFilePostHook. rewrite Hi. cbv zeta. fold root.
  rewrite swallow_state.
  destruct (getCurrentRevision_frame root w) as (rev & w1 & Hrev & Hfs1 & Hs1).
  rewrite (bind_returns _ _ _ _ _ Hrev).
  set (urlStep := match sessionId context with
                  | Some s => ret s
                  | None => bind dateNow (fun now => ret (lit "session://" ++ Json.digitsOfZ now))
                  end).
  assert (Hurl : exists url, urlStep w1 = (Returns url, w1)).
  { unfold urlStep. destruct (sessionId context); eexists; reflexivity. }
  destruct Hurl as [url Hurl].
  rewrite (bind_returns _ _ _ _ _ Hurl).
  destruct (uuidv4_frame w1) as (u & w2 & Hu & Hfs2 & Hs2).
  rewrite (bind_returns _ _ _ _ _ Hu).
  rewrite (bind_returns dateISO _ w2 w2 (w_nowISO w2) eq_refl).
  eexists _, w2. split; [congruence|]. split; [congruence|]. reflexivity.
Qed.

(** An append to a log that is a directory or cannot be accessed throws,
    after at most creating the orchestration directory. *)
Lemma append_throws (root : jsstring) (entry : Value) (w : World) :
  (w_fs w !! getTracePath root = Some Dir
   \/ exists code, w_fs w !! getTracePath root = Some (Faulty code)) ->
  exists e w',
    appendToTraceLog root entry w = (Throws e, w')
    /\ w_snapshots w' = w_snapshots w
    /\ forall p, p <> orchestrationPath root -> w_fs w' !! p = w_fs w !! p.
Proof.
  intros Hlog. unfold appendToTraceLog.
  destruct (isValidTraceEntry entry); cbn [negb];
    [|eexists _, w; repeat split].
  unfold bind.
  destruct (ensureOrchestrationDir_cases root w)
    as [[e He] | [[He Ho] | [He Ho]]]; rewrite He.
  - eexists _, w. repeat split.
  - unfold tryCatch, fsUpdate, appendFile, throw.
    destruct Hlog as [Hlog | [code Hlog]]; rewrite Hlog;
      eexists _, w; repeat split.
  - unfold tryCatch, fsUpdate, appendFile, throw. cbn [w_fs set_fs].
    rewrite lookup_insert_ne by apply paths_differ.
    destruct Hlog as [Hlog | [code Hlog]]; rewrite Hlog;
      eexists _, _; (split; [reflexivity|]); (split; [reflexivity|]);
      intros p Hp; cbn [w_fs set_fs]; apply lookup_insert_ne; congruence.
Qed.

(** X22: no map entry without a ledger row.  When the log cannot be
    appended to (its path is a directory, or cannot be accessed), the recorder
    stops there: the intent map is not touched and no snapshot is released;
    at most the orchestration directory has been created. *)
Theorem ledger_failure_stops_recorder (args : Args) (context : Context) (w : World)
  (intent : jsstring) :
  let root := match workspaceRoot context with Some r => r | None => [] end in
  present (intentId context) = Some intent ->
  (w_fs w !! getTracePath root = Some Dir
   \/ exists code, w_fs w !! getTracePath root = Some (Faulty code)) ->
  let after := snd (writeFilePostHook args context w) in
  w_snapshots after = w_snapshots w
  /\ w_fs after !! IntentMap.getMapPath root = w_fs w !! IntentMap.getMapPath root
  /\ forall p, p <> orchestrationPath root -> w_fs after !! p = w_fs w !! p.
Proof.
  intros root Hi Hlog after.
  destruct (recorder_reaches_append args context w intent Hi)
    as (entry & w2 & Hfs & Hsnap & Hrun).
  fold root in Hrun. subst after. rewrite Hrun.
  destruct (append_throws root (toJS entry) w2) as (e & w3 & Happ & Hs3 & Hfs3).
  { now rewrite Hfs. }
  rewrite (bind_throws _ _ _ _ _ Happ). cbn [snd].
  split; [congruence|].
  assert (Hall : forall p, p <> orchestrationPath root -> w_fs w3 !! p = w_fs w !! p).
  { intros p Hp. rewrite (Hfs3 p Hp). now rewrite Hfs. }
  split; [|exact Hall].
  apply Hall. unfold IntentMap.getMapPath, IntentMap.orchestrationPath,
    orchestrationPath, pathJoin, pathOf. cbn [fst snd app].
  intros E. inversion E.
Qed.

Lemma ledger_failure_stops_recorder_witness :
  let w := set_fs (<[getTracePath s1Root := Dir]> (w_fs s1Written)) s1Written in
  let after := snd (writeFilePostHook s1Args s1Context w) in
  w_snapshots after = w_snapshots w
  /\ w_fs after !! IntentMap.getMapPath s1Root = w_fs w !! IntentMap.getMapPath s1Root
  /\ forall p, p <> orchestrationPath s1Root -> w_fs after !! p = w_fs w !! p.
Proof.
  intros w.
  apply (ledger_failure_stops_recorder s1Args s1Context w (lit "INT-001")).
  - reflexivity.
  - left. reflexivity.
Defined.

(** An update of a map whose path is a directory throws and changes
    nothing, once the orchestration directory is there. *)
Lemma updateIntentMap_throws (root intent filePath : jsstring) (w : World) :
  w_fs w !! IntentMap.getMapPath root = Some Dir ->
  w_fs w !! orchestrationPath root <> None ->
  (forall code, w_fs w !! orchestrationPath root <> Some (Faulty code)) ->
  IntentMap.updateIntentMap root intent filePath None w
  = (Throws (ErrnoException EISDIR), w).
Proof.
  intros Hmap Hdir Hok. unfold IntentMap.updateIntentMap.
  unfold bind at 1. unfold IntentMap.ensureOrchestrationDir, tryCatch at 1,
    fsAccess, access.
  change (IntentMap.orchestrationPath root) with (orchestrationPath root).
  destruct (w_fs w !! orchestrationPath root) as [[c| |code]|] eqn:Ho;
    try congruence; try (exfalso; exact (Hok code eq_refl));
    (unfold bind at 1; unfold tryCatch, bind, fsRead, readFile;
     rewrite Hmap; reflexivity).
Qed.

(** After a successful append the orchestration directory is there. *)
Lemma dir_after_append (root : jsstring) (entry : Value) (w w' : World) :
  appendable root (w_fs w) ->
  appendToTraceLog root entry w = (Returns tt, w') ->
  w_fs w' !! orchestrationPath root = Some Dir.
Proof.
  intros [Ho _] Happ. unfold appendToTraceLog in Happ.
  destruct (isValidTraceEntry entry); cbn [negb] in Happ; [|discriminate].
  unfold bind in Happ.
  destruct (ensureOrchestrationDir_cases root w)
    as [[e He] | [[He Hsome] | [He Hnone]]]; rewrite He in Happ; [discriminate| |].
  - unfold tryCatch, fsUpdate, throw in Happ.
    destruct (appendFile (w_fs w) (getTracePath root) _) as [fs'|e] eqn:Ha;
      [|discriminate].
    apply appendFile_success in Ha. destruct Ha as (c0 & _ & ->).
    inversion Happ; subst. cbn [w_fs set_fs].
    rewrite lookup_insert_ne by (intros E; exact (paths_differ root (eq_sym E))).
    destruct Ho as [Ho|Ho]; [congruence | exact Ho].
  - unfold tryCatch, fsUpdate, throw in Happ. cbn [w_fs set_fs] in Happ.
    destruct (appendFile _ (getTracePath root) _) as [fs'|e] eqn:Ha;
      [|discriminate].
    apply appendFile_success in Ha. destruct Ha as (c0 & _ & ->).
    inversion Happ; subst. cbn [w_fs set_fs].
    rewrite lookup_insert_ne by (intros E; exact (paths_differ root (eq_sym E))).
    apply lookup_insert_eq.
Qed.

(** X23: no rollback.  When the log can be appended to but the intent map
    cannot be read because its path is a directory, the ledger keeps the new
    row although the map was not updated, and the snapshot of the writer is
    not released. *)
Theorem map_failure_keeps_ledger_row (args : Args) (context : Context) (w : World)
  (intent : jsstring) :
  let root := match workspaceRoot context with Some r => r | None => [] end in
  present (intentId context) = Some intent ->
  appendable root (w_fs w) ->
  (forall c, ledger w root = Some c -> terminated c) ->
  w_fs w !! IntentMap.getMapPath root = Some Dir ->
  let after := snd (writeFilePostHook args context w) in
  (exists (entry : TraceEntry) (prior : list Value),
      fst (readTraceLog root w) = Returns prior
      /\ fst (readTraceLog root after) = Returns (prior ++ [toJS entry]))
  /\ w_fs after !! IntentMap.getMapPath root = Some Dir
  /\ w_snapshots after = w_snapshots w.
Proof.
  intros root Hi Happ Hterm Hmap after.
  split.
  { destruct (recorder_appends args context w intent Hi Happ Hterm)
      as (entry & conversation & prior & Hbefore & Hafter & _).
    exists entry, prior. split; [exact Hbefore | exact Hafter]. }
  destruct (recorder_reaches_append args context w intent Hi)
    as (entry & w2 & Hfs & Hsnap & Hrun).
  fold root in Hrun. subst after. rewrite Hrun.
  destruct (append_returns root entry w2) as [w3 Hw3]; [now rewrite Hfs|].
  rewrite (bind_returns _ _ _ _ _ Hw3).
  destruct (append_success _ _ _ _ Hw3) as (_ & fs1 & c0 & Hfs1 & _ & Hw3').
  assert (Hne1 : getTracePath root <> IntentMap.getMapPath root).
  { intros E. exact (mapPath_differs root (eq_sym E)). }
  assert (Hne2 : orchestrationPath root <> IntentMap.getMapPath root).
  { unfold IntentMap.getMapPath, IntentMap.orchestrationPath, orchestrationPath,
      pathJoin, pathOf. cbn [fst snd app]. intros E. inversion E. }
  assert (Hmap3 : w_fs w3 !! IntentMap.getMapPath root = Some Dir).
  { rewrite Hw3'. cbn [w_fs set_fs]. rewrite lookup_insert_ne by exact Hne1.
    destruct Hfs1 as [-> | ->].
    - now rewrite Hfs.
    - rewrite lookup_insert_ne by exact Hne2. now rewrite Hfs. }
  assert (Hdir3 : w_fs w3 !! orchestrationPath root = Some Dir).
  { apply (dir_after_append root (toJS entry) w2 w3); [now rewrite Hfs | exact Hw3]. }
  rewrite (bind_throws _ _ _ _ _
             (updateIntentMap_throws root intent (path args) w3 Hmap3
                ltac:(rewrite Hdir3; discriminate)
                ltac:(intros code; rewrite Hdir3; discriminate))).
  cbn [snd]. split; [exact Hmap3|].
  rewrite Hw3'. cbn [w_snapshots set_fs]. exact Hsnap.
Qed.

Lemma map_failure_keeps_ledger_row_witness :
  let w := set_fs (<[IntentMap.getMapPath s1Root := Dir]> (w_fs s1Written)) s1Written in
  let after := snd (writeFilePostHook s1Args s1Context w) in
  (exists (entry : TraceEntry) (prior : list Value),
      fst (readTraceLog s1Root w) = Returns prior
      /\ fst (readTraceLog s1Root after) = Returns (prior ++ [toJS entry]))
  /\ w_fs after !! IntentMap.getMapPath s1Root = Some Dir
  /\ w_snapshots after = w_snapshots w.
Proof.
  intros w.
  apply (map_failure_keeps_ledger_row s1Args s1Context w (lit "INT-001")).
  - reflexivity.
  - split; left; vm_compute; reflexivity.
  - intros c Hc. vm_compute in Hc. discriminate Hc.
  - vm_compute. reflexivity.
Defined.

(** In that world the snapshot agent a1 took before writing is still held
    after the recorder has run. *)
Example snapshot_survives_map_failure :
  let w := set_fs (<[IntentMap.getMapPath s1Root := Dir]> (w_fs s1Written)) s1Written in
  FileStateFacts.holds (snd (writeFilePostHook s1Args s1Context w))
    (lit "src/a.ts") s1Root (lit "a1") = true.
Proof. vm_compute. reflexivity. Qed.

End RecorderLaws.

(** ** The write gatekeeper with the snapshot tracker behind it *)

Module GatekeeperLaws.

Import Fs State WriteFilePreHook.

(** X24: a stale write is blocked before anything else is looked at.  After
    [agent] has captured the file from disk, on any later disk where the file
    cannot be read or has another digest, the gatekeeper running on the
    tracker answers [blocked] with the stale-file message, whatever the
    intent, its scope and the catalog say. *)
Theorem stale_write_is_blocked (args : Args) (context : Context)
  (agent h : jsstring) (w w1 : World) (disk : FS)
  (cached : jsstring -> World -> option ActiveIntent)
  (find : jsstring -> jsstring -> World -> Outcome (option ActiveIntent))
  (matches : jsstring -> list jsstring -> jsstring -> bool) :
  let d := {| verifySnapshot := trackerVerify; getCachedIntent := cached;
              findIntentById := find; matchesAnyGlobPattern := matches |} in
  present (agentId context) = Some agent ->
  FileState.takeSnapshotFromDisk (path args) agent (workspaceRoot context) w
  = (Returns h, w1) ->
  match readFile disk (pathOf (FileState.absolutePath (path args)
                                 (workspaceRoot context))) with
  | Returns current => Hashing.sha256 current <> h
  | Throws _ => True
  end ->
  writeFilePreHook d args context (set_fs disk w1)
  = Returns (block (FileState.getStaleError (path args) agent)).
Proof.
  intros d Hagent Hcap Hdisk.
  destruct (FileStateLaws.takeSnapshotFromDisk_success _ _ _ _ _ _ Hcap)
    as (content & _ & _ & ->).
  unfold writeFilePreHook, optimisticCheck. rewrite Hagent.
  cbn [verifySnapshot d]. unfold trackerVerify, FileState.verifySnapshot,
    bind, get, tryCatch, fsRead, ret.
  cbn [w_snapshots set_snapshots set_fs w_fs]. rewrite lookup_insert_eq.
  cbn [w_fs set_fs hash fst].
  destruct (readFile disk (pathOf (FileState.absolutePath (path args)
                                     (workspaceRoot context)))) as [current|e].
  - cbn [fst]. rewrite (ClassifierFacts.str_eqb_false _ _ Hdisk). reflexivity.
  - reflexivity.
Qed.

(** Scenario S2: a1 reads [src/a.ts], another writer changes it, a1 writes. *)
Lemma stale_write_is_blocked_witness :
  let d := {| verifySnapshot := trackerVerify;
              getCachedIntent := fun _ _ => None;
              findIntentById := fun _ _ _ => Returns None;
              matchesAnyGlobPattern := fun _ _ _ => true |} in
  let args := {| path := lit "src/a.ts"; content := lit "x = 2" ++ [LF] |} in
  let context := {| intentId := Some (lit "INT-001"); workspaceRoot := lit "/ws";
                    ownedScope := None; agentId := Some (lit "a1") |} in
  let w1 := snd (FileState.takeSnapshotFromDisk (lit "src/a.ts") (lit "a1") (lit "/ws")
                   FileStateFacts.initial) in
  writeFilePreHook d args context
    (set_fs (FileStateFacts.diskWith (lit "x = 3" ++ [LF])) w1)
  = Returns (block (FileState.getStaleError (lit "src/a.ts") (lit "a1"))).
Proof.
  intros d args context w1.
  apply (stale_write_is_blocked args context (lit "a1")
           (Hashing.sha256 (lit "x = 1" ++ [LF])) FileStateFacts.initial w1
           (FileStateFacts.diskWith (lit "x = 3" ++ [LF]))).
  - reflexivity.
  - reflexivity.
  - vm_compute. discriminate.
Defined.

End GatekeeperLaws.

(** ** The session manager *)

Module SessionLaws.

Import State AgentSession.
Import RecorderFacts RecorderLaws.

Lemma mapGet_mapSet_same {A} (k : jsstring) (v : A) (m : list (jsstring * A)) :
  IntentMap.mapGet k (IntentMap.mapSet k v m) = Some v.
Proof.
  induction m as [|[k' v'] m IH]; cbn [IntentMap.mapSet IntentMap.mapGet].
  - now rewrite (proj2 (ClassifierFacts.str_eqb_true k k) eq_refl).
  - destruct (str_eqb k k') eqn:E; cbn [IntentMap.mapGet]; rewrite E; [reflexivity | exact IH].
Qed.

Lemma mapSet_keys {A} (k : jsstring) (v : A) (m : list (jsstring * A)) :
  IntentMap.mapGet k m <> None ->
  map fst (IntentMap.mapSet k v m) = map fst m.
Proof.
  induction m as [|[k' v'] m IH]; cbn [IntentMap.mapSet IntentMap.mapGet map fst].
  - congruence.
  - destruct (str_eqb k k') eqn:E; cbn [map fst]; [reflexivity|].
    intros H. now rewrite IH.
Qed.

Lemma mapSet_twice {A} (k : jsstring) (v v' : A) (m : list (jsstring * A)) :
  IntentMap.mapSet k v (IntentMap.mapSet k v' m) = IntentMap.mapSet k v m.
Proof.
  induction m as [|[k' x] m IH]; cbn [IntentMap.mapSet].
  - now rewrite (proj2 (ClassifierFacts.str_eqb_true k k) eq_refl).
  - destruct (str_eqb k k') eqn:E; cbn [IntentMap.mapSet]; rewrite E;
      [reflexivity | now rewrite IH].
Qed.

(** X25: only [registerAgent] makes an agent active.  For an agent without a
    session, [updateActivity], [addFile] and [removeFile] change nothing; for
    an agent with one they keep the list of active agents as it is, in its
    order. *)
Theorem activity_never_registers (agent filePath : jsstring)
  (sessions : Sessions) (w : World) :
  (IntentMap.mapGet agent sessions = None ->
   updateActivity agent (sessions, w) = (Returns tt, (sessions, w))
   /\ addFile agent filePath (sessions, w) = (Returns tt, (sessions, w))
   /\ removeFile agent filePath (sessions, w) = (Returns tt, (sessions, w)))
  /\ fst (getActiveAgents (snd (updateActivity agent (sessions, w))))
     = Returns (map fst sessions)
  /\ fst (getActiveAgents (snd (addFile agent filePath (sessions, w))))
     = Returns (map fst sessions)
  /\ fst (getActiveAgents (snd (removeFile agent filePath (sessions, w))))
     = Returns (map fst sessions).
Proof.
  split.
  - intros Hnone. unfold updateActivity, addFile, removeFile, bind, getSessions.
    cbn [fst snd]. rewrite Hnone. repeat split.
  - unfold addFile, removeFile. unfold updateActivity, getActiveAgents, bind,
      getSessions, onWorld, onSessions, dateNow, ret.
    cbn [fst snd].
    destruct (IntentMap.mapGet agent sessions) as [session|] eqn:Hget;
      cbn [fst snd]; [|repeat split].
    rewrite mapGet_mapSet_same. cbn [fst snd].
    assert (Hin : IntentMap.mapGet agent sessions <> None) by congruence.
    rewrite !mapSet_keys; try exact Hin; [repeat split|].
    rewrite mapGet_mapSet_same. discriminate.
Qed.

(** X26: [addFile] for an active agent puts the path, as given, among its
    files once (a path already there is not added again), stamps its last
    activity with the current time and leaves its other fields alone. *)
Theorem addFile_tracks_once (agent filePath : jsstring) (session : Session)
  (sessions : Sessions) (w : World) :
  IntentMap.mapGet agent sessions = Some session ->
  let after := snd (addFile agent filePath (sessions, w)) in
  fst (getAgentSession agent after)
  = Returns (Some {| agentId := agentId session; createdAt := createdAt session;
                     lastActivity := w_now w; intentId := intentId session;
                     files := if arr_includes (files session) filePath
                              then files session
                              else files session ++ [filePath] |})
  /\ snd after = w
  /\ snd (addFile agent filePath after) = after.
Proof.
  intros Hget after. subst after.
  unfold addFile. unfold updateActivity, getAgentSession, bind, getSessions, onWorld,
    onSessions, dateNow, ret.
  cbn [fst snd]. rewrite Hget. cbn [fst snd].
  repeat (rewrite ?mapGet_mapSet_same;
          cbn [fst snd files agentId createdAt intentId lastActivity]).
  rewrite ?mapSet_twice.
  split; [reflexivity|]. split; [reflexivity|].
  assert (Hidem : IntentMap.setAdd filePath (IntentMap.setAdd filePath (files session))
                  = IntentMap.setAdd filePath (files session)).
  { unfold IntentMap.setAdd.
    destruct (arr_includes (files session) filePath) eqn:E; [now rewrite E|].
    assert (Hin : arr_includes (files session ++ [filePath]) filePath = true).
    { unfold arr_includes. rewrite existsb_app. cbn [existsb].
      rewrite (proj2 (ClassifierFacts.str_eqb_true filePath filePath) eq_refl).
      now rewrite orb_true_r. }
    now rewrite Hin. }
  rewrite Hidem. reflexivity.
Qed.

Definition twoAgents : Sessions :=
  [ (lit "a1", {| agentId := lit "a1"; createdAt := 10; lastActivity := 10;
                  intentId := None; files := [] |});
    (lit "a2", {| agentId := lit "a2"; createdAt := 20; lastActivity := 20;
                  intentId := Some (lit "INT-001"); files := [lit "src/b.ts"] |}) ].

Lemma addFile_tracks_once_witness :
  let after := snd (addFile (lit "a2") (lit "src/b.ts") (twoAgents, FileStateFacts.initial)) in
  fst (getAgentSession (lit "a2") after)
  = Returns (Some {| agentId := lit "a2"; createdAt := 20; lastActivity := 1000;
                     intentId := Some (lit "INT-001"); files := [lit "src/b.ts"] |})
  /\ snd after = FileStateFacts.initial
  /\ snd (addFile (lit "a2") (lit "src/b.ts") after) = after.
Proof.
  exact (addFile_tracks_once (lit "a2") (lit "src/b.ts") _ twoAgents
           FileStateFacts.initial eq_refl).
Defined.

(** The sessions after [updateActivity] and after [addFile] at a given
    time. *)
Definition touched (agent : jsstring) (now : Z) (sessions : Sessions) : Sessions :=
  match IntentMap.mapGet agent sessions with
  | Some session =>
      IntentMap.mapSet agent
        {| agentId := agentId session; createdAt := createdAt session;
           lastActivity := now; intentId := intentId session;
           files := files session |} sessions
  | None => sessions
  end.

Definition added (agent filePath : jsstring) (now : Z) (sessions : Sessions)
  : Sessions :=
  match IntentMap.mapGet agent sessions with
  | Some session =>
      touched agent now
        (IntentMap.mapSet agent
           {| agentId := agentId session; createdAt := createdAt session;
              lastActivity := lastActivity session; intentId := intentId session;
              files := IntentMap.setAdd filePath (files session) |} sessions)
  | None => sessions
  end.

Lemma updateActivity_run (agent : jsstring) (sessions : Sessions) (w : World) :
  updateActivity agent (sessions, w)
  = (Returns tt, (touched agent (w_now w) sessions, w)).
Proof.
  unfold updateActivity, touched, bind, getSessions, onWorld, onSessions, dateNow, ret.
  cbn [fst snd]. destruct (IntentMap.mapGet agent sessions); reflexivity.
Qed.

Lemma addFile_run (agent filePath : jsstring) (sessions : Sessions) (w : World) :
  addFile agent filePath (sessions, w)
  = (Returns tt, (added agent filePath (w_now w) sessions, w)).
Proof.
  unfold addFile, added, bind, getSessions, onSessions, ret.
  cbn [fst snd]. destruct (IntentMap.mapGet agent sessions); [|reflexivity].
  cbn [fst snd]. apply updateActivity_run.
Qed.

Lemma tryCatch_returns {W A} (m : M W A) (h : Exn -> M W A) (w w1 : W) (a : A) :
  m w = (Returns a, w1) -> tryCatch m h w = (Returns a, w1).
Proof. intros H. unfold tryCatch. now rewrite H. Qed.

Lemma tryCatch_throws {W A} (m : M W A) (h : Exn -> M W A) (w w1 : W) (e : Exn) :
  m w = (Throws e, w1) -> tryCatch m h w = h e w1.
Proof. intros H. unfold tryCatch. now rewrite H. Qed.

(** The run of the hook for one path, step by step. *)
Lemma read_hook_run (pc ac rc : N) (pl al rl : jsstring)
  (sessions : Sessions) (w : World) :
  let p := pc :: pl in
  let agent := ac :: al in
  let root := rc :: rl in
  FileReadPreHook.fileReadPreHook ReadHookWiring.liveDeps
    {| FileReadPreHook.path := VString p; FileReadPreHook.paths := VUndefined |}
    {| FileReadPreHook.agentId := Some agent;
       FileReadPreHook.workspaceRoot := Some root |}
    (sessions, w)
  = (Returns {| FileReadPreHook.blocked := false |},
     match FileState.takeSnapshotFromDisk p agent root w with
     | (Returns _, w1) =>
         (added agent p (w_now w1) (touched agent (w_now w) sessions), w1)
     | (Throws _, w1) => (touched agent (w_now w) sessions, w1)
     end).
Proof.
  intros p agent root. subst p agent root.
  unfold FileReadPreHook.fileReadPreHook, FileReadPreHook.filesToSnapshot.
  cbn [FileReadPreHook.agentId FileReadPreHook.workspaceRoot FileReadPreHook.path
       FileReadPreHook.paths FileReadPreHook.present WriteFilePostHook.present app
       FileReadPreHook.snapshotAll FileReadPreHook.updateActivity
       FileReadPreHook.takeSnapshotFromDisk FileReadPreHook.addFile
       ReadHookWiring.liveDeps].
  set (p := pc :: pl). set (agent := ac :: al). set (root := rc :: rl).
  set (s1 := (touched agent (w_now w) sessions, w)).
  destruct (FileState.takeSnapshotFromDisk p agent root w) as [[h|e] w1] eqn:Htake.
  - assert (Hon : onWorld (FileState.takeSnapshotFromDisk p agent root) s1
                  = (Returns h, (touched agent (w_now w) sessions, w1))).
    { unfold onWorld, s1. cbn [fst snd]. now rewrite Htake. }
    assert (Hinner :
              (do! bind (onWorld (FileState.takeSnapshotFromDisk p agent root))
                        (fun _ => ret tt) in addFile agent p) s1
              = (Returns tt,
                 (added agent p (w_now w1) (touched agent (w_now w) sessions), w1))).
    { rewrite (bind_returns _ _ _ _ _ (bind_returns _ (fun _ => ret tt) _ _ _ Hon)).
      apply addFile_run. }
    rewrite (bind_returns _ _ _ _ _
               (tryCatch_returns _ _ _ _ _
                  (eq_trans
                     (bind_returns _ _ _ _ _ (updateActivity_run agent sessions w))
                     (bind_returns _ _ _ _ _
                        (bind_returns _ _ _ _ _
                           (tryCatch_returns _ (fun _ => ret tt) _ _ _ Hinner)))))).
    reflexivity.
  - assert (Hon : onWorld (FileState.takeSnapshotFromDisk p agent root) s1
                  = (Throws e, (touched agent (w_now w) sessions, w1))).
    { unfold onWorld, s1. cbn [fst snd]. now rewrite Htake. }
    assert (Hinner :
              (do! bind (onWorld (FileState.takeSnapshotFromDisk p agent root))
                        (fun _ => ret tt) in addFile agent p) s1
              = (Throws e, (touched agent (w_now w) sessions, w1))).
    { apply bind_throws. apply (bind_throws _ _ _ _ _ Hon). }
    rewrite (bind_returns _ _ _ _ _
               (tryCatch_returns _ _ _ _ _
                  (eq_trans
                     (bind_returns _ _ _ _ _ (updateActivity_run agent sessions w))
                     (bind_returns _ _ _ _ _
                        (bind_returns _ _ _ _ _
                           (eq_trans
                              (tryCatch_throws _ (fun _ => ret tt) _ _ _ Hinner)
                              eq_refl)))))).
    reflexivity.
Qed.

(** X27: the read pre-hook on the live session manager and tracker, for
    one path.  When the file can be read, the tracker holds its digest under
    the reading agent, stamped with the current time, and the session (if the
    agent has one) gains the path; an agent without a session is snapshotted
    all the same.  When the file cannot be read nothing is captured and no
    path is added: only the activity stamp is left. *)
Theorem read_hook_captures (pc ac rc : N) (pl al rl : jsstring)
  (sessions : Sessions) (w : World) :
  let p := pc :: pl in
  let agent := ac :: al in
  let root := rc :: rl in
  let run := FileReadPreHook.fileReadPreHook ReadHookWiring.liveDeps
               {| FileReadPreHook.path := VString p;
                  FileReadPreHook.paths := VUndefined |}
               {| FileReadPreHook.agentId := Some agent;
                  FileReadPreHook.workspaceRoot := Some root |}
               (sessions, w) in
  let stamped := snd (updateActivity agent (sessions, w)) in
  fst run = Returns {| FileReadPreHook.blocked := false |}
  /\ (forall content,
        Fs.readFile (w_fs w) (Fs.pathOf (FileState.absolutePath p root))
        = Returns content ->
        w_snapshots (snd (snd run)) !! FileState.normalizePath p root
        = Some {| hash := Hashing.sha256 content; State.agentId := agent;
                  timestamp := w_now w;
                  State.filePath := FileState.normalizePath p root |}
        /\ fst (snd run) = fst (snd (addFile agent p stamped)))
  /\ (forall e,
        Fs.readFile (w_fs w) (Fs.pathOf (FileState.absolutePath p root))
        = Throws e ->
        snd run = stamped /\ snd stamped = w).
Proof.
  intros p agent root run stamped.
  subst run stamped p agent root.
  rewrite (read_hook_run pc ac rc pl al rl sessions w).
  rewrite updateActivity_run. cbn [fst snd].
  set (p := pc :: pl). set (agent := ac :: al). set (root := rc :: rl).
  unfold FileState.takeSnapshotFromDisk, tryCatch, bind, fsRead,
    FileState.takeSnapshot, dateNow, modify, ret, throw.
  split; [reflexivity|].
  destruct (Fs.readFile (w_fs w) (Fs.pathOf (FileState.absolutePath p root)))
    as [content|e]; cbn [fst snd w_now set_snapshots w_snapshots].
  - split.
    + intros c Hc. inversion Hc; subst c.
      split; [apply lookup_insert_eq|].
      rewrite addFile_run. reflexivity.
    + intros e He. discriminate He.
  - split.
    + intros c Hc. discriminate Hc.
    + intros e0 _. split; reflexivity.
Qed.

(** An agent that never registered reads [src/a.ts]: the snapshot is taken,
    no session appears. *)
Example read_by_unregistered_agent :
  let args := {| FileReadPreHook.path := VString (lit "src/a.ts");
                 FileReadPreHook.paths := VUndefined |} in
  let context := {| FileReadPreHook.agentId := Some (lit "ghost");
                    FileReadPreHook.workspaceRoot := Some (lit "/ws") |} in
  let after := snd (FileReadPreHook.fileReadPreHook ReadHookWiring.liveDeps args context
                      (twoAgents, FileStateFacts.initial)) in
  fst after = twoAgents
  /\ FileStateFacts.holds (snd after) (lit "src/a.ts") (lit "/ws") (lit "ghost") = true.
Proof. vm_compute. repeat split. Qed.

End SessionLaws.

(** ** [escapeXml] *)

Module SkillsLaws.

Import Skills.

(** What [escapeXml] makes of one character. *)
Definition escapeChar (c : N) : jsstring :=
  if c =? 38 then lit "&amp;"
  else if c =? 60 then lit "&lt;"
  else if c =? 62 then lit "&gt;"
  else if c =? 34 then lit "&quot;"
  else if c =? 39 then lit "&apos;"
  else [c].

Definition isMarkup (c : N) : bool :=
  (c =? 60) || (c =? 62) || (c =? 34) || (c =? 39).

Lemma replaceAll_charwise (a : N) (rep s : jsstring) :
  replaceAll [a] rep s = flat_map (fun c => if a =? c then rep else [c]) s.
Proof.
  unfold replaceAll. induction s as [|c s IH]; [reflexivity|].
  cbn [replaceAll_go flat_map]. rewrite StringFacts.startsWith_single.
  destruct (a =? c); cbn [length Nat.sub app]; now rewrite IH.
Qed.

Lemma escapeChar_steps (c : N) :
  flat_map (fun c => if 39 =? c then lit "&apos;" else [c])
    (flat_map (fun c => if 34 =? c then lit "&quot;" else [c])
       (flat_map (fun c => if 62 =? c then lit "&gt;" else [c])
          (flat_map (fun c => if 60 =? c then lit "&lt;" else [c])
             (if 38 =? c then lit "&amp;" else [c]))))
  = escapeChar c.
Proof.
  unfold escapeChar. rewrite (N.eqb_sym c 38).
  destruct (N.eqb_spec 38 c) as [<-|H38]; [reflexivity|].
  cbn [flat_map app]. rewrite (N.eqb_sym c 60).
  destruct (N.eqb_spec 60 c) as [<-|H60]; [reflexivity|].
  cbn [flat_map app]. rewrite (N.eqb_sym c 62).
  destruct (N.eqb_spec 62 c) as [<-|H62]; [reflexivity|].
  cbn [flat_map app]. rewrite (N.eqb_sym c 34).
  destruct (N.eqb_spec 34 c) as [<-|H34]; [reflexivity|].
  cbn [flat_map app]. rewrite (N.eqb_sym c 39).
  destruct (N.eqb_spec 39 c) as [<-|H39]; reflexivity.
Qed.

(** X28: the five replacements of [escapeXml], made one after the other,
    escape each character of the input exactly once (the ampersands of the
    entities written by the later replacements are not escaped again); the
    result holds no [<], [>], double or single quote, and the escape of a
    concatenation is the concatenation of the escapes. *)
Theorem escapeXml_charwise (value other : jsstring) :
  escapeXml value = flat_map escapeChar value
  /\ forallb (fun c => negb (isMarkup c)) (escapeXml value) = true
  /\ escapeXml (value ++ other) = escapeXml value ++ escapeXml other.
Proof.
  assert (Hchar : forall s, escapeXml s = flat_map escapeChar s).
  { intros s. unfold escapeXml. rewrite !replaceAll_charwise.
    induction s as [|c s IH]; [reflexivity|].
    cbn [flat_map]. rewrite !flat_map_app, IH. f_equal.
    apply escapeChar_steps. }
  split; [apply Hchar|]. split.
  - rewrite Hchar. induction value as [|c value IH]; [reflexivity|].
    cbn [flat_map]. rewrite forallb_app, IH, andb_true_r.
    unfold escapeChar, isMarkup.
    destruct (N.eqb_spec c 38); [reflexivity|].
    destruct (N.eqb_spec c 60); [reflexivity|].
    destruct (N.eqb_spec c 62); [reflexivity|].
    destruct (N.eqb_spec c 34); [reflexivity|].
    destruct (N.eqb_spec c 39); [reflexivity|].
    cbn [forallb].
    destruct (N.eqb_spec c 60); [congruence|].
    destruct (N.eqb_spec c 62); [congruence|].
    destruct (N.eqb_spec c 34); [congruence|].
    destruct (N.eqb_spec c 39); [congruence|].
    reflexivity.
  - rewrite !Hchar. apply flat_map_app.
Qed.

Example escapeXml_sample :
  escapeXml (lit "a<b & 'c'") = lit "a&lt;b &amp; &apos;c&apos;".
Proof. vm_compute. reflexivity. Qed.

End SkillsLaws.

(** ** [computeFileHash] and the tracker *)

Module FileHashLaws.

Import Fs State FileHash.

(** The tracker and [computeFileHash] agree: for a path that is
    absolute, what [takeSnapshotFromDisk] returns (the digest, or the error
    of the read) is what [computeFileHash] returns for that path, and
    [computeFileHash] changes nothing. *)
Theorem computeFileHash_is_capture_digest (filePath agent root : jsstring)
  (w : World) :
  NodePath.isAbsolute filePath = true ->
  fst (FileState.takeSnapshotFromDisk filePath agent root w)
  = fst (computeFileHash filePath w)
  /\ snd (computeFileHash filePath w) = w.
Proof.
  intros Habs.
  unfold FileState.takeSnapshotFromDisk, computeFileHash, FileState.absolutePath,
    tryCatch, bind, fsRead, FileState.takeSnapshot, dateNow, modify, ret, throw.
  rewrite Habs.
  destruct (readFile (w_fs w) (pathOf filePath)); split; reflexivity.
Qed.

Lemma computeFileHash_is_capture_digest_witness :
  fst (FileState.takeSnapshotFromDisk (lit "/ws/src/a.ts") (lit "a1") (lit "/ws")
         FileStateFacts.initial)
  = fst (computeFileHash (lit "/ws/src/a.ts") FileStateFacts.initial)
  /\ snd (computeFileHash (lit "/ws/src/a.ts") FileStateFacts.initial)
     = FileStateFacts.initial.
Proof.
  apply (computeFileHash_is_capture_digest (lit "/ws/src/a.ts") (lit "a1") (lit "/ws")
           FileStateFacts.initial).
  reflexivity.
Defined.

End FileHashLaws.

(** ** The intent map: what is written parses back *)

Module IntentMapLaws.

Import Fs State IntentMap StringFacts.

(** *** Lines *)

Definition unlines (ls : list jsstring) : jsstring :=
  flat_map (fun l => l ++ [LF]) ls.

Lemma unlines_app (a b : list jsstring) : unlines (a ++ b) = unlines a ++ unlines b.
Proof. apply flat_map_app. Qed.

Lemma split_unlines (ls : list jsstring) (rest : jsstring) :
  Forall (fun l => Forall (fun d => d <> LF) l) ls ->
  split [LF] (unlines ls ++ rest) = ls ++ split [LF] rest.
Proof.
  intros H. induction H as [|l ls Hl _ IH]; [reflexivity|].
  cbn [unlines flat_map]. fold (unlines ls).
  rewrite <- !app_assoc. cbn [app].
  rewrite split_app, (split_none LF l Hl), IH. reflexivity.
Qed.

(** *** Sorting *)

Lemma insertSorted_in (x y : jsstring) (l : list jsstring) :
  In y (insertSorted x l) <-> y = x \/ In y l.
Proof.
  induction l as [|z l IH]; cbn [insertSorted].
  - cbn [In]. intuition.
  - destruct (str_leb x z); cbn [In]; [intuition|].
    rewrite IH. intuition.
Qed.

Lemma sort_in (y : jsstring) (l : list jsstring) : In y (sort l) <-> In y l.
Proof.
  unfold sort. induction l as [|x l IH]; cbn [fold_right]; [reflexivity|].
  rewrite insertSorted_in, IH. cbn [In]. intuition.
Qed.

Lemma insertSorted_NoDup (x : jsstring) (l : list jsstring) :
  ~ In x l -> List.NoDup l -> List.NoDup (insertSorted x l).
Proof.
  intros Hx Hl. induction Hl as [|z l Hz Hl IH]; cbn [insertSorted].
  - constructor; [intros [] | constructor].
  - destruct (str_leb x z).
    + constructor; [exact Hx | now constructor].
    + constructor.
      * rewrite insertSorted_in. intros [-> | Hin]; [apply Hx; now left | contradiction].
      * apply IH. intros Hin. apply Hx. now right.
Qed.

Lemma sort_NoDup (l : list jsstring) : List.NoDup l -> List.NoDup (sort l).
Proof.
  unfold sort. intros H. induction H as [|x l Hx Hl IH]; cbn [fold_right].
  - constructor.
  - apply insertSorted_NoDup; [|exact IH]. fold (sort l). now rewrite sort_in.
Qed.

(** *** Association lists *)

Lemma mapGet_app_fresh {A} (k : jsstring) (v : A) (m : list (jsstring * A)) :
  mapGet k m = None -> mapGet k (m ++ [(k, v)]) = Some v.
Proof.
  induction m as [|[k' x] m IH]; cbn [app mapGet].
  - now rewrite (proj2 (ClassifierFacts.str_eqb_true k k) eq_refl).
  - destruct (str_eqb k k'); [discriminate | exact IH].
Qed.

Lemma mapSet_fresh {A} (k : jsstring) (v : A) (m : list (jsstring * A)) :
  mapGet k m = None -> mapSet k v m = m ++ [(k, v)].
Proof.
  induction m as [|[k' x] m IH]; cbn [app mapGet mapSet]; [reflexivity|].
  destruct (str_eqb k k'); [discriminate|]. intros H. now rewrite IH.
Qed.

Lemma mapSet_last {A} (k : jsstring) (v old : A) (m : list (jsstring * A)) :
  mapGet k m = None -> mapSet k v (m ++ [(k, old)]) = m ++ [(k, v)].
Proof.
  induction m as [|[k' x] m IH]; cbn [app mapGet mapSet].
  - now rewrite (proj2 (ClassifierFacts.str_eqb_true k k) eq_refl).
  - destruct (str_eqb k k'); [discriminate|]. intros H. now rewrite IH.
Qed.

Lemma mapGet_none_keys {A} (k : jsstring) (m : list (jsstring * A)) :
  mapGet k m = None <-> ~ In k (map fst m).
Proof.
  induction m as [|[k' x] m IH]; cbn [mapGet map fst In]; [intuition|].
  destruct (str_eqb k k') eqn:E.
  - apply ClassifierFacts.str_eqb_true in E. subst. split; [discriminate|].
    intros H. exfalso. apply H. now left.
  - rewrite IH. split.
    + intros H [Heq|Hin]; [|contradiction].
      subst. rewrite (proj2 (ClassifierFacts.str_eqb_true k k) eq_refl) in E.
      discriminate.
    + intros H Hin. apply H. now right.
Qed.

(** *** The lines of a map *)

Definition filesOf (m : IMap) (intentId : jsstring) : list jsstring :=
  match mapGet intentId m with
  | Some fs => fs
  | None => []
  end.

Definition nameOf (names : list (jsstring * jsstring)) (intentId : jsstring)
  : jsstring :=
  match mapGet intentId names with
  | Some n => n
  | None => intentId
  end.

Definition headerLines : list jsstring :=
  [ lit "# Intent Map"; [];
    lit "This file maps business intents to physical files in the codebase."; [] ].

Definition sectionLines (m : IMap) (names : list (jsstring * jsstring))
  (intentId : jsstring) : list jsstring :=
  (lit "## " ++ intentId ++ lit ": " ++ nameOf names intentId) :: [] ::
  match filesOf m intentId with
  | [] => [lit "*No files mapped yet*"; []]
  | _ => map (fun f => lit "- " ++ f) (sort (filesOf m intentId)) ++ [[]]
  end.

Lemma fileLines_unlines (fs : list jsstring) :
  flat_map (fun file => lit "- " ++ file ++ [LF]) fs
  = unlines (map (fun f => lit "- " ++ f) fs).
Proof.
  induction fs as [|f fs IH]; [reflexivity|].
  cbn [flat_map map unlines]. fold (unlines (map (fun f => lit "- " ++ f) fs)).
  rewrite IH. now rewrite <- !app_assoc.
Qed.

Lemma sectionText_lines (m : IMap) (names : list (jsstring * jsstring))
  (intentId : jsstring) :
  sectionText m names intentId = unlines (sectionLines m names intentId).
Proof.
  unfold sectionText, sectionLines. fold (filesOf m intentId) (nameOf names intentId).
  destruct (filesOf m intentId) as [|f fs] eqn:Hfs.
  - cbn [unlines flat_map]. rewrite <- !app_assoc. reflexivity.
  - rewrite fileLines_unlines.
    change ((lit "## " ++ intentId ++ lit ": " ++ nameOf names intentId) :: [] ::
            map (fun f0 => lit "- " ++ f0) (sort (f :: fs)) ++ [[]])
      with ([lit "## " ++ intentId ++ lit ": " ++ nameOf names intentId; []]
            ++ map (fun f0 => lit "- " ++ f0) (sort (f :: fs)) ++ [[]]).
    rewrite !unlines_app. cbn [unlines flat_map app].
    rewrite <- !app_assoc. reflexivity.
Qed.

Lemma build_lines (m : IMap) (names : list (jsstring * jsstring)) :
  buildIntentMapContent m names
  = unlines (headerLines ++ flat_map (sectionLines m names) (sort (map fst m))).
Proof.
  unfold buildIntentMapContent. rewrite unlines_app.
  change (unlines headerLines)
    with (lit "# Intent Map" ++ [LF; LF] ++
          lit "This file maps business intents to physical files in the codebase."
          ++ [LF; LF]).
  rewrite <- !app_assoc. do 4 f_equal.
  induction (sort (map fst m)) as [|i ids IH]; [reflexivity|].
  cbn [flat_map]. rewrite unlines_app, sectionText_lines, IH. reflexivity.
Qed.

(** *** Well-formed maps *)

(** An id the header pattern can read back: not empty, no white space, no
    colon. *)
Definition validId (intentId : jsstring) : Prop :=
  intentId <> [] /\ forallb isIdChar intentId = true.

(** A path as the parser gives it back: not empty, no line feed, no white
    space at either end, and a fixed point of [normalizePath]. *)
Definition stored (f : jsstring) : Prop :=
  f <> [] /\ Forall (fun d => d <> LF) f /\ trim f = f /\ normalizePath f = f.

Definition wellFormed (m : IMap) (names : list (jsstring * jsstring)) : Prop :=
  List.NoDup (map fst m)
  /\ forall intentId, In intentId (map fst m) ->
       validId intentId
       /\ noLineTerminator (nameOf names intentId) = true
       /\ List.NoDup (filesOf m intentId)
       /\ Forall stored (filesOf m intentId).

(** *** The patterns on the lines the writer produces *)

Lemma takeWhile_all {A} (p : A -> bool) (a : list A) (x : A) (b : list A) :
  forallb p a = true -> p x = false ->
  Regex.takeWhile p (a ++ x :: b) = a /\ dropWhile p (a ++ x :: b) = x :: b.
Proof.
  intros Ha Hx. induction a as [|c a IH]; cbn [app Regex.takeWhile dropWhile].
  - now rewrite Hx.
  - cbn [forallb] in Ha. apply andb_true_iff in Ha. destruct Ha as [Hc Ha].
    rewrite Hc. destruct (IH Ha) as [-> ->]. split; reflexivity.
Qed.

Lemma idChar_not_space (c : N) : isIdChar c = true -> isSpace c = false.
Proof. unfold isIdChar. intros H. apply andb_true_iff in H. now apply negb_true_iff. Qed.

Lemma noLineTerminator_suffix (a b : jsstring) :
  noLineTerminator (a ++ b) = true -> noLineTerminator b = true.
Proof. unfold noLineTerminator. rewrite forallb_app. intros H. now apply andb_true_iff in H. Qed.

Lemma headerMatch_written (intentId name : jsstring) :
  validId intentId -> noLineTerminator name = true ->
  headerMatch (lit "## " ++ intentId ++ lit ": " ++ name) = Some intentId.
Proof.
  intros [Hne Hid] Hname.
  destruct intentId as [|c rest]; [congruence|].
  pose proof Hid as Hid'. cbn [forallb] in Hid'.
  apply andb_true_iff in Hid'. destruct Hid' as [Hc _].
  pose proof (idChar_not_space c Hc) as Hsp.
  unfold headerMatch, headerId.
  change (lit "## " ++ (c :: rest) ++ lit ": " ++ name)
    with (35 :: 35 :: 32 :: c :: (rest ++ 58 :: 32 :: name)).
  cbn [Regex.takeWhile dropWhile]. change (isSpace 32) with true. cbv iota.
  cbn [Regex.takeWhile dropWhile]. rewrite Hsp.
  change (c :: rest ++ 58 :: 32 :: name) with ((c :: rest) ++ 58 :: 32 :: name).
  destruct (takeWhile_all isIdChar (c :: rest) 58 (32 :: name) Hid eq_refl) as [-> ->].
  cbn [dropWhile]. change (isSpace 32) with true. cbv iota.
  destruct (LessonLaws.dropWhile_suffix isSpace name) as [a Ha].
  rewrite Ha in Hname. now rewrite (noLineTerminator_suffix _ _ Hname).
Qed.

Lemma dropWhile_length {A} (p : A -> bool) (l : list A) :
  (length (dropWhile p l) <= length l)%nat.
Proof.
  induction l as [|x l IH]; cbn [dropWhile length]; [lia|].
  destruct (p x); cbn [length]; lia.
Qed.

(** A text that trimming leaves alone ends with no white space. *)
Lemma trim_fixed_last (s : jsstring) (g : jsstring) (z : N) :
  trim s = s -> s = g ++ [z] -> isSpace z = false.
Proof.
  intros Htrim Hs. destruct (isSpace z) eqn:Hz; [|reflexivity]. exfalso.
  unfold trim, trimEnd, trimStart in Htrim.
  destruct (LessonLaws.dropWhile_suffix isSpace s) as [a Ha].
  assert (Hlen : length (dropWhile isSpace s) = length s).
  { apply (f_equal (@length N)) in Htrim. rewrite length_rev in Htrim.
    pose proof (dropWhile_length isSpace (rev (dropWhile isSpace s))) as H1.
    rewrite length_rev in H1.
    pose proof (dropWhile_length isSpace s) as H2. lia. }
  assert (Hd : dropWhile isSpace s = s).
  { assert (Ha0 : a = []).
    { apply (f_equal (@length N)) in Ha. rewrite length_app in Ha.
      destruct a; [reflexivity | cbn [length] in Ha; lia]. }
    subst a. now symmetry. }
  rewrite Hd in Htrim. rewrite Hs in Htrim at 1.
  rewrite rev_app_distr in Htrim. cbn [rev app dropWhile] in Htrim.
  rewrite Hz in Htrim.
  apply (f_equal (@length N)) in Htrim. rewrite length_rev in Htrim.
  pose proof (dropWhile_length isSpace (rev g)) as H1. rewrite length_rev in H1.
  rewrite Hs, length_app in Htrim. cbn [length] in Htrim. lia.
Qed.

Lemma trim_file_line (f : jsstring) :
  f <> [] -> trim f = f -> trim (lit "- " ++ f) = lit "- " ++ f.
Proof.
  intros Hne Htrim.
  destruct (rev f) as [|z g] eqn:Hrev.
  - apply (f_equal (@rev N)) in Hrev. rewrite rev_involutive in Hrev.
    cbn [rev] in Hrev. congruence.
  - assert (Hf : f = rev g ++ [z]).
    { apply (f_equal (@rev N)) in Hrev. rewrite rev_involutive in Hrev.
      cbn [rev] in Hrev. exact Hrev. }
    pose proof (trim_fixed_last f (rev g) z Htrim Hf) as Hz.
    rewrite Hf.
    change (lit "- " ++ rev g ++ [z]) with (45 :: (32 :: rev g) ++ [z]).
    apply TraceStorageFacts.isSpace_false_trim; [reflexivity | exact Hz].
Qed.

(** *** The steps of the parser *)

Definition inert (line : jsstring) : Prop :=
  headerMatch line = None /\ startsWith (lit "- ") (trim line) = false.

Lemma parseStep_inert (st : IMap * option jsstring) (line : jsstring) :
  inert line -> parseStep st line = st.
Proof.
  intros [Hh Hf]. destruct st as [acc cur]. unfold parseStep.
  rewrite Hh, Hf. now destruct cur.
Qed.

Lemma parseStep_header (acc : IMap) (cur : option jsstring)
  (intentId name : jsstring) :
  validId intentId -> noLineTerminator name = true ->
  mapGet intentId acc = None ->
  parseStep (acc, cur) (lit "## " ++ intentId ++ lit ": " ++ name)
  = (acc ++ [(intentId, [])], Some intentId).
Proof.
  intros Hid Hname Hfresh. unfold parseStep.
  rewrite (headerMatch_written _ _ Hid Hname), Hfresh.
  now rewrite (mapSet_fresh _ _ _ Hfresh).
Qed.

Lemma parseStep_file (acc : IMap) (intentId : jsstring) (done : list jsstring)
  (f : jsstring) :
  stored f -> mapGet intentId acc = None -> ~ In f done ->
  parseStep (acc ++ [(intentId, done)], Some intentId) (lit "- " ++ f)
  = (acc ++ [(intentId, done ++ [f])], Some intentId).
Proof.
  intros (Hne & _ & Htrim & Hnorm) Hfresh Hnew. unfold parseStep.
  assert (Hh : headerMatch (lit "- " ++ f) = None) by reflexivity.
  rewrite Hh. rewrite (trim_file_line f Hne Htrim).
  change (startsWith (lit "- ") (lit "- " ++ f)) with true. cbv iota.
  change (skipn 2 (lit "- " ++ f)) with f.
  rewrite Htrim, Hnorm.
  rewrite (mapGet_app_fresh _ _ _ Hfresh).
  rewrite (mapSet_last _ _ _ _ Hfresh).
  unfold setAdd.
  assert (Hinc : arr_includes done f = false).
  { unfold arr_includes. apply not_true_is_false. intros H.
    apply existsb_exists in H. destruct H as (x & Hx & Heq).
    apply ClassifierFacts.str_eqb_true in Heq. subst. contradiction. }
  now rewrite Hinc.
Qed.

Lemma parse_files (acc : IMap) (intentId : jsstring) (rest : list jsstring) :
  forall done,
    mapGet intentId acc = None -> Forall stored rest -> List.NoDup (done ++ rest) ->
    fold_left parseStep (map (fun f => lit "- " ++ f) rest)
      (acc ++ [(intentId, done)], Some intentId)
    = (acc ++ [(intentId, done ++ rest)], Some intentId).
Proof.
  induction rest as [|f rest IH]; intros done Hfresh Hst Hnd.
  - cbn [map fold_left]. now rewrite app_nil_r.
  - inversion Hst as [|? ? Hf Hrest]; subst. cbn [map fold_left].
    rewrite parseStep_file; [|exact Hf | exact Hfresh|].
    + rewrite IH; [|exact Hfresh | exact Hrest|].
      * now rewrite <- app_assoc.
      * now rewrite <- app_assoc.
    + intros Hin. apply List.NoDup_remove_2 in Hnd. apply Hnd.
      apply in_or_app. now left.
Qed.

Lemma inert_blank : inert [].
Proof. split; reflexivity. Qed.

Lemma inert_placeholder : inert (lit "*No files mapped yet*").
Proof. split; reflexivity. Qed.

Lemma parse_section (m : IMap) (names : list (jsstring * jsstring))
  (acc : IMap) (cur : option jsstring) (intentId : jsstring) :
  validId intentId -> noLineTerminator (nameOf names intentId) = true ->
  List.NoDup (filesOf m intentId) -> Forall stored (filesOf m intentId) ->
  mapGet intentId acc = None ->
  fold_left parseStep (sectionLines m names intentId) (acc, cur)
  = (acc ++ [(intentId, sort (filesOf m intentId))], Some intentId).
Proof.
  intros Hid Hname Hnd Hst Hfresh. unfold sectionLines.
  cbn [fold_left]. rewrite (parseStep_header _ _ _ _ Hid Hname Hfresh).
  rewrite (parseStep_inert _ _ inert_blank).
  destruct (filesOf m intentId) as [|f fs] eqn:Hfs.
  - cbn [fold_left]. rewrite (parseStep_inert _ _ inert_placeholder).
    now rewrite (parseStep_inert _ _ inert_blank).
  - rewrite fold_left_app.
    rewrite (parse_files acc intentId (sort (f :: fs)) [] Hfresh).
    + cbn [fold_left app]. now rewrite (parseStep_inert _ _ inert_blank).
    + apply List.Forall_forall. intros x Hx.
      rewrite List.Forall_forall in Hst. apply Hst. now apply sort_in.
    + cbn [app]. now apply sort_NoDup.
Qed.

Lemma mapGet_app_none {A} (k : jsstring) (m1 m2 : list (jsstring * A)) :
  mapGet k m1 = None -> mapGet k m2 = None -> mapGet k (m1 ++ m2) = None.
Proof.
  rewrite !mapGet_none_keys, map_app. intros H1 H2 Hin.
  apply in_app_or in Hin. tauto.
Qed.

Lemma parse_sections (m : IMap) (names : list (jsstring * jsstring))
  (ids : list jsstring) :
  forall (acc : IMap) (cur : option jsstring),
    List.NoDup ids ->
    (forall intentId, In intentId ids ->
       validId intentId /\ noLineTerminator (nameOf names intentId) = true
       /\ List.NoDup (filesOf m intentId) /\ Forall stored (filesOf m intentId)
       /\ mapGet intentId acc = None) ->
    fst (fold_left parseStep (flat_map (sectionLines m names) ids) (acc, cur))
    = acc ++ map (fun intentId => (intentId, sort (filesOf m intentId))) ids.
Proof.
  induction ids as [|i ids IH]; intros acc cur Hnd Hall.
  - cbn [flat_map fold_left map fst]. now rewrite app_nil_r.
  - inversion Hnd as [|? ? Hi Hnd']; subst.
    destruct (Hall i (or_introl eq_refl)) as (Hid & Hname & Hfnd & Hfst & Hfresh).
    cbn [flat_map]. rewrite fold_left_app.
    rewrite (parse_section m names acc cur i Hid Hname Hfnd Hfst Hfresh).
    rewrite IH; [cbn [map]; now rewrite <- app_assoc | exact Hnd' |].
    intros j Hj. destruct (Hall j (or_intror Hj)) as (H1 & H2 & H3 & H4 & H5).
    repeat (split; [assumption|]).
    apply mapGet_app_none; [exact H5|].
    cbn [mapGet]. destruct (str_eqb j i) eqn:E; [|reflexivity].
    apply ClassifierFacts.str_eqb_true in E. subst. contradiction.
Qed.

(** *** No line of the writer holds a line feed *)

Lemma idChar_not_terminator (c : N) :
  isIdChar c = true -> isLineTerminator c = false.
Proof.
  intros H. apply idChar_not_space in H. unfold isLineTerminator.
  unfold isSpace in H. repeat (apply orb_false_iff in H; destruct H as [H ?]).
  repeat (apply orb_false_iff; split); assumption.
Qed.

Lemma noLineTerminator_no_LF (s : jsstring) :
  noLineTerminator s = true -> Forall (fun d => d <> LF) s.
Proof.
  unfold noLineTerminator. intros H. apply List.Forall_forall. intros d Hd ->.
  rewrite forallb_forall in H. specialize (H LF Hd). discriminate H.
Qed.

Lemma validId_no_terminator (intentId : jsstring) :
  validId intentId -> noLineTerminator intentId = true.
Proof.
  intros [_ H]. unfold noLineTerminator. apply forallb_forall. intros c Hc.
  rewrite forallb_forall in H. now rewrite (idChar_not_terminator c (H c Hc)).
Qed.

Lemma sectionLines_no_LF (m : IMap) (names : list (jsstring * jsstring))
  (intentId : jsstring) :
  validId intentId -> noLineTerminator (nameOf names intentId) = true ->
  Forall stored (filesOf m intentId) ->
  Forall (fun l => Forall (fun d => d <> LF) l) (sectionLines m names intentId).
Proof.
  intros Hid Hname Hst. unfold sectionLines.
  constructor.
  - apply List.Forall_app. split; [repeat constructor; discriminate|].
    apply List.Forall_app. split; [apply noLineTerminator_no_LF, validId_no_terminator, Hid|].
    apply List.Forall_app. split; [repeat constructor; discriminate|].
    now apply noLineTerminator_no_LF.
  - constructor; [constructor|].
    destruct (filesOf m intentId) as [|f fs] eqn:Hfs.
    + constructor; [|constructor; constructor].
      apply noLineTerminator_no_LF. reflexivity.
    + apply List.Forall_app. split; [|constructor; constructor].
      apply List.Forall_forall. intros l Hl. apply in_map_iff in Hl.
      destruct Hl as (x & <- & Hx). apply (proj1 (sort_in _ _)) in Hx.
      rewrite List.Forall_forall in Hst. destruct (Hst x Hx) as (_ & Hlf & _).
      apply List.Forall_app. split; [repeat constructor; discriminate | exact Hlf].
Qed.

(** The parser on the text of the writer. *)
Lemma parse_build_sorted (m : IMap) (names : list (jsstring * jsstring)) :
  wellFormed m names ->
  parseIntentMap (buildIntentMapContent m names)
  = map (fun intentId => (intentId, sort (filesOf m intentId))) (sort (map fst m)).
Proof.
  intros [Hnd Hall].
  assert (Hids : forall i, In i (sort (map fst m)) ->
             validId i /\ noLineTerminator (nameOf names i) = true
             /\ List.NoDup (filesOf m i) /\ Forall stored (filesOf m i)).
  { intros i Hi. apply (proj1 (sort_in _ _)) in Hi. exact (Hall i Hi). }
  unfold parseIntentMap. rewrite build_lines.
  rewrite <- (app_nil_r (unlines _)). rewrite split_unlines.
  - change (split [LF] []) with [[] : jsstring].
    rewrite !fold_left_app.
    change (fold_left parseStep headerLines ([], None)) with (([], None) : IMap * option jsstring).
    cbn [fold_left].
    rewrite (parseStep_inert _ _ inert_blank).
    rewrite parse_sections; [reflexivity | now apply sort_NoDup |].
    intros i Hi. destruct (Hids i Hi) as (H1 & H2 & H3 & H4).
    repeat (split; [assumption|]). reflexivity.
  - apply List.Forall_app. split.
    + repeat constructor; discriminate.
    + apply List.Forall_forall. intros l Hl. apply in_flat_map in Hl.
      destruct Hl as (i & Hi & Hl). destruct (Hids i Hi) as (H1 & H2 & _ & H4).
      pose proof (sectionLines_no_LF m names i H1 H2 H4) as Hs.
      rewrite List.Forall_forall in Hs. now apply Hs.
Qed.

(** X29: what [buildIntentMapContent] writes for a well-formed map (ids
    without white space or colon, names without line terminator, paths in
    stored form, no duplicates) is read back by [parseIntentMap] as the same
    map, with the sections in ascending order of their ids and the paths of a
    section in ascending order. *)
Theorem parse_of_build (m : IMap) (names : list (jsstring * jsstring)) :
  wellFormed m names ->
  parseIntentMap (buildIntentMapContent m names)
  = map (fun intentId => (intentId, sort (filesOf m intentId))) (sort (map fst m)).
Proof. exact (parse_build_sorted m names). Qed.

Ltac stored_here :=
  split; [discriminate|];
  split; [repeat constructor; discriminate|];
  split; vm_compute; reflexivity.

Lemma parse_of_build_witness :
  let m := [ (lit "INT-002", [lit "src/b.ts"; lit "src/a.ts"]);
             (lit "INT-001", [lit "src/z.ts"]) ] in
  let names := [ (lit "INT-001", lit "Alpha") ] in
  parseIntentMap (buildIntentMapContent m names)
  = [ (lit "INT-001", [lit "src/z.ts"]);
      (lit "INT-002", [lit "src/a.ts"; lit "src/b.ts"]) ].
Proof.
  intros m names.
  apply (parse_of_build m names).
  split.
  - repeat constructor; cbn [In map fst]; intros H;
      repeat (destruct H as [H|H]; [discriminate H|]); exact H.
  - intros i [<- | [<- | []]].
    + split; [split; [discriminate | reflexivity]|].
      split; [reflexivity|]. split.
      * repeat constructor; cbn [In]; intros H;
          repeat (destruct H as [H|H]; [discriminate H|]); exact H.
      * constructor; [stored_here|]. constructor; [stored_here | constructor].
    + split; [split; [discriminate | reflexivity]|].
      split; [reflexivity|]. split.
      * repeat constructor; cbn [In]; intros H; exact H.
      * constructor; [stored_here | constructor].
Defined.

(** *** On disk *)







(** An id with a space in it is written as a header the parser does not
    read: the path is lost at the next read. *)
Example id_with_space_is_lost :
  let w1 := snd (updateIntentMap (lit "/ws") (lit "my intent") (lit "src/a.ts") None
                   TraceStorageFacts.emptyWorld) in
  fst (getIntentFiles (lit "/ws") (lit "my intent") w1) = Returns [].
Proof. vm_compute. reflexivity. Qed.

End IntentMapLaws.
